(** * Irys upload service: a shallow embedding of the upload engine.

    The repository holds several generations of one upload service:
    - [user-json-manager.js]      the flat-file ledger ([JSONUserManager]);
    - [user-database.js]          the SQLite ledger ([UserManager]);
    - the multi-user service      ([ConnectionPool], [uploadFileWithUserTracking],
                                  [createTokenAssetsMultiUser]);
    - the production service      ([ProductionDatabase], [UltraFastConnectionPool],
                                  [IrysUploadService]);
    - the plain token creators    ([fastUpload]/[uploadTokenAssets], the
                                  enhanced uploader built on [fastUpload], and
                                  [validateAndDetectFile]/[createTokenAssets]);
    - [api-production-final.js]   with its simple polling pool, its upload
                                  filter and [uploadToIrys].

    JavaScript numbers that hold sizes, counters and millisecond instants are
    integers in the program, and are modelled in [Z].  Objects used as
    dictionaries are [gmap string _]; arrays and SQL tables are lists in
    insertion order.  Values drawn from the environment ([Date.now()],
    [crypto.randomUUID()], the answer of the remote network) are explicit
    arguments or fields of the world the code runs in. *)

From stdpp Require Import gmap strings list fin_maps pretty sorting.
From Stdlib Require Import ZArith Lia Ascii.
From Stdlib Require OrderedTypeEx.

Local Open Scope Z_scope.

(** ** Instants and their two textual renderings *)

(** [Date.prototype.toISOString] and SQLite's [CURRENT_TIMESTAMP] both render
    a UTC instant; an instant is the number of milliseconds since the epoch,
    as [Date.now()] returns it.  The renderings are the four-digit-year
    forms, valid for the years 0000 to 9999. *)
Module JSDate.

Definition msPerDay : Z := 86400000.

(** Proleptic Gregorian date of a day number counted from 1970-01-01. *)
Definition civil (day : Z) : Z * Z * Z :=
  let z := day + 719468 in
  let era := z / 146097 in
  let doe := z - era * 146097 in
  let yoe := (doe - doe / 1460 + doe / 36524 - doe / 146096) / 365 in
  let doy := doe - (365 * yoe + yoe / 4 - yoe / 100) in
  let mp := (5 * doy + 2) / 153 in
  let d := doy - (153 * mp + 2) / 5 + 1 in
  let m := if mp <? 10 then mp + 3 else mp - 9 in
  let y := yoe + era * 400 + (if m <=? 2 then 1 else 0) in
  (y, m, d).

Definition digit (n : Z) : ascii := ascii_of_N (48 + Z.to_N (n mod 10)).

Definition pad2 (n : Z) : string :=
  String (digit (n / 10)) (String (digit n) EmptyString).

Definition pad3 (n : Z) : string := String (digit (n / 100)) (pad2 n).

Definition pad4 (n : Z) : string := String (digit (n / 1000)) (pad3 n).

(** [YYYY-MM-DD] *)
Definition date_part (t : Z) : string :=
  let '(y, m, d) := civil (t / msPerDay) in
  pad4 y +:+ "-" +:+ pad2 m +:+ "-" +:+ pad2 d.

(** [HH:MM:SS] *)
Definition clock_part (t : Z) : string :=
  let s := (t mod msPerDay) / 1000 in
  pad2 (s / 3600) +:+ ":" +:+ pad2 ((s / 60) mod 60) +:+ ":" +:+ pad2 (s mod 60).

(** [new Date(t).toISOString()]: [YYYY-MM-DDTHH:MM:SS.sssZ]. *)
Definition toISOString (t : Z) : string :=
  date_part t +:+ "T" +:+ clock_part t +:+ "." +:+ pad3 (t mod 1000) +:+ "Z".

End JSDate.

(** ** [user-json-manager.js] *)

Module JSONUserManager.

Record User := {
  userId : string;
  email : option string;
  createdAt : string;
  lastActivity : string;
  totalUploads : Z;
  totalSizeBytes : Z;
  status : string
}.

(** The [uploadData] argument of [recordUpload]. *)
Record UploadData := {
  transactionId : string;
  fileName : string;
  fileSize : Z;
  contentType : string;
  publicURL : string;
  uploadTime : Z
}.

Record UploadRecord := {
  rec_id : string;
  rec_transactionId : string;
  rec_fileName : string;
  rec_fileSize : Z;
  rec_contentType : string;
  rec_publicURL : string;
  rec_uploadTime : Z;
  rec_createdAt : string
}.

Record RateEntry := { timestamp : Z; ipAddress : string }.

Record RateResult := { allowed : bool; remaining : Z; resetTime : Z }.

(** The three in-memory objects of the manager.  Keys are identities;
    [this.users[id]] is falsy exactly when the key is absent, since every
    stored value is an object or an array (an identity is taken not to be
    one of the names every object inherits, such as [constructor]).
    [saveData] only mirrors the objects to disk and swallows its own
    errors, so it leaves them as they are. *)
Record State := {
  users : gmap string User;
  uploads : gmap string (list UploadRecord);
  rateLimits : gmap string (list RateEntry)
}.

(** A fresh data directory: [loadData] finds no file. *)
Definition empty : State :=
  {| users := ∅; uploads := ∅; rateLimits := ∅ |}.

Definition touch (now : Z) (u : User) : User :=
  {| userId := userId u; email := email u; createdAt := createdAt u;
     lastActivity := JSDate.toISOString now;
     totalUploads := totalUploads u; totalSizeBytes := totalSizeBytes u;
     status := status u |}.

Definition createOrGetUser (id : string) (mail : option string) (now : Z)
    (st : State) : User * State :=
  match users st !! id with
  | None =>
      let u := {| userId := id; email := mail;
                  createdAt := JSDate.toISOString now;
                  lastActivity := JSDate.toISOString now;
                  totalUploads := 0; totalSizeBytes := 0;
                  status := "active" |} in
      (u, {| users := <[id := u]> (users st); uploads := uploads st;
             rateLimits := rateLimits st |})
  | Some u =>
      let u' := touch now u in
      (u', {| users := <[id := u']> (users st); uploads := uploads st;
              rateLimits := rateLimits st |})
  end.

Definition count_upload (now : Z) (size : Z) (u : User) : User :=
  {| userId := userId u; email := email u; createdAt := createdAt u;
     lastActivity := JSDate.toISOString now;
     totalUploads := totalUploads u + 1;
     totalSizeBytes := totalSizeBytes u + size;
     status := status u |}.

(** [uuid] is the value drawn by [crypto.randomUUID()]. *)
Definition recordUpload (id : string) (d : UploadData) (uuid : string)
    (now : Z) (st : State) : UploadRecord * State :=
  let mine := default [] (uploads st !! id) in
  let r := {| rec_id := uuid;
              rec_transactionId := transactionId d;
              rec_fileName := fileName d;
              rec_fileSize := fileSize d;
              rec_contentType := contentType d;
              rec_publicURL := publicURL d;
              rec_uploadTime := uploadTime d;
              rec_createdAt := JSDate.toISOString now |} in
  let uploads' := <[id := mine ++ [r]]> (uploads st) in
  let users' :=
    match users st !! id with
    | Some u => <[id := count_upload now (fileSize d) u]> (users st)
    | None => users st
    end in
  (r, {| users := users'; uploads := uploads'; rateLimits := rateLimits st |}).

Definition newer (cutoffTime : Z) (e : RateEntry) : bool :=
  cutoffTime <? timestamp e.

Definition checkRateLimit (id ip : string) (timeWindowMs maxRequests : Z)
    (now : Z) (st : State) : RateResult * State :=
  let cutoffTime := now - timeWindowMs in
  let live := List.filter (newer cutoffTime) (default [] (rateLimits st !! id)) in
  let requestCount := Z.of_nat (length live) in
  if maxRequests <=? requestCount then
    ({| allowed := false; remaining := 0; resetTime := now + timeWindowMs |},
     {| users := users st; uploads := uploads st;
        rateLimits := <[id := live]> (rateLimits st) |})
  else
    ({| allowed := true; remaining := maxRequests - requestCount - 1;
        resetTime := now + timeWindowMs |},
     {| users := users st; uploads := uploads st;
        rateLimits :=
          <[id := live ++ [ {| timestamp := now; ipAddress := ip |} ]]>
            (rateLimits st) |}).

Definition cleanup (daysOld : Z) (now : Z) (st : State) : State :=
  let cutoffTime := now - daysOld * 24 * 60 * 60 * 1000 in
  {| users := users st; uploads := uploads st;
     rateLimits := List.filter (newer cutoffTime) <$> rateLimits st |}.

(** The uploads stored for an identity ([this.uploads[id] || []]). *)
Definition uploads_of (st : State) (id : string) : list UploadRecord :=
  default [] (uploads st !! id).

Record UserStats := {
  st_userId : string;
  st_totalUploads : Z;
  st_totalSizeBytes : Z;
  st_createdAt : string;
  st_lastActivity : string;
  recentUploads : list UploadRecord
}.

(** [slice (-5)]: the last five. *)
Definition getUserStats (id : string) (st : State) : option UserStats :=
  match users st !! id with
  | None => None
  | Some u =>
      let mine := uploads_of st id in
      Some {| st_userId := userId u;
              st_totalUploads := totalUploads u;
              st_totalSizeBytes := totalSizeBytes u;
              st_createdAt := createdAt u;
              st_lastActivity := lastActivity u;
              recentUploads := drop (length mine - 5) mine |}
  end.

(** [createdAt] texts are ISO renderings, which order as their instants. *)
Definition created_after (x r : UploadRecord) : bool :=
  match String.compare (rec_createdAt x) (rec_createdAt r) with
  | Gt => true
  | _ => false
  end.

Fixpoint insert_newest_first (r : UploadRecord) (l : list UploadRecord)
    : list UploadRecord :=
  match l with
  | [] => [r]
  | x :: rest =>
      if created_after x r then x :: insert_newest_first r rest else r :: l
  end.

(** [Array.prototype.sort] with the comparator
    [new Date (b.createdAt) - new Date (a.createdAt)]: newest first, records
    of one instant in the order they had. *)
Definition sort_newest_first (l : list UploadRecord) : list UploadRecord :=
  foldr insert_newest_first [] l.

(** [getRecentUploads] sorts the array it finds in [this.uploads], which is
    the stored array itself, and returns a copy of its first [limit]
    elements. *)
Definition getRecentUploads (id : string) (limit : nat) (st : State)
    : list UploadRecord * State :=
  match uploads st !! id with
  | None => ([], st)
  | Some mine =>
      let sorted := sort_newest_first mine in
      (take limit sorted,
       {| users := users st; uploads := <[id := sorted]> (uploads st);
          rateLimits := rateLimits st |})
  end.

Definition total_size (l : list UploadRecord) : Z :=
  foldr (λ r acc, rec_fileSize r + acc) 0 l.

(** Calls of the manager, to speak about sequences of operations. *)
Inductive Op :=
| CreateOrGetUser (id : string) (mail : option string) (now : Z)
| RecordUpload (id : string) (d : UploadData) (uuid : string) (now : Z)
| CheckRateLimit (id ip : string) (timeWindowMs maxRequests : Z) (now : Z)
| GetRecentUploads (id : string) (limit : nat)
| Cleanup (daysOld : Z) (now : Z).

Definition step (st : State) (o : Op) : State :=
  match o with
  | CreateOrGetUser id mail now => (createOrGetUser id mail now st).2
  | RecordUpload id d uuid now => (recordUpload id d uuid now st).2
  | CheckRateLimit id ip w m now => (checkRateLimit id ip w m now st).2
  | GetRecentUploads id limit => (getRecentUploads id limit st).2
  | Cleanup days now => cleanup days now st
  end.

Definition run (ops : list Op) (st : State) : State := foldl step st ops.

(** Every [recordUpload] of the sequence comes after a [createOrGetUser]
    for the same identity; [seen] holds the identities created so far. *)
Fixpoint preceded (seen : gset string) (ops : list Op) : bool :=
  match ops with
  | [] => true
  | CreateOrGetUser id _ _ :: rest => preceded ({[id]} ∪ seen) rest
  | RecordUpload id _ _ _ :: rest =>
      bool_decide (id ∈ seen) && preceded seen rest
  | _ :: rest => preceded seen rest
  end.

(** The statistics of every known identity agree with its stored uploads. *)
Definition stats_consistent (st : State) : Prop :=
  ∀ id u, users st !! id = Some u →
    totalUploads u = Z.of_nat (length (uploads_of st id)) ∧
    totalSizeBytes u = total_size (uploads_of st id).

(** What a sequence that creates before it records keeps true. *)
Definition ledger_inv (seen : gset string) (st : State) : Prop :=
  stats_consistent st ∧
  (∀ id, id ∈ seen → is_Some (users st !! id)) ∧
  (∀ id, users st !! id = None → uploads_of st id = []).

(** Calls of [checkRateLimit] for one identity, one after the other, at the
    instants [ts]: the instants of the calls that were admitted, and the
    state the last call leaves. *)
Fixpoint checkRateLimit_each (id ip : string) (timeWindowMs maxRequests : Z)
    (ts : list Z) (st : State) : list Z * State :=
  match ts with
  | [] => ([], st)
  | t :: rest =>
      let r := checkRateLimit id ip timeWindowMs maxRequests t st in
      let rs := checkRateLimit_each id ip timeWindowMs maxRequests rest r.2 in
      ((if allowed r.1 then [t] else []) ++ rs.1, rs.2)
  end.

(** [a] may stand before [b] in a list that is newest first: [b] is not
    newer than [a]. *)
Definition not_older (a b : UploadRecord) : Prop := created_after b a = false.

End JSONUserManager.

(** ** What the SQLite backends rely on *)

Module Sqlite.

(** [DEFAULT CURRENT_TIMESTAMP] stores the text [YYYY-MM-DD HH:MM:SS]
    (UTC). *)
Definition CURRENT_TIMESTAMP (t : Z) : string :=
  JSDate.date_part t +:+ " " +:+ JSDate.clock_part t.

(** [a > b] on two TEXT values: the default BINARY collation compares the
    bytes from left to right.  A [DATETIME] column holding such a text and
    a bound JavaScript string are both TEXT, neither being a number. *)
Definition text_gt (a b : string) : bool :=
  match String.compare a b with Gt => true | _ => false end.
(** [a < b] on two TEXT values. *)
Definition text_lt (a b : string) : bool :=
  match String.compare a b with Lt => true | _ => false end.


End Sqlite.

(** The count the specification of the rate limiter asks for: how many of
    the recorded instants are newer than [now - windowMs]. *)
Definition spec_window_count (windowMs now : Z) (instants : list Z) : Z :=
  Z.of_nat (length (List.filter (λ t, now - windowMs <? t) instants)).
(** What a run of rate checks keeps true of the entries stored for [id]:
    they are the admitted instants [adm] that are newer than a cutoff [c],
    and they are no more than the ceiling [m]. *)
Definition window_inv (id : string) (m c : Z) (adm : list Z)
    (st : JSONUserManager.State) : Prop :=
  JSONUserManager.timestamp
      <$> default [] (JSONUserManager.rateLimits st !! id)
    = List.filter (λ x, c <? x) adm
  ∧ Z.of_nat (length (default [] (JSONUserManager.rateLimits st !! id)))
    ≤ Z.max m 0.


(** ** Errors and outcomes of asynchronous calls *)

(** The [Error] objects the services raise, by the message they carry. *)
Inductive Err :=
| FileNotFound (path : string)
| UnsupportedType (ext : string)
| TooLarge (size limit : Z)
| EmptyFile
| RateLimitExceeded
| UploadTimeout
| RemoteError (msg : string)       (* [uploader.upload] rejected *)
| WalletError (msg : string)       (* [Uploader(Solana).withWallet] rejected *)
| SqliteConstraint (msg : string)  (* the statement violated a constraint *)
| ReferenceError (name : string)
| TypeError (msg : string).

(** How an awaited call ends in the run of one request: with a value,
    with an exception, or not at all (a promise whose callback died, an
    upload without a timer that gets no answer, an acquirer that waits
    for a connection: only another request can release one, and the run
    of a request on its own has no other request in it). *)
Inductive Outcome (A : Type) :=
| Returned (a : A)
| Threw (e : Err)
| Unsettled.
Arguments Returned {A} a.
Arguments Threw {A} e.
Arguments Unsettled {A}.

(** ** [user-database.js] *)

Module UserManager.

Record user_session := {
  user_id : string;
  email : option string;
  created_at : string;
  last_activity : string;
  total_uploads : Z;
  total_size_bytes : Z;
  status : string
}.

Record UploadData := {
  transactionId : string;
  fileName : string;
  fileSize : Z;
  contentType : string;
  publicURL : string;
  uploadTime : Z
}.

(** [upload_history]: [transaction_id] is [TEXT NOT NULL], nothing more. *)
Record upload_row := {
  up_id : Z;
  up_user_id : string;
  transaction_id : string;
  file_name : string;
  file_size : Z;
  file_type : string;
  public_url : string;
  upload_time : Z;
  up_created_at : string
}.

Record rate_row := {
  rl_user_id : string;
  request_time : string;
  ip_address : string
}.

Record active_row := {
  au_id : Z;
  au_user_id : string;
  session_id : string;
  au_file_name : string;
  started_at : string;
  au_status : string
}.

Record RateResult := { allowed : bool; remaining : Z; resetTime : Z }.

(** The four tables.  [user_sessions] is keyed by its UNIQUE [user_id];
    the others are lists of rows in insertion order, an AUTOINCREMENT id
    being one more than the number of rows before it (no row is ever
    deleted).  The store is taken to be healthy: a statement fails only by
    breaking a constraint of the schema, and the values bound here break
    none.  The FOREIGN KEY clauses are declarations only: the connection
    never turns [PRAGMA foreign_keys] on. *)
Record DB := {
  user_sessions : gmap string user_session;
  upload_history : list upload_row;
  rate_limits : list rate_row;
  active_uploads : list active_row
}.

Definition empty : DB :=
  {| user_sessions := ∅; upload_history := []; rate_limits := [];
     active_uploads := [] |}.

Definition createOrGetUser (id : string) (mail : option string) (now : Z)
    (db : DB) : user_session * DB :=
  let row :=
    match user_sessions db !! id with
    | None =>
        {| user_id := id; email := mail;
           created_at := Sqlite.CURRENT_TIMESTAMP now;
           last_activity := Sqlite.CURRENT_TIMESTAMP now;
           total_uploads := 0; total_size_bytes := 0; status := "active" |}
    | Some u =>
        {| user_id := user_id u; email := email u;
           created_at := created_at u;
           last_activity := Sqlite.CURRENT_TIMESTAMP now;
           total_uploads := total_uploads u;
           total_size_bytes := total_size_bytes u; status := status u |}
    end in
  (row, {| user_sessions := <[id := row]> (user_sessions db);
           upload_history := upload_history db;
           rate_limits := rate_limits db;
           active_uploads := active_uploads db |}).

Definition count_upload (now size : Z) (u : user_session) : user_session :=
  {| user_id := user_id u; email := email u; created_at := created_at u;
     last_activity := Sqlite.CURRENT_TIMESTAMP now;
     total_uploads := total_uploads u + 1;
     total_size_bytes := total_size_bytes u + size; status := status u |}.

(** The INSERT, then the UPDATE of the rows [WHERE user_id = ?] (none when
    the identity has no session row).  Resolves with [uploadId]. *)
Definition recordUpload (id : string) (d : UploadData) (now : Z) (db : DB)
    : Z * DB :=
  let uploadId := Z.of_nat (length (upload_history db)) + 1 in
  let row := {| up_id := uploadId; up_user_id := id;
                transaction_id := transactionId d;
                file_name := fileName d; file_size := fileSize d;
                file_type := contentType d; public_url := publicURL d;
                upload_time := uploadTime d;
                up_created_at := Sqlite.CURRENT_TIMESTAMP now |} in
  (uploadId,
   {| user_sessions := alter (count_upload now (fileSize d)) id (user_sessions db);
      upload_history := upload_history db ++ [row];
      rate_limits := rate_limits db;
      active_uploads := active_uploads db |}).

(** [WHERE user_id = ? AND request_time > ?] *)
Definition counted (id cutoffTime : string) (r : rate_row) : bool :=
  bool_decide (rl_user_id r = id) && Sqlite.text_gt (request_time r) cutoffTime.

Definition checkRateLimit (id ip : string) (timeWindowMs maxRequests : Z)
    (now : Z) (db : DB) : RateResult * DB :=
  let cutoffTime := JSDate.toISOString (now - timeWindowMs) in
  let requestCount :=
    Z.of_nat (length (List.filter (counted id cutoffTime) (rate_limits db))) in
  if requestCount <? maxRequests then
    ({| allowed := true; remaining := maxRequests - requestCount - 1;
        resetTime := now + timeWindowMs |},
     {| user_sessions := user_sessions db;
        upload_history := upload_history db;
        rate_limits := rate_limits db ++
          [ {| rl_user_id := id;
               request_time := Sqlite.CURRENT_TIMESTAMP now;
               ip_address := ip |} ];
        active_uploads := active_uploads db |})
  else
    ({| allowed := false; remaining := 0; resetTime := now + timeWindowMs |},
     db).

Definition startUpload (id sessionId name : string) (now : Z) (db : DB)
    : Z * DB :=
  let uploadSessionId := Z.of_nat (length (active_uploads db)) + 1 in
  (uploadSessionId,
   {| user_sessions := user_sessions db;
      upload_history := upload_history db;
      rate_limits := rate_limits db;
      active_uploads := active_uploads db ++
        [ {| au_id := uploadSessionId; au_user_id := id;
             session_id := sessionId; au_file_name := name;
             started_at := Sqlite.CURRENT_TIMESTAMP now;
             au_status := "uploading" |} ] |}).

Definition set_status (uploadSessionId : Z) (st : string) (r : active_row)
    : active_row :=
  if bool_decide (au_id r = uploadSessionId) then
    {| au_id := au_id r; au_user_id := au_user_id r;
       session_id := session_id r; au_file_name := au_file_name r;
       started_at := started_at r; au_status := st |}
  else r.

Definition completeUpload (uploadSessionId : Z) (st : string) (db : DB) : DB :=
  {| user_sessions := user_sessions db;
     upload_history := upload_history db;
     rate_limits := rate_limits db;
     active_uploads := set_status uploadSessionId st <$> active_uploads db |}.

(** The rows left by calls admitted at the instants [ts]. *)
Definition stamped (id ip : string) (ts : list Z) : list rate_row :=
  (λ t, {| rl_user_id := id; request_time := Sqlite.CURRENT_TIMESTAMP t;
           ip_address := ip |}) <$> ts.

(** A rate table of any identities: the rows, in their order, each given
    by its identity, its address and the instant it was written at. *)
Definition logged (rows : list (string * string * Z)) : list rate_row :=
  (λ row, {| rl_user_id := row.1.1;
             request_time := Sqlite.CURRENT_TIMESTAMP row.2;
             ip_address := row.1.2 |}) <$> rows.

(** Some stored upload row carries this transaction id. *)
Definition has_tx (tx : string) (db : DB) : Prop :=
  ∃ r, r ∈ upload_history db ∧ transaction_id r = tx.

(** The row [getUserStats] resolves with. *)
Record UserStats := {
  st_user_id : string;
  st_total_uploads : Z;
  st_total_size_bytes : Z;
  st_created_at : string;
  st_last_activity : string;
  st_active_uploads : Z
}.

(** [LEFT JOIN active_uploads a
     ON u.user_id = a.user_id AND a.status = 'uploading'] *)
Definition joined (u : user_session) (a : active_row) : bool :=
  String.eqb (user_id u) (au_user_id a) && String.eqb (au_status a) "uploading".

(** The session row [WHERE u.user_id = ?] with [COUNT (a.id)], the number
    of active uploads joined to it; [null] when there is no such row. *)
Definition getUserStats (id : string) (db : DB) : option UserStats :=
  match user_sessions db !! id with
  | None => None
  | Some u =>
      Some {| st_user_id := user_id u;
              st_total_uploads := total_uploads u;
              st_total_size_bytes := total_size_bytes u;
              st_created_at := created_at u;
              st_last_activity := last_activity u;
              st_active_uploads :=
                Z.of_nat (length (List.filter (joined u) (active_uploads db))) |}
  end.

(** Calls of the manager, to speak about sequences of operations. *)
Inductive Op :=
| CreateOrGetUser (id : string) (mail : option string) (now : Z)
| RecordUpload (id : string) (d : UploadData) (now : Z)
| CheckRateLimit (id ip : string) (timeWindowMs maxRequests : Z) (now : Z)
| StartUpload (id sessionId name : string) (now : Z)
| CompleteUpload (uploadSessionId : Z) (st : string).

Definition step (db : DB) (o : Op) : DB :=
  match o with
  | CreateOrGetUser id mail now => (createOrGetUser id mail now db).2
  | RecordUpload id d now => (recordUpload id d now db).2
  | CheckRateLimit id ip w m now => (checkRateLimit id ip w m now db).2
  | StartUpload id sessionId name now => (startUpload id sessionId name now db).2
  | CompleteUpload uploadSessionId st => completeUpload uploadSessionId st db
  end.

Definition run (ops : list Op) (db : DB) : DB := foldl step db ops.

(** Every [recordUpload] of the sequence comes after a [createOrGetUser]
    for the same identity; [seen] holds the identities created so far. *)
Fixpoint preceded (seen : gset string) (ops : list Op) : bool :=
  match ops with
  | [] => true
  | CreateOrGetUser id _ _ :: rest => preceded ({[id]} ∪ seen) rest
  | RecordUpload id _ _ :: rest => bool_decide (id ∈ seen) && preceded seen rest
  | _ :: rest => preceded seen rest
  end.

(** The upload rows of an identity, and the sum of their sizes. *)
Definition history_of (db : DB) (id : string) : list upload_row :=
  List.filter (λ r, String.eqb (up_user_id r) id) (upload_history db).

Definition total_size (l : list upload_row) : Z :=
  foldr (λ r acc, file_size r + acc) 0 l.

(** The counters of every session row agree with the upload rows. *)
Definition stats_consistent (db : DB) : Prop :=
  ∀ id u, user_sessions db !! id = Some u →
    total_uploads u = Z.of_nat (length (history_of db id))
    ∧ total_size_bytes u = total_size (history_of db id).

(** The ids [1, 2, ..., n]. *)
Definition ids_upto (n : nat) : list Z := (λ k, Z.of_nat k) <$> seq 1 n.

(** What a sequence that creates before it records keeps true. *)
Definition ledger_inv (seen : gset string) (db : DB) : Prop :=
  stats_consistent db
  ∧ (∀ id, id ∈ seen → is_Some (user_sessions db !! id))
  ∧ (∀ id, user_sessions db !! id = None → history_of db id = []).

End UserManager.

(** ** Data shared by the services *)

Record Tag := { tag_name : string; tag_value : string }.

(** An entry of [properties.files]. *)
Record FileRef := { uri : string; ftype : string }.

(** [upload_details] of the production service's metadata document. *)
Record UploadDetails := {
  ud_wallet_address : string;
  ud_session_id : string;
  ud_logo_transaction_id : string;
  ud_created_at : string;
  ud_file_size : Z;
  ud_content_type : string
}.

(** The token metadata document.  Attributes and creators are passed through
    from the caller untouched, each element by its JSON text.  The last three
    members exist in some services only. *)
Record Metadata := {
  md_name : string;
  md_symbol : string;
  md_description : string;
  md_image : string;
  md_external_url : string;
  md_attributes : list string;
  md_files : list FileRef;
  md_category : string;
  md_creators : list string;
  md_file_size : option Z;
  md_size_compliant : option bool;
  md_upload_details : option UploadDetails
}.

(** The [tokenData] argument; [None] is a member left [undefined]. *)
Record TokenData := {
  td_name : string;
  td_symbol : string;
  td_description : string;
  logoPath : string;
  website : option string;
  attributes : option (list string);
  creators : option (list string)
}.

(** [x || ""] on a string that may be undefined. *)
Definition or_empty (x : option string) : string := default "" x.

(** [x || []] *)
Definition or_nil (x : option (list string)) : list string := default [] x.

(** ** The ledger of the production service *)

Module ProductionDatabase.

Record user_row := {
  wallet_address : string;
  created_at : string;
  last_activity : string;
  total_uploads : Z;
  total_size_bytes : Z;
  status : string
}.

(** What [uploadFile] returns and [recordUpload] stores ([success] is
    always [true] and [throughput] is a display string; both are left
    out). *)
Record UploadData := {
  transactionId : string;
  publicURL : string;
  fileName : string;
  fileSize : Z;
  contentType : string;
  category : string;
  uploadTime : Z;
  sessionId : string
}.

(** [uploads]: [transaction_id TEXT UNIQUE NOT NULL]. *)
Record upload_row := {
  up_wallet_address : string;
  transaction_id : string;
  file_name : string;
  file_size : Z;
  file_type : string;
  up_category : string;
  public_url : string;
  metadata_json : option Metadata;
  upload_time_ms : Z;
  up_created_at : string;
  tags_json : option (list Tag);
  up_session_id : string
}.

Record token_row := {
  tk_wallet_address : string;
  token_name : string;
  token_symbol : string;
  logo_transaction_id : string;
  logo_url : string;
  metadata_transaction_id : string;
  metadata_url : string;
  tk_metadata_json : Metadata;
  tk_created_at : string;
  tk_session_id : string
}.

Record rate_row := {
  rl_wallet_address : string;
  request_time : string;
  ip_address : string
}.

Record RateResult := { allowed : bool; remaining : Z; resetTime : Z }.

(** The argument [tokenData] of [recordTokenAsset]. *)
Record TokenInfo := { name : string; symbol : string; metadata : Metadata }.

(** [users] is keyed by its UNIQUE [wallet_address]; the other tables are
    lists of rows in insertion order.  As in [UserManager] the store is
    healthy and the FOREIGN KEY clauses of the schema ([token_assets]
    names [uploads (transaction_id)] twice) are declarations only: nothing
    in the service turns [PRAGMA foreign_keys] on, and SQLite checks them
    only then. *)
Record DB := {
  users : gmap string user_row;
  uploads : list upload_row;
  token_assets : list token_row;
  rate_limits : list rate_row
}.

Definition empty : DB :=
  {| users := ∅; uploads := []; token_assets := []; rate_limits := [] |}.

Definition createOrUpdateUser (wallet : string) (now : Z) (db : DB)
    : user_row * DB :=
  let row :=
    match users db !! wallet with
    | None =>
        {| wallet_address := wallet;
           created_at := Sqlite.CURRENT_TIMESTAMP now;
           last_activity := Sqlite.CURRENT_TIMESTAMP now;
           total_uploads := 0; total_size_bytes := 0; status := "active" |}
    | Some u =>
        {| wallet_address := wallet_address u; created_at := created_at u;
           last_activity := Sqlite.CURRENT_TIMESTAMP now;
           total_uploads := total_uploads u;
           total_size_bytes := total_size_bytes u; status := status u |}
    end in
  (row, {| users := <[wallet := row]> (users db); uploads := uploads db;
           token_assets := token_assets db; rate_limits := rate_limits db |}).

Definition has_tx (tx : string) (db : DB) : bool :=
  existsb (λ r, String.eqb (transaction_id r) tx) (uploads db).

(** The INSERT fails on a transaction id that is already stored.  When it
    succeeds, its callback is a [function (err) { ... }]: inside it [this]
    is the statement that ran (the code reads [this.lastID] from it), not
    the [ProductionDatabase], so [this.db] is undefined and
    [this.db.run (updateUserSQL, ...)] raises a type error inside the
    driver's callback.  The UPDATE is never issued and the promise never
    settles; nothing catches the type error. *)
Definition recordUpload (wallet : string) (d : UploadData)
    (metadataJson : option Metadata) (tagsJson : option (list Tag))
    (now : Z) (db : DB) : Outcome Z * DB :=
  if has_tx (transactionId d) db then
    (Threw (SqliteConstraint "UNIQUE constraint failed: uploads.transaction_id"),
     db)
  else
    (Unsettled,
     {| users := users db;
        uploads := uploads db ++
          [ {| up_wallet_address := wallet;
               transaction_id := transactionId d;
               file_name := fileName d; file_size := fileSize d;
               file_type := contentType d; up_category := category d;
               public_url := publicURL d; metadata_json := metadataJson;
               upload_time_ms := uploadTime d;
               up_created_at := Sqlite.CURRENT_TIMESTAMP now;
               tags_json := tagsJson; up_session_id := sessionId d |} ];
        token_assets := token_assets db;
        rate_limits := rate_limits db |}).

(** One INSERT, nothing looked up before it.  Resolves with [tokenId]. *)
Definition recordTokenAsset (wallet : string) (t : TokenInfo)
    (logoData metadataData : UploadData) (session : string) (now : Z)
    (db : DB) : Outcome Z * DB :=
  (Returned (Z.of_nat (length (token_assets db)) + 1),
   {| users := users db; uploads := uploads db;
      token_assets := token_assets db ++
        [ {| tk_wallet_address := wallet;
             token_name := name t; token_symbol := symbol t;
             logo_transaction_id := transactionId logoData;
             logo_url := publicURL logoData;
             metadata_transaction_id := transactionId metadataData;
             metadata_url := publicURL metadataData;
             tk_metadata_json := metadata t;
             tk_created_at := Sqlite.CURRENT_TIMESTAMP now;
             tk_session_id := session |} ];
      rate_limits := rate_limits db |}).

Definition counted (wallet cutoffTime : string) (r : rate_row) : bool :=
  bool_decide (rl_wallet_address r = wallet)
  && Sqlite.text_gt (request_time r) cutoffTime.

(** [window] and [ceiling] are [CONFIG.RATE_LIMIT_WINDOW] and
    [CONFIG.RATE_LIMIT_PER_MINUTE]. *)
Definition checkRateLimit (window ceiling : Z) (wallet ip : string)
    (now : Z) (db : DB) : RateResult * DB :=
  let cutoffTime := JSDate.toISOString (now - window) in
  let requestCount :=
    Z.of_nat (length (List.filter (counted wallet cutoffTime) (rate_limits db))) in
  if requestCount <? ceiling then
    ({| allowed := true; remaining := ceiling - requestCount - 1;
        resetTime := now + window |},
     {| users := users db; uploads := uploads db;
        token_assets := token_assets db;
        rate_limits := rate_limits db ++
          [ {| rl_wallet_address := wallet;
               request_time := Sqlite.CURRENT_TIMESTAMP now;
               ip_address := ip |} ] |})
  else
    ({| allowed := false; remaining := 0; resetTime := now + window |}, db).

(** The row [getUserDashboard] resolves with.  [GROUP_CONCAT] joins its
    values with commas; they are kept apart here, in the order of the
    joined rows (an order SQLite does not promise). *)
Record Dashboard := {
  dh_wallet_address : string;
  dh_total_uploads : Z;
  dh_total_size_bytes : Z;
  dh_created_at : string;
  dh_last_activity : string;
  recent_urls : list string;
  recent_files : list string;
  token_count : Z
}.

(** [l LEFT JOIN r ON on]: every row of [l] with each row of [r] that
    matches it, or once with [NULL]s when none does. *)
Definition left_join {A B} (on : A → B → bool) (l : list A) (r : list B)
    : list (A * option B) :=
  List.flat_map
    (λ a, match List.filter (on a) r with
          | [] => [(a, None)]
          | ms => (λ b, (a, Some b)) <$> ms
          end) l.

(** [FROM users u LEFT JOIN uploads up ON ... LEFT JOIN token_assets ta
    ON ... WHERE u.wallet_address = ? GROUP BY u.wallet_address]: the one
    group of the wallet's joined rows, [COUNT (ta.id)] counting those with
    a token row; no row at all for an unknown wallet. *)
Definition getUserDashboard (wallet : string) (db : DB) : option Dashboard :=
  match users db !! wallet with
  | None => None
  | Some u =>
      let with_uploads :=
        left_join (λ u up, String.eqb (wallet_address u) (up_wallet_address up))
          [u] (uploads db) in
      let rows :=
        left_join (λ (x : user_row * option upload_row) ta,
                     String.eqb (wallet_address x.1) (tk_wallet_address ta))
          with_uploads (token_assets db) in
      Some {| dh_wallet_address := wallet_address u;
              dh_total_uploads := total_uploads u;
              dh_total_size_bytes := total_size_bytes u;
              dh_created_at := created_at u;
              dh_last_activity := last_activity u;
              recent_urls := omap (λ row, public_url <$> row.1.2) rows;
              recent_files := omap (λ row, file_name <$> row.1.2) rows;
              token_count := Z.of_nat (length (omap snd rows)) |}
  end.

(** A rate table of any wallets: the rows, in their order, each given by
    its wallet, its address and the instant it was written at. *)
Definition logged (rows : list (string * string * Z)) : list rate_row :=
  (λ row, {| rl_wallet_address := row.1.1;
             request_time := Sqlite.CURRENT_TIMESTAMP row.2;
             ip_address := row.1.2 |}) <$> rows.

End ProductionDatabase.

(** ** Connection pools *)

(** A connection handle is known by its identity (JavaScript compares the
    objects by reference); a suspended acquirer is known by the [resolve]
    callback it left behind. *)
Definition Conn := nat.
Definition Waiter := nat.

(** How [getConnection] ends for its caller. *)
Inductive Acquire :=
| Got (c : Conn)
| Failed (e : Err)
| Suspended.

(** [Array.prototype.pop]: the last element. *)
Definition pop {A} (l : list A) : option (list A * A) :=
  match reverse l with
  | [] => None
  | x :: r => Some (reverse r, x)
  end.

(** [indexOf] then [splice (index, 1)]: the first occurrence goes. *)
Fixpoint remove_first (c : Conn) (l : list Conn) : list Conn :=
  match l with
  | [] => []
  | x :: r => if bool_decide (x = c) then r else x :: remove_first c r
  end.

(** A pool method runs without interruption up to an [await]; the only
    [await] inside the pools is that of [Uploader(Solana).withWallet], whose
    answer is the argument [fresh].  [ConnectionPool] and the simple pool
    raise their counter before that [await] and touch nothing after it, so
    their [getConnection] is one step whatever else runs in the meantime.
    [UltraFastConnectionPool] pushes the connection and counts it after the
    [await]: its [getConnection] below is the call as it goes when no other
    call of the pool runs during the [await], and [beginConnection] and
    [finishConnection] are its two parts for the runs in which others do. *)

(** The pool of the multi-user service. *)
Module ConnectionPool.

Record State := {
  pool : list Conn;
  activeConnections : Z;
  maxConnections : Z;
  waitingQueue : list Waiter
}.

Definition create (maxConnections : Z) : State :=
  {| pool := []; activeConnections := 0; maxConnections := maxConnections;
     waitingQueue := [] |}.

Definition getConnection (fresh : Err + Conn) (me : Waiter) (st : State)
    : Acquire * State :=
  match pop (pool st) with
  | Some (rest, c) =>
      (Got c, {| pool := rest; activeConnections := activeConnections st;
                 maxConnections := maxConnections st;
                 waitingQueue := waitingQueue st |})
  | None =>
      if activeConnections st <? maxConnections st then
        let st' := {| pool := pool st;
                      activeConnections := activeConnections st + 1;
                      maxConnections := maxConnections st;
                      waitingQueue := waitingQueue st |} in
        match fresh with
        | inr c => (Got c, st')
        | inl e => (Failed e, st')
        end
      else
        (Suspended,
         {| pool := pool st; activeConnections := activeConnections st;
            maxConnections := maxConnections st;
            waitingQueue := waitingQueue st ++ [me] |})
  end.

(** The second component is the acquirer that was woken, if any, with the
    handle its promise was resolved with ([waitingRequest (uploader)]). *)
Definition releaseConnection (uploader : Conn) (st : State)
    : State * option (Waiter * Conn) :=
  match waitingQueue st with
  | w :: rest =>
      ({| pool := pool st; activeConnections := activeConnections st;
          maxConnections := maxConnections st; waitingQueue := rest |},
       Some (w, uploader))
  | [] =>
      ({| pool := pool st ++ [uploader];
          activeConnections := activeConnections st;
          maxConnections := maxConnections st; waitingQueue := [] |},
       None)
  end.

End ConnectionPool.

(** The pool of the production service. *)
Module UltraFastConnectionPool.

Record Stats := { created : Z; reused : Z; errors : Z }.

Record State := {
  pool : list Conn;
  active : list Conn;
  waiting : list Waiter;
  maxConnections : Z;
  stats : Stats
}.

Definition create (maxConnections : Z) : State :=
  {| pool := []; active := []; waiting := [];
     maxConnections := maxConnections;
     stats := {| created := 0; reused := 0; errors := 0 |} |}.

Definition getConnection (fresh : Err + Conn) (me : Waiter) (st : State)
    : Acquire * State :=
  match pop (pool st) with
  | Some (rest, c) =>
      (Got c,
       {| pool := rest; active := active st ++ [c]; waiting := waiting st;
          maxConnections := maxConnections st;
          stats := {| created := created (stats st);
                      reused := reused (stats st) + 1;
                      errors := errors (stats st) |} |})
  | None =>
      if Z.of_nat (length (active st)) <? maxConnections st then
        match fresh with
        | inr c =>
            (Got c,
             {| pool := pool st; active := active st ++ [c];
                waiting := waiting st; maxConnections := maxConnections st;
                stats := {| created := created (stats st) + 1;
                            reused := reused (stats st);
                            errors := errors (stats st) |} |})
        | inl e =>
            (Failed e,
             {| pool := pool st; active := active st; waiting := waiting st;
                maxConnections := maxConnections st;
                stats := {| created := created (stats st);
                            reused := reused (stats st);
                            errors := errors (stats st) + 1 |} |})
        end
      else
        (Suspended,
         {| pool := pool st; active := active st;
            waiting := waiting st ++ [me];
            maxConnections := maxConnections st; stats := stats st |})
  end.

(** The second component is the acquirer that was woken, if any, with the
    connection its promise was resolved with ([resolve (connection)]). *)
Definition releaseConnection (connection : Conn) (st : State)
    : State * option (Waiter * Conn) :=
  let active' := remove_first connection (active st) in
  match waiting st with
  | w :: rest =>
      ({| pool := pool st; active := active' ++ [connection];
          waiting := rest; maxConnections := maxConnections st;
          stats := stats st |},
       Some (w, connection))
  | [] =>
      ({| pool := pool st ++ [connection]; active := active';
          waiting := []; maxConnections := maxConnections st;
          stats := stats st |},
       None)
  end.

(** What [getStats] reports. *)
Record PoolStats := {
  gs_created : Z;
  gs_reused : Z;
  gs_errors : Z;
  poolSize : Z;
  activeConnections : Z;
  waitingRequests : Z
}.

Definition getStats (st : State) : PoolStats :=
  {| gs_created := created (stats st);
     gs_reused := reused (stats st);
     gs_errors := errors (stats st);
     poolSize := Z.of_nat (length (pool st));
     activeConnections := Z.of_nat (length (active st));
     waitingRequests := Z.of_nat (length (waiting st)) |}.

(** [getConnection] is suspended at [await Uploader(Solana).withWallet]
    when it builds a connection, and other calls of the pool run in the
    meantime.  The call is therefore also given in its two parts: up to
    that [await], and from the answer of [withWallet] on. *)
Inductive Begun :=
| Reused (c : Conn)
| Building
| Queued.

Definition beginConnection (me : Waiter) (st : State) : Begun * State :=
  match pop (pool st) with
  | Some (rest, c) =>
      (Reused c,
       {| pool := rest; active := active st ++ [c]; waiting := waiting st;
          maxConnections := maxConnections st;
          stats := {| created := created (stats st);
                      reused := reused (stats st) + 1;
                      errors := errors (stats st) |} |})
  | None =>
      if Z.of_nat (length (active st)) <? maxConnections st then
        (Building, st)
      else
        (Queued,
         {| pool := pool st; active := active st;
            waiting := waiting st ++ [me];
            maxConnections := maxConnections st; stats := stats st |})
  end.

Definition finishConnection (fresh : Err + Conn) (st : State)
    : Acquire * State :=
  match fresh with
  | inr c =>
      (Got c,
       {| pool := pool st; active := active st ++ [c];
          waiting := waiting st; maxConnections := maxConnections st;
          stats := {| created := created (stats st) + 1;
                      reused := reused (stats st);
                      errors := errors (stats st) |} |})
  | inl e =>
      (Failed e,
       {| pool := pool st; active := active st; waiting := waiting st;
          maxConnections := maxConnections st;
          stats := {| created := created (stats st);
                      reused := reused (stats st);
                      errors := errors (stats st) + 1 |} |})
  end.

(** What happens to a pool that several requests share, one event at a
    time: an acquisition runs up to its [await], the [withWallet] of an
    acquisition that is building answers, or a connection is released. *)
Inductive Event :=
| Begin (me : Waiter)
| Finish (fresh : Err + Conn)
| Release (connection : Conn).

(** The pool together with the number of acquisitions that are building. *)
Definition Shared : Type := State * nat.

Definition step (s : Shared) (e : Event) : Shared :=
  match e with
  | Begin me =>
      let r := beginConnection me s.1 in
      (r.2, match r.1 with Building => S s.2 | _ => s.2 end)
  | Finish fresh => ((finishConnection fresh s.1).2, Nat.pred s.2)
  | Release connection => ((releaseConnection connection s.1).1, s.2)
  end.

Definition run (events : list Event) (s : Shared) : Shared :=
  foldl step s events.

Definition fresh_pool (n : Z) : Shared := (create n, 0%nat).

(** The sequence can happen: [withWallet] answers only an acquisition
    that is building, and every release gives back a connection that is
    in use at that moment. *)
Fixpoint possible (events : list Event) (s : Shared) : bool :=
  match events with
  | [] => true
  | e :: rest =>
      match e with
      | Begin _ => true
      | Finish _ => bool_decide (s.2 ≠ 0%nat)
      | Release c => bool_decide (c ∈ active s.1)
      end && possible rest (step s e)
  end.

(** No acquisition goes to build a connection while another one is
    building. *)
Fixpoint builds_apart (events : list Event) (s : Shared) : bool :=
  match events with
  | [] => true
  | e :: rest =>
      match e with
      | Begin me =>
          match (beginConnection me s.1).1 with
          | Building => bool_decide (s.2 = 0%nat)
          | _ => true
          end
      | _ => true
      end && builds_apart rest (step s e)
  end.

(** The connections the pool knows of are those it created. *)
Definition pool_inv (n : Z) (st : State) : Prop :=
  maxConnections st = n
  ∧ Z.of_nat (length (pool st)) + Z.of_nat (length (active st))
    = created (stats st).

End UltraFastConnectionPool.

(** The module-level pool of [api-production-final.js]. *)
Module SimplePool.

Definition maxConnections : Z := 10.

(** [sleeping] are the acquirers inside the 100 ms timer of
    [getConnection], in the order they went to sleep; each calls
    [getConnection] again when its timer fires. *)
Record State := {
  connectionPool : list Conn;
  activeConnections : Z;
  sleeping : list Waiter
}.

Definition create : State :=
  {| connectionPool := []; activeConnections := 0; sleeping := [] |}.

Definition getConnection (fresh : Err + Conn) (me : Waiter) (st : State)
    : Acquire * State :=
  match pop (connectionPool st) with
  | Some (rest, c) =>
      (Got c, {| connectionPool := rest;
                 activeConnections := activeConnections st;
                 sleeping := sleeping st |})
  | None =>
      if activeConnections st <? maxConnections then
        let st' := {| connectionPool := connectionPool st;
                      activeConnections := activeConnections st + 1;
                      sleeping := sleeping st |} in
        match fresh with
        | inr c => (Got c, st')
        | inl e => (Failed e, st')
        end
      else
        (Suspended,
         {| connectionPool := connectionPool st;
            activeConnections := activeConnections st;
            sleeping := sleeping st ++ [me] |})
  end.

(** The timer of a sleeping acquirer fires: it leaves [sleeping] and tries
    again. *)
Definition retry (fresh : Err + Conn) (me : Waiter) (st : State)
    : Acquire * State :=
  getConnection fresh me
    {| connectionPool := connectionPool st;
       activeConnections := activeConnections st;
       sleeping := List.filter (λ w, negb (bool_decide (w = me))) (sleeping st) |}.

(** Nobody is woken: the pool has no queue to serve. *)
Definition releaseConnection (connection : Conn) (st : State)
    : State * option (Waiter * Conn) :=
  ({| connectionPool := connectionPool st ++ [connection];
      activeConnections := activeConnections st;
      sleeping := sleeping st |},
   None).

End SimplePool.

(** What the three pools have in common, to state one property of all. *)
Record PoolOps := {
  pool_state : Type;
  idle : pool_state → list Conn;
  suspended : pool_state → list Waiter;
  acquire : (Err + Conn) → Waiter → pool_state → Acquire * pool_state;
  release : Conn → pool_state → pool_state * option (Waiter * Conn)
}.

Definition connection_pool : PoolOps :=
  {| pool_state := ConnectionPool.State;
     idle := ConnectionPool.pool;
     suspended := ConnectionPool.waitingQueue;
     acquire := ConnectionPool.getConnection;
     release := ConnectionPool.releaseConnection |}.

Definition ultra_fast_pool : PoolOps :=
  {| pool_state := UltraFastConnectionPool.State;
     idle := UltraFastConnectionPool.pool;
     suspended := UltraFastConnectionPool.waiting;
     acquire := UltraFastConnectionPool.getConnection;
     release := UltraFastConnectionPool.releaseConnection |}.

Definition simple_pool : PoolOps :=
  {| pool_state := SimplePool.State;
     idle := SimplePool.connectionPool;
     suspended := SimplePool.sleeping;
     acquire := SimplePool.getConnection;
     release := SimplePool.releaseConnection |}.

(** A release with an acquirer suspended wakes the one at the head of the
    queue, that one only, gives it the very handle that is released and
    leaves the idle set as it was; a release with nobody suspended puts the
    handle on the idle set. *)
Definition release_hands_over (P : PoolOps) : Prop :=
  ∀ (h : Conn) (st : pool_state P),
    match suspended P st with
    | w :: rest =>
        (release P h st).2 = Some (w, h) ∧
        suspended P (release P h st).1 = rest ∧
        idle P (release P h st).1 = idle P st
    | [] =>
        (release P h st).2 = None ∧
        suspended P (release P h st).1 = [] ∧
        idle P (release P h st).1 = idle P st ++ [h]
    end.

(** An acquirer that has to wait joins the queue at its tail, and no other
    acquisition touches the queue. *)
Definition suspends_at_tail (P : PoolOps) : Prop :=
  ∀ fresh (me : Waiter) (st : pool_state P),
    suspended P (acquire P fresh me st).2 =
      match (acquire P fresh me st).1 with
      | Suspended => suspended P st ++ [me]
      | _ => suspended P st
      end.

(** [n] acquisitions in a row, each given a new connection when it asks for
    one; the handles and the acquirers are numbered from [base]. *)
Fixpoint acquire_many (P : PoolOps) (n base : nat) (st : pool_state P)
    : pool_state P :=
  match n with
  | O => st
  | S k => acquire_many P k (S base) (acquire P (inr base) base st).2
  end.

(** ** Files, paths and the remote network *)

(** What a file holds: bytes the services never look into, or a metadata
    document written by [JSON.stringify]. *)
Inductive Data :=
| Bytes (label : string)
| Document (m : Metadata).

Record File := { size : Z; data : Data }.

(** Node's [path] functions on the paths the services build: POSIX
    separators, no trailing slash. *)
Module Path.

Fixpoint has_slash (s : string) : bool :=
  match s with
  | EmptyString => false
  | String c r => Ascii.eqb c "/" || has_slash r
  end.

Fixpoint basename (p : string) : string :=
  match p with
  | EmptyString => EmptyString
  | String c r =>
      if has_slash r then basename r
      else if Ascii.eqb c "/" then r else p
  end.

(** The suffix that starts at the last dot. *)
Fixpoint from_last_dot (s : string) : option string :=
  match s with
  | EmptyString => None
  | String c r =>
      match from_last_dot r with
      | Some e => Some e
      | None => if Ascii.eqb c "." then Some s else None
      end
  end.

(** A dot that opens the base name starts no extension. *)
Definition extname (p : string) : string :=
  match basename p with
  | EmptyString => EmptyString
  | String c r =>
      if String.eqb (String c r) ".." then EmptyString
      else default EmptyString (from_last_dot r)
  end.

Definition lower (c : ascii) : ascii :=
  let n := N_of_ascii c in
  if (65 <=? n)%N && (n <=? 90)%N then ascii_of_N (n + 32) else c.

Fixpoint toLowerCase (s : string) : string :=
  match s with
  | EmptyString => EmptyString
  | String c r => String (lower c) (toLowerCase r)
  end.

(** [path.join (dir, name)] for a directory already in normal form. *)
Definition join (dir name : string) : string := dir +:+ "/" +:+ name.

End Path.

(** The answer of the network to one [uploader.upload (data, { tags })]. *)
Inductive Reply :=
| Receipt (id : string)
| Rejected (msg : string)
| NoAnswer.          (* it settles after every deadline, if at all *)

Record UploadCall := { sent : Data; sent_tags : list Tag }.

(** The part of the world every service touches: the disk, the clock, the
    duration any measured span comes out as, the network (its answers by the
    rank of the call, and the calls made so far) and the wallet service
    (the answer [Uploader(Solana).withWallet] has for the request of a given
    rank, should that request ask for a new connection). *)
Record Sys := {
  disk : gmap string File;
  now : Z;
  took : Z;
  replies : nat → Reply;
  calls : list UploadCall;
  wallet : nat → Err + Conn;
  wallet_calls : nat
}.

Definition with_disk (d : gmap string File) (s : Sys) : Sys :=
  {| disk := d; now := now s; took := took s; replies := replies s;
     calls := calls s; wallet := wallet s; wallet_calls := wallet_calls s |}.

Definition with_call (c : UploadCall) (s : Sys) : Sys :=
  {| disk := disk s; now := now s; took := took s; replies := replies s;
     calls := calls s ++ [c]; wallet := wallet s;
     wallet_calls := wallet_calls s |}.

Definition with_wallet_call (s : Sys) : Sys :=
  {| disk := disk s; now := now s; took := took s; replies := replies s;
     calls := calls s; wallet := wallet s;
     wallet_calls := S (wallet_calls s) |}.

(** A process state that contains a [Sys]. *)
Class HasSys (W : Type) := {
  get_sys : W → Sys;
  set_sys : Sys → W → W
}.

(** ** Asynchronous code as state-passing functions *)

Definition M (W A : Type) : Type := W → Outcome A * W.

Definition ret {W A} (a : A) : M W A := λ w, (Returned a, w).

Definition throw {W A} (e : Err) : M W A := λ w, (Threw e, w).

Definition bind {W A B} (m : M W A) (k : A → M W B) : M W B :=
  λ w, match m w with
       | (Returned a, w') => k a w'
       | (Threw e, w') => (Threw e, w')
       | (Unsettled, w') => (Unsettled, w')
       end.

Notation "'await' x ':=' m 'in' k" := (bind m (λ x, k))
  (at level 10, x name, m at level 100, k at level 200).

(** [try { m } catch (error) { h error }] *)
Definition try_catch {W A} (m : M W A) (h : Err → M W A) : M W A :=
  λ w, match m w with
       | (Threw e, w') => h e w'
       | r => r
       end.

(** [try { m } finally { f }], for a [finally] block that cannot throw.  A
    body that never settles never reaches it. *)
Definition try_finally {W A} (m : M W A) (f : W → W) : M W A :=
  λ w, match m w with
       | (Unsettled, w') => (Unsettled, w')
       | (r, w') => (r, f w')
       end.

Definition update {W} (f : W → W) : M W unit := λ w, (Returned tt, f w).

Section sys_operations.
Context {W : Type} `{HasSys W}.

Definition read {A} (f : Sys → A) : M W A := λ w, (Returned (f (get_sys w)), w).

(** [fs.existsSync] *)
Definition existsSync (path : string) (w : W) : bool :=
  bool_decide (is_Some (disk (get_sys w) !! path)).

(** [fs.writeFileSync (path, JSON.stringify (metadata, null, 2))];
    [json_size] is the length of that text. *)
Definition writeDocument (json_size : Metadata → Z) (path : string)
    (m : Metadata) : M W unit :=
  update (λ w, set_sys (with_disk
    (<[path := {| size := json_size m; data := Document m |}]>
       (disk (get_sys w))) (get_sys w)) w).

(** [fs.unlinkSync] of a file that is there. *)
Definition unlink (path : string) (w : W) : W :=
  set_sys (with_disk (delete path (disk (get_sys w))) (get_sys w)) w.

(** [if (path && fs.existsSync (path)) fs.unlinkSync (path)] *)
Definition unlink_if_exists (path : string) (w : W) : W :=
  if existsSync path w then unlink path w else w.

(** [Uploader(Solana).withWallet (key)] *)
Definition withWallet : M W Conn :=
  λ w, let s := get_sys w in
       let w' := set_sys (with_wallet_call s) w in
       match wallet s (wallet_calls s) with
       | inr c => (Returned c, w')
       | inl e => (Threw e, w')
       end.

(** [await uploader.upload (data, { tags })], raced against a timer when
    [timed]. *)
Definition upload (timed : bool) (d : Data) (tags : list Tag) : M W string :=
  λ w, let s := get_sys w in
       let w' := set_sys (with_call {| sent := d; sent_tags := tags |} s) w in
       match replies s (length (calls s)) with
       | Receipt id => (Returned id, w')
       | Rejected msg => (Threw (RemoteError msg), w')
       | NoAnswer => if timed then (Threw UploadTimeout, w') else (Unsettled, w')
       end.

End sys_operations.

Definition gateway (id : string) : string := "https://gateway.irys.xyz/" +:+ id.

Definition tag (n v : string) : Tag := {| tag_name := n; tag_value := v |}.

(** [fs.readFileSync] *)
Definition readFileSync {W} `{HasSys W} (path : string) : M W Data :=
  λ w, match disk (get_sys w) !! path with
       | Some f => (Returned (data f), w)
       | None => (Threw (FileNotFound path), w)
       end.

(** A static registry written as an object literal. *)
Fixpoint registry_get {A} (key : string) (l : list (string * A)) : option A :=
  match l with
  | [] => None
  | (k, v) :: r => if String.eqb key k then Some v else registry_get key r
  end.

(** ** The plain token creators *)

(** Both keep one lazily created uploader in a module variable. *)
Record PlainWorld := {
  plain_sys : Sys;
  cachedUploader : option Conn
}.

#[export] Instance plain_has_sys : HasSys PlainWorld :=
  {| get_sys := plain_sys;
     set_sys := λ s w, {| plain_sys := s; cachedUploader := cachedUploader w |} |}.

(** [getOptimizedUploader] and [getUploader] are the same function. *)
Definition getCachedUploader : M PlainWorld Conn :=
  λ w, match cachedUploader w with
       | Some c => (Returned c, w)
       | None =>
           (await c := withWallet in
            await _ := update (λ w', {| plain_sys := plain_sys w';
                                        cachedUploader := Some c |}) in
            ret c) w
       end.

(** The optimized uploader and the token uploader built on it. *)
Module TokenUploader.

Record UploadResult := {
  transactionId : string;
  publicURL : string;
  fileName : string;
  fileSize : Z;
  uploadTime : Z
}.

Record TokenResult := {
  logoURL : string;
  metadataURL : string;
  logoTxId : string;
  metadataTxId : string;
  totalTime : Z
}.

Definition validateFile (filePath : string) : M PlainWorld Z :=
  λ w, match disk (get_sys w) !! filePath with
       | None => (Threw (FileNotFound filePath), w)
       | Some f =>
           if 10 * 1024 * 1024 <? size f
           then (Threw (TooLarge (size f) (10 * 1024 * 1024)), w)
           else (Returned (size f), w)
       end.

Definition contentTypeMap : list (string * string) :=
  [ (".jpg", "image/jpeg"); (".jpeg", "image/jpeg"); (".png", "image/png");
    (".gif", "image/gif"); (".json", "application/json");
    (".txt", "text/plain") ].

Definition getContentType (ext : string) : string :=
  default "application/octet-stream" (registry_get ext contentTypeMap).

Definition fastUpload (filePath : string) (customTags : list Tag)
    : M PlainWorld UploadResult :=
  try_catch
    (await fileSize := validateFile filePath in
     await uploader := getCachedUploader in
     await fileData := readFileSync filePath in
     let fileName := Path.basename filePath in
     let ext := Path.toLowerCase (Path.extname filePath) in
     let tags := [ tag "Content-Type" (getContentType ext);
                   tag "File-Name" fileName ] ++ customTags in
     await id := upload false fileData tags in
     await uploadTime := read took in
     ret {| transactionId := id; publicURL := gateway id;
            fileName := fileName; fileSize := fileSize;
            uploadTime := uploadTime |})
    (λ error, throw error).

Definition metadataPath : string := "./temp_metadata.json".

Definition initial_metadata (tokenData : TokenData) : Metadata :=
  {| md_name := td_name tokenData; md_symbol := td_symbol tokenData;
     md_description := td_description tokenData;
     md_image := "";
     md_external_url := or_empty (website tokenData);
     md_attributes := or_nil (attributes tokenData);
     md_files := [ {| uri := ""; ftype := "image/png" |} ];
     md_category := "image";
     md_creators := or_nil (creators tokenData);
     md_file_size := None; md_size_compliant := None;
     md_upload_details := None |}.

(** [metadata.image = url; metadata.properties.files[0].uri = url] *)
Definition set_logo (url : string) (m : Metadata) : Metadata :=
  {| md_name := md_name m; md_symbol := md_symbol m;
     md_description := md_description m;
     md_image := url;
     md_external_url := md_external_url m;
     md_attributes := md_attributes m;
     md_files :=
       match md_files m with
       | f :: rest => {| uri := url; ftype := ftype f |} :: rest
       | [] => []
       end;
     md_category := md_category m;
     md_creators := md_creators m;
     md_file_size := md_file_size m;
     md_size_compliant := md_size_compliant m;
     md_upload_details := md_upload_details m |}.

Definition uploadTokenAssets (json_size : Metadata → Z)
    (tokenData : TokenData) : M PlainWorld TokenResult :=
  try_catch
    (let metadata := initial_metadata tokenData in
     await _ := writeDocument json_size metadataPath metadata in
     await logoResult := fastUpload (logoPath tokenData)
       [ tag "Asset-Type" "token-logo";
         tag "Token-Symbol" (td_symbol tokenData);
         tag "Token-Name" (td_name tokenData) ] in
     let metadata := set_logo (publicURL logoResult) metadata in
     await _ := writeDocument json_size metadataPath metadata in
     await metadataResult := fastUpload metadataPath
       [ tag "Asset-Type" "token-metadata";
         tag "Token-Symbol" (td_symbol tokenData);
         tag "Token-Name" (td_name tokenData) ] in
     await _ := update (unlink metadataPath) in
     await totalTime := read took in
     ret {| logoURL := publicURL logoResult;
            metadataURL := publicURL metadataResult;
            logoTxId := transactionId logoResult;
            metadataTxId := transactionId metadataResult;
            totalTime := totalTime |})
    (λ error, throw error).

(** An element of the array that [uploadMultipleTokens] returns:
    [{ success: true, ...result, tokenData }] or
    [{ success: false, error, tokenData }]. *)
Inductive TokenOutcome :=
| TokenCreated (result : TokenResult) (tokenData : TokenData)
| TokenFailed (error : Err) (tokenData : TokenData).

(** The tokens are created one after the other; a failure is recorded in
    the array and the loop goes on. *)
Fixpoint uploadMultipleTokens (json_size : Metadata → Z)
    (tokensData : list TokenData) : M PlainWorld (list TokenOutcome) :=
  match tokensData with
  | [] => ret []
  | tokenData :: rest =>
      await outcome :=
        try_catch
          (await result := uploadTokenAssets json_size tokenData in
           ret (TokenCreated result tokenData))
          (λ error, ret (TokenFailed error tokenData)) in
      await outcomes := uploadMultipleTokens json_size rest in
      ret (outcome :: outcomes)
  end.

End TokenUploader.

(** The token uploader with type detection ([enhanced-token-uploader.js]),
    built on the same [fastUpload]. *)
Module EnhancedTokenUploader.

Record FileType := { mime : string; type : string }.

Definition ft (m : string) : FileType := {| mime := m; type := m |}.

Definition FILE_TYPES : list (string * FileType) :=
  [ (".jpg", ft "image/jpeg"); (".jpeg", ft "image/jpeg");
    (".png", ft "image/png"); (".gif", ft "image/gif");
    (".webp", ft "image/webp"); (".svg", ft "image/svg+xml");
    (".bmp", ft "image/bmp"); (".tiff", ft "image/tiff");
    (".avif", ft "image/avif"); (".ico", ft "image/x-icon");
    (".mp4", ft "video/mp4"); (".mov", ft "video/quicktime");
    (".webm", ft "video/webm"); (".avi", ft "video/x-msvideo");
    (".mkv", ft "video/x-matroska");
    (".mp3", ft "audio/mpeg"); (".wav", ft "audio/wav");
    (".flac", ft "audio/flac"); (".ogg", ft "audio/ogg");
    (".pdf", ft "application/pdf"); (".json", ft "application/json");
    (".txt", ft "text/plain"); (".csv", ft "text/csv") ].

Definition getFileType (filePath : string) : FileType :=
  default (ft "application/octet-stream")
    (registry_get (Path.toLowerCase (Path.extname filePath)) FILE_TYPES).

(** The chain of [startsWith] tests on the mime type. *)
Definition category_of (m : string) : string :=
  if String.prefix "image/" m then "image"
  else if String.prefix "video/" m then "video"
  else if String.prefix "audio/" m then "audio"
  else "file".

Record TokenResult := {
  logoURL : string;
  metadataURL : string;
  logoTxId : string;
  metadataTxId : string;
  logoType : string;
  tr_category : string;
  totalTime : Z
}.

Definition initial_metadata (tokenData : TokenData) (logoFileType : FileType)
    : Metadata :=
  {| md_name := td_name tokenData; md_symbol := td_symbol tokenData;
     md_description := td_description tokenData;
     md_image := "";
     md_external_url := or_empty (website tokenData);
     md_attributes := or_nil (attributes tokenData);
     md_files := [ {| uri := ""; ftype := type logoFileType |} ];
     md_category := category_of (mime logoFileType);
     md_creators := or_nil (creators tokenData);
     md_file_size := None; md_size_compliant := None;
     md_upload_details := None |}.

Definition uploadTokenAssets (json_size : Metadata → Z)
    (tokenData : TokenData) : M PlainWorld TokenResult :=
  try_catch
    (let logoFileType := getFileType (logoPath tokenData) in
     let metadata := initial_metadata tokenData logoFileType in
     await _ := writeDocument json_size TokenUploader.metadataPath metadata in
     await logoResult := TokenUploader.fastUpload (logoPath tokenData)
       [ tag "Asset-Type" "token-logo";
         tag "Token-Symbol" (td_symbol tokenData);
         tag "Token-Name" (td_name tokenData);
         tag "File-Type" (type logoFileType) ] in
     let metadata :=
       TokenUploader.set_logo (TokenUploader.publicURL logoResult) metadata in
     await _ := writeDocument json_size TokenUploader.metadataPath metadata in
     await metadataResult := TokenUploader.fastUpload TokenUploader.metadataPath
       [ tag "Asset-Type" "token-metadata";
         tag "Token-Symbol" (td_symbol tokenData);
         tag "Token-Name" (td_name tokenData);
         tag "Logo-Type" (type logoFileType) ] in
     await _ := update (unlink TokenUploader.metadataPath) in
     await totalTime := read took in
     ret {| logoURL := TokenUploader.publicURL logoResult;
            metadataURL := TokenUploader.publicURL metadataResult;
            logoTxId := TokenUploader.transactionId logoResult;
            metadataTxId := TokenUploader.transactionId metadataResult;
            logoType := type logoFileType;
            tr_category := md_category metadata;
            totalTime := totalTime |})
    (λ error, throw error).

End EnhancedTokenUploader.

(** The token creator with size restrictions. *)
Module TokenCreator.

(** The limits read from the environment ([parseInt (...) || default]),
    and the two text functions the code applies: the length of
    [JSON.stringify (metadata, null, 2)] and the text of
    [(n / 1024 / 1024).toFixed (1) + "MB"]. *)
Record Config := {
  MAX_UPLOAD_SIZE : Z;
  MAX_IMAGE_SIZE : Z;
  MAX_VIDEO_SIZE : Z;
  MAX_AUDIO_SIZE : Z;
  json_size : Metadata → Z;
  megabytes : Z → string
}.

Record FileType := { mime : string; type : string; category : string }.

Definition ft (m c : string) : FileType :=
  {| mime := m; type := m; category := c |}.

Definition FILE_TYPES : list (string * FileType) :=
  [ (".jpg", ft "image/jpeg" "image"); (".jpeg", ft "image/jpeg" "image");
    (".png", ft "image/png" "image"); (".gif", ft "image/gif" "image");
    (".webp", ft "image/webp" "image");
    (".svg", ft "image/svg+xml" "image"); (".bmp", ft "image/bmp" "image");
    (".mp4", ft "video/mp4" "video");
    (".mov", ft "video/quicktime" "video");
    (".webm", ft "video/webm" "video");
    (".mp3", ft "audio/mpeg" "audio"); (".wav", ft "audio/wav" "audio");
    (".flac", ft "audio/flac" "audio");
    (".json", ft "application/json" "document") ].

Record FileInfo := {
  fi_size : Z;
  fi_type : FileType;
  fi_category : string;
  maxAllowed : Z
}.

(** The [switch] on the category. *)
Definition maxAllowedSize (cfg : Config) (cat : string) : Z :=
  if String.eqb cat "image" then Z.min (MAX_IMAGE_SIZE cfg) (MAX_UPLOAD_SIZE cfg)
  else if String.eqb cat "video" then Z.min (MAX_VIDEO_SIZE cfg) (MAX_UPLOAD_SIZE cfg)
  else if String.eqb cat "audio" then Z.min (MAX_AUDIO_SIZE cfg) (MAX_UPLOAD_SIZE cfg)
  else MAX_UPLOAD_SIZE cfg.

Definition validateAndDetectFile (cfg : Config) (files : gmap string File)
    (filePath : string) : Err + FileInfo :=
  match files !! filePath with
  | None => inl (FileNotFound filePath)
  | Some f =>
      let ext := Path.toLowerCase (Path.extname filePath) in
      match registry_get ext FILE_TYPES with
      | None => inl (UnsupportedType ext)
      | Some fileType =>
          let limit := maxAllowedSize cfg (category fileType) in
          if limit <? size f then inl (TooLarge (size f) limit)
          else inr {| fi_size := size f; fi_type := fileType;
                      fi_category := category fileType;
                      maxAllowed := limit |}
      end
  end.

(** The ceiling configured for a category; documents and anything else
    have none of their own and fall under the global maximum. *)
Definition category_ceiling (cfg : Config) (cat : string) : Z :=
  if String.eqb cat "image" then MAX_IMAGE_SIZE cfg
  else if String.eqb cat "video" then MAX_VIDEO_SIZE cfg
  else if String.eqb cat "audio" then MAX_AUDIO_SIZE cfg
  else MAX_UPLOAD_SIZE cfg.

(** The size policy as the specification words it: under the limit a
    file passes, at the limit or above it is too large. *)
Definition inclusive_size_policy (cfg : Config) : Prop :=
  ∀ (files : gmap string File) (filePath : string) (f : File) (fileType : FileType),
    files !! filePath = Some f →
    registry_get (Path.toLowerCase (Path.extname filePath)) FILE_TYPES
      = Some fileType →
    0 < size f →
    let limit := Z.min (category_ceiling cfg (category fileType))
                       (MAX_UPLOAD_SIZE cfg) in
    (size f < limit → ∃ i, validateAndDetectFile cfg files filePath = inr i)
    ∧ (limit ≤ size f →
       validateAndDetectFile cfg files filePath = inl (TooLarge (size f) limit)).

Definition validate (cfg : Config) (filePath : string) : M PlainWorld FileInfo :=
  λ w, match validateAndDetectFile cfg (disk (get_sys w)) filePath with
       | inl e => (Threw e, w)
       | inr i => (Returned i, w)
       end.

Record UploadResult := {
  transactionId : string;
  publicURL : string;
  fileName : string;
  fileSize : Z;
  contentType : string;
  up_category : string;
  uploadTime : Z;
  sizeCompliant : bool
}.

Definition uploadFile (cfg : Config) (filePath : string)
    (customTags : list Tag) : M PlainWorld UploadResult :=
  try_catch
    (await fileInfo := validate cfg filePath in
     await uploader := getCachedUploader in
     await fileData := readFileSync filePath in
     let fileName := Path.basename filePath in
     await t := read now in
     let tags :=
       [ tag "Content-Type" (mime (fi_type fileInfo));
         tag "File-Name" fileName;
         tag "File-Size" (pretty (fi_size fileInfo));
         tag "File-Category" (fi_category fileInfo);
         tag "Max-Size-Policy" (megabytes cfg (maxAllowed fileInfo));
         tag "Upload-Time" (JSDate.toISOString t) ] ++ customTags in
     await id := upload true fileData tags in
     await uploadTime := read took in
     ret {| transactionId := id; publicURL := gateway id;
            fileName := fileName; fileSize := fi_size fileInfo;
            contentType := type (fi_type fileInfo);
            up_category := fi_category fileInfo;
            uploadTime := uploadTime; sizeCompliant := true |})
    (λ error, throw error).

Record TokenResult := {
  logoURL : string;
  metadataURL : string;
  logoTxId : string;
  metadataTxId : string;
  logoType : string;
  logoSize : Z;
  tr_category : string;
  maxSizeAllowed : string;
  totalTime : Z
}.

(** [{ success: true, ... }] or [{ success: false, error, ... }]. *)
Inductive CreateResult :=
| Created (r : TokenResult)
| NotCreated (error : Err).

Definition initial_metadata (tokenData : TokenData) (logoInfo : FileInfo)
    : Metadata :=
  {| md_name := td_name tokenData; md_symbol := td_symbol tokenData;
     md_description := td_description tokenData;
     md_image := "";
     md_external_url := or_empty (website tokenData);
     md_attributes := or_nil (attributes tokenData);
     md_files := [ {| uri := ""; ftype := type (fi_type logoInfo) |} ];
     md_category := fi_category logoInfo;
     md_creators := or_nil (creators tokenData);
     md_file_size := Some (fi_size logoInfo);
     md_size_compliant := Some true;
     md_upload_details := None |}.

(** [`./temp_metadata_${Date.now ()}.json`] *)
Definition metadataPath (t : Z) : string :=
  "./temp_metadata_" +:+ pretty t +:+ ".json".

Definition createTokenAssets (cfg : Config) (tokenData : TokenData)
    : M PlainWorld CreateResult :=
  try_catch
    (await logoInfo := validate cfg (logoPath tokenData) in
     let metadata := initial_metadata tokenData logoInfo in
     await logoResult := uploadFile cfg (logoPath tokenData)
       [ tag "Asset-Type" "token-logo";
         tag "Token-Symbol" (td_symbol tokenData);
         tag "Token-Name" (td_name tokenData);
         tag "Size-Validated" "true" ] in
     let metadata := TokenUploader.set_logo (publicURL logoResult) metadata in
     await t := read now in
     await _ := writeDocument (json_size cfg) (metadataPath t) metadata in
     await metadataResult := uploadFile cfg (metadataPath t)
       [ tag "Asset-Type" "token-metadata";
         tag "Token-Symbol" (td_symbol tokenData);
         tag "Logo-Size" (pretty (fi_size logoInfo)) ] in
     await _ := update (unlink (metadataPath t)) in
     await totalTime := read took in
     ret (Created
       {| logoURL := publicURL logoResult;
          metadataURL := publicURL metadataResult;
          logoTxId := transactionId logoResult;
          metadataTxId := transactionId metadataResult;
          logoType := type (fi_type logoInfo);
          logoSize := fi_size logoInfo;
          tr_category := fi_category logoInfo;
          maxSizeAllowed := megabytes cfg (maxAllowed logoInfo);
          totalTime := totalTime |}))
    (λ error, ret (NotCreated error)).

End TokenCreator.

(** ** The multi-user service *)

Module MultiUserService.

(** [CONFIG.USE_SQLITE] is [process.env.USE_SQLITE === 'true' || true],
    that is [true]: the user manager is always the SQLite [UserManager]. *)
Record Config := {
  MAX_UPLOAD_SIZE : Z;
  MAX_CONCURRENT_UPLOADS : Z;
  json_size : Metadata → Z
}.

Record FileType := { mime : string; category : string }.

Definition FILE_TYPES : list (string * FileType) :=
  [ (".jpg", {| mime := "image/jpeg"; category := "image" |});
    (".jpeg", {| mime := "image/jpeg"; category := "image" |});
    (".png", {| mime := "image/png"; category := "image" |});
    (".gif", {| mime := "image/gif"; category := "image" |});
    (".webp", {| mime := "image/webp"; category := "image" |});
    (".mp4", {| mime := "video/mp4"; category := "video" |});
    (".mp3", {| mime := "audio/mpeg"; category := "audio" |});
    (".json", {| mime := "application/json"; category := "document" |}) ].

Record World := {
  mu_sys : Sys;
  db : UserManager.DB;
  connectionPool : ConnectionPool.State
}.

#[export] Instance has_sys : HasSys World :=
  {| get_sys := mu_sys;
     set_sys := λ s w, {| mu_sys := s; db := db w;
                          connectionPool := connectionPool w |} |}.

(** A fresh process: an empty ledger and [new ConnectionPool
    (CONFIG.MAX_CONCURRENT_UPLOADS)]. *)
Definition start (cfg : Config) (s : Sys) : World :=
  {| mu_sys := s; db := UserManager.empty;
     connectionPool := ConnectionPool.create (MAX_CONCURRENT_UPLOADS cfg) |}.

(** A call of the user manager, at the time the clock shows. *)
Definition query {A} (f : Z → UserManager.DB → A * UserManager.DB) : M World A :=
  λ w, let r := f (now (mu_sys w)) (db w) in
       (Returned r.1, {| mu_sys := mu_sys w; db := r.2;
                         connectionPool := connectionPool w |}).

(** [await connectionPool.getConnection ()] in the run of one request.  An
    acquirer that is queued is resolved by the [releaseConnection] of
    another request, with the handle released; no other request runs here,
    so the outcome of a queued acquirer is [Unsettled], and what holds of a
    request the pool serves at once is stated under that premise. *)
Definition getConnection : M World Conn :=
  λ w, let s := mu_sys w in
       let r := ConnectionPool.getConnection (wallet s (wallet_calls s))
                  (wallet_calls s) (connectionPool w) in
       let w' := {| mu_sys := with_wallet_call s; db := db w;
                    connectionPool := r.2 |} in
       match r.1 with
       | Got c => (Returned c, w')
       | Failed e => (Threw e, w')
       | Suspended => (Unsettled, w')
       end.

Definition releaseConnection (uploader : Conn) (w : World) : World :=
  {| mu_sys := mu_sys w; db := db w;
     connectionPool := (ConnectionPool.releaseConnection uploader (connectionPool w)).1 |}.

(** Step 3 of [uploadFileWithUserTracking]. *)
Definition validate (cfg : Config) (filePath : string) : M World (File * FileType) :=
  λ w, match disk (mu_sys w) !! filePath with
       | None => (Threw (FileNotFound filePath), w)
       | Some f =>
           let ext := Path.toLowerCase (Path.extname filePath) in
           match registry_get ext FILE_TYPES with
           | None => (Threw (UnsupportedType ext), w)
           | Some fileType =>
               if MAX_UPLOAD_SIZE cfg <? size f
               then (Threw (TooLarge (size f) (MAX_UPLOAD_SIZE cfg)), w)
               else (Returned (f, fileType), w)
           end
       end.

Record UploadResult := {
  transactionId : string;
  publicURL : string;
  fileName : string;
  fileSize : Z;
  contentType : string;
  uploadTime : Z;
  userId : string;
  sessionId : string;
  rateLimitRemaining : Z
}.

(** [sessionId] is the value drawn by [crypto.randomUUID ()].  The [catch]
    block reads [uploadSessionId], which is declared by a [let] inside the
    [try] block and so is out of scope there: with [CONFIG.USE_SQLITE]
    true the read is reached and raises a reference error, which is what
    the caller gets for every failure. *)
Definition uploadFileWithUserTracking (cfg : Config) (sessionId : string)
    (filePath : string) (customTags : list Tag) (userId ipAddress : string)
    : M World UploadResult :=
  try_catch
    (await _ := query (UserManager.createOrGetUser userId None) in
     await rateCheck := query (UserManager.checkRateLimit userId ipAddress 60000 60) in
     if negb (UserManager.allowed rateCheck) then throw RateLimitExceeded else
     await checked := validate cfg filePath in
     let stats := checked.1 in
     let fileType := checked.2 in
     await uploadSessionId :=
       query (UserManager.startUpload userId sessionId (Path.basename filePath)) in
     await uploader := getConnection in
     try_finally
       (await fileData := readFileSync filePath in
        let fileName := Path.basename filePath in
        await t := read now in
        let tags :=
          [ tag "Content-Type" (mime fileType);
            tag "File-Name" fileName;
            tag "File-Size" (pretty (size stats));
            tag "User-ID" userId;
            tag "Session-ID" sessionId;
            tag "Upload-Time" (pretty t) ] ++ customTags in
        await id := upload true fileData tags in
        await uploadTime := read took in
        let uploadData :=
          {| UserManager.transactionId := id;
             UserManager.publicURL := gateway id;
             UserManager.fileName := fileName;
             UserManager.fileSize := size stats;
             UserManager.contentType := mime fileType;
             UserManager.uploadTime := uploadTime |} in
        await _ := query (UserManager.recordUpload userId uploadData) in
        await _ := query (λ _ d, (tt, UserManager.completeUpload uploadSessionId "completed" d)) in
        ret {| transactionId := id; publicURL := gateway id;
               fileName := fileName; fileSize := size stats;
               contentType := mime fileType; uploadTime := uploadTime;
               userId := userId; sessionId := sessionId;
               rateLimitRemaining := UserManager.remaining rateCheck - 1 |})
       (releaseConnection uploader))
    (λ error, throw (ReferenceError "uploadSessionId")).

Record TokenResult := {
  logoURL : string;
  metadataURL : string;
  logoTxId : string;
  metadataTxId : string;
  logoType : string;
  tr_userId : string;
  tr_sessionId : string
}.

Definition token_metadata (tokenData : TokenData) (logoURL : string)
    (logoInfo : FileType) : Metadata :=
  {| md_name := td_name tokenData; md_symbol := td_symbol tokenData;
     md_description := td_description tokenData;
     md_image := logoURL;
     md_external_url := or_empty (website tokenData);
     md_attributes := or_nil (attributes tokenData);
     md_files := [ {| uri := logoURL; ftype := mime logoInfo |} ];
     md_category := category logoInfo;
     md_creators := or_nil (creators tokenData);
     md_file_size := None; md_size_compliant := None;
     md_upload_details := None |}.

(** [path.join ('./temp', `metadata_${userId}_${Date.now ()}.json`)] *)
Definition metadataPath (userId : string) (t : Z) : string :=
  Path.join "temp" ("metadata_" +:+ userId +:+ "_" +:+ pretty t +:+ ".json").

(** The custom tags of the two uploads. *)
Definition logo_tags (tokenData : TokenData) : list Tag :=
  [ tag "Asset-Type" "token-logo";
    tag "Token-Symbol" (td_symbol tokenData);
    tag "Token-Name" (td_name tokenData) ].

Definition metadata_tags (tokenData : TokenData) : list Tag :=
  [ tag "Asset-Type" "token-metadata";
    tag "Token-Symbol" (td_symbol tokenData);
    tag "Token-Name" (td_name tokenData) ].

(** [session1] and [session2] are the ids drawn for the two uploads.  The
    variable [metadataPath] is [null] until it is assigned, so the
    [finally] block has work to do only for exits after that point: the
    inner [try_finally] starts there. *)
Definition createTokenAssetsMultiUser (cfg : Config)
    (session1 session2 : string) (tokenData : TokenData)
    (userId ipAddress : string) : M World TokenResult :=
  try_catch
    (await t0 := read now in
     let sessionId := "token_" +:+ userId +:+ "_" +:+ pretty t0 in
     await logoResult := uploadFileWithUserTracking cfg session1
       (logoPath tokenData) (logo_tags tokenData) userId ipAddress in
     match registry_get (Path.toLowerCase (Path.extname (logoPath tokenData)))
             FILE_TYPES with
     | None => throw (TypeError "Cannot read properties of undefined (reading 'mime')")
     | Some logoInfo =>
         let metadata := token_metadata tokenData (publicURL logoResult) logoInfo in
         await t := read now in
         let path := metadataPath userId t in
         try_finally
           (await _ := writeDocument (json_size cfg) path metadata in
            await metadataResult := uploadFileWithUserTracking cfg session2
              path (metadata_tags tokenData) userId ipAddress in
            ret {| logoURL := publicURL logoResult;
                   metadataURL := publicURL metadataResult;
                   logoTxId := transactionId logoResult;
                   metadataTxId := transactionId metadataResult;
                   logoType := mime logoInfo;
                   tr_userId := userId; tr_sessionId := sessionId |})
           (unlink_if_exists path)
     end)
    (λ error, throw error).

(** The second upload of [createTokenAssetsMultiUser], as the function
    issues it once the logo upload has returned [logoResult]: the metadata
    document is written to its path, then uploaded from there. *)
Definition metadataUpload (cfg : Config) (session2 : string)
    (tokenData : TokenData) (userId ipAddress : string)
    (logoResult : UploadResult) (logoInfo : FileType) : M World UploadResult :=
  await t := read now in
  let path := metadataPath userId t in
  await _ := writeDocument (json_size cfg) path
    (token_metadata tokenData (publicURL logoResult) logoInfo) in
  uploadFileWithUserTracking cfg session2 path (metadata_tags tokenData)
    userId ipAddress.

End MultiUserService.

(** ** The production service *)

Module IrysUploadService.

Record Config := {
  MAX_UPLOAD_SIZE : Z;
  CONNECTION_POOL_SIZE : Z;
  RATE_LIMIT_PER_MINUTE : Z;
  RATE_LIMIT_WINDOW : Z;
  TEMP_DIR : string;
  json_size : Metadata → Z
}.

Record FileType := { mime : string; category : string; maxSize : Z }.

Definition SUPPORTED_TYPES (cfg : Config) : list (string * FileType) :=
  let max := MAX_UPLOAD_SIZE cfg in
  let entry m c n := {| mime := m; category := c; maxSize := n |} in
  [ (".jpg", entry "image/jpeg" "image" max);
    (".jpeg", entry "image/jpeg" "image" max);
    (".png", entry "image/png" "image" max);
    (".gif", entry "image/gif" "image" max);
    (".webp", entry "image/webp" "image" max);
    (".svg", entry "image/svg+xml" "image" max);
    (".avif", entry "image/avif" "image" max);
    (".mp4", entry "video/mp4" "video" (max * 5));
    (".mov", entry "video/quicktime" "video" (max * 5));
    (".webm", entry "video/webm" "video" (max * 5));
    (".mp3", entry "audio/mpeg" "audio" (max * 3));
    (".wav", entry "audio/wav" "audio" (max * 3));
    (".flac", entry "audio/flac" "audio" (max * 3));
    (".pdf", entry "application/pdf" "document" max);
    (".json", entry "application/json" "document" max) ].

Record FileInfo := { fi_size : Z; fi_type : FileType; fi_fileName : string }.

Definition validateFile (cfg : Config) (files : gmap string File)
    (filePath : string) : Err + FileInfo :=
  match files !! filePath with
  | None => inl (FileNotFound filePath)
  | Some f =>
      let ext := Path.toLowerCase (Path.extname filePath) in
      match registry_get ext (SUPPORTED_TYPES cfg) with
      | None => inl (UnsupportedType ext)
      | Some fileType =>
          if maxSize fileType <? size f
          then inl (TooLarge (size f) (maxSize fileType))
          else if size f =? 0 then inl EmptyFile
          else inr {| fi_size := size f; fi_type := fileType;
                      fi_fileName := Path.basename filePath |}
      end
  end.

(** By how much the registry multiplies the global maximum. *)
Definition size_factor (cat : string) : Z :=
  if String.eqb cat "video" then 5
  else if String.eqb cat "audio" then 3
  else 1.

Record World := {
  pr_sys : Sys;
  db : ProductionDatabase.DB;
  connectionPool : UltraFastConnectionPool.State
}.

#[export] Instance has_sys : HasSys World :=
  {| get_sys := pr_sys;
     set_sys := λ s w, {| pr_sys := s; db := db w;
                          connectionPool := connectionPool w |} |}.

(** [new IrysUploadService ()] on a fresh database. *)
Definition start (cfg : Config) (s : Sys) : World :=
  {| pr_sys := s; db := ProductionDatabase.empty;
     connectionPool := UltraFastConnectionPool.create (CONNECTION_POOL_SIZE cfg) |}.

Definition validate (cfg : Config) (filePath : string) : M World FileInfo :=
  λ w, match validateFile cfg (disk (pr_sys w)) filePath with
       | inl e => (Threw e, w)
       | inr i => (Returned i, w)
       end.

(** A call of the database that always resolves. *)
Definition query {A} (f : Z → ProductionDatabase.DB → A * ProductionDatabase.DB)
    : M World A :=
  λ w, let r := f (now (pr_sys w)) (db w) in
       (Returned r.1, {| pr_sys := pr_sys w; db := r.2;
                         connectionPool := connectionPool w |}).

(** [await this.connectionPool.getConnection ()] in the run of one request:
    no other call of the pool runs while the connection is built, and a
    queued acquirer, which only the [releaseConnection] of another request
    resolves, ends as [Unsettled]. *)
Definition getConnection : M World Conn :=
  λ w, let s := pr_sys w in
       let r := UltraFastConnectionPool.getConnection
                  (wallet s (wallet_calls s)) (wallet_calls s)
                  (connectionPool w) in
       let w' := {| pr_sys := with_wallet_call s; db := db w;
                    connectionPool := r.2 |} in
       match r.1 with
       | Got c => (Returned c, w')
       | Failed e => (Threw e, w')
       | Suspended => (Unsettled, w')
       end.

Definition releaseConnection (connection : Conn) (w : World) : World :=
  {| pr_sys := pr_sys w; db := db w;
     connectionPool :=
       (UltraFastConnectionPool.releaseConnection connection (connectionPool w)).1 |}.

(** [connection] is [null] until the pool has answered, so the [finally]
    block releases only on exits after that point.  [sessionId] is never
    empty when the service calls this function itself. *)
Definition uploadFile (cfg : Config) (filePath walletAddress : string)
    (customTags : list Tag) (sessionId : string)
    : M World ProductionDatabase.UploadData :=
  try_catch
    (await fileInfo := validate cfg filePath in
     await connection := getConnection in
     try_finally
       (await fileData := readFileSync filePath in
        await t := read now in
        let tags :=
          [ tag "Content-Type" (mime (fi_type fileInfo));
            tag "File-Name" (fi_fileName fileInfo);
            tag "File-Size" (pretty (fi_size fileInfo));
            tag "Category" (category (fi_type fileInfo));
            tag "Wallet-Address" walletAddress;
            tag "Upload-Time" (pretty t) ] ++ customTags in
        await id := upload true fileData tags in
        await uploadTime := read took in
        ret {| ProductionDatabase.transactionId := id;
               ProductionDatabase.publicURL := gateway id;
               ProductionDatabase.fileName := fi_fileName fileInfo;
               ProductionDatabase.fileSize := fi_size fileInfo;
               ProductionDatabase.contentType := mime (fi_type fileInfo);
               ProductionDatabase.category := category (fi_type fileInfo);
               ProductionDatabase.uploadTime := uploadTime;
               ProductionDatabase.sessionId := sessionId |})
       (releaseConnection connection))
    (λ error, throw error).

Definition token_metadata (tokenData : TokenData) (walletAddress sessionId : string)
    (t : Z) (logoResult : ProductionDatabase.UploadData) (logoInfo : FileInfo)
    : Metadata :=
  {| md_name := td_name tokenData; md_symbol := td_symbol tokenData;
     md_description := td_description tokenData;
     md_image := ProductionDatabase.publicURL logoResult;
     md_external_url := or_empty (website tokenData);
     md_attributes := or_nil (attributes tokenData);
     md_files := [ {| uri := ProductionDatabase.publicURL logoResult;
                      ftype := mime (fi_type logoInfo) |} ];
     md_category := category (fi_type logoInfo);
     md_creators := or_nil (creators tokenData);
     md_file_size := None; md_size_compliant := None;
     md_upload_details :=
       Some {| ud_wallet_address := walletAddress;
               ud_session_id := sessionId;
               ud_logo_transaction_id := ProductionDatabase.transactionId logoResult;
               ud_created_at := JSDate.toISOString t;
               ud_file_size := fi_size logoInfo;
               ud_content_type := mime (fi_type logoInfo) |} |}.

(** [await Promise.all ([a, b, c])] on the three database calls of
    [createTokenAssets]: all three are made at once.  [a] and [b] are
    [recordUpload]s, which issue their statement inside [db.serialize];
    [c] is [recordTokenAsset], which does not.  The statement of [a]
    starts at once; that of [c], not serialized, runs alongside it and is
    taken to be written when the callback of [a] is called; that of [b]
    waits until nothing else is running.  The caller gets the first
    rejection if there is one.  A callback that throws (the outcome
    [Unsettled] of a database call) is caught by nothing: the exception
    ends the process, a statement still waiting does not run, and a
    caller that had no answer by then never gets one. *)
Definition all3 (a b c : Z → ProductionDatabase.DB → Outcome Z * ProductionDatabase.DB)
    : M World unit :=
  λ w, let t := now (pr_sys w) in
       let left_with d := {| pr_sys := pr_sys w; db := d;
                             connectionPool := connectionPool w |} in
       let ra := a t (db w) in
       let rc := c t ra.2 in
       match ra.1, rc.1 with
       | Unsettled, _ => (Unsettled, left_with rc.2)
       | Threw e, Unsettled => (Threw e, left_with rc.2)
       | Returned _, Unsettled => (Unsettled, left_with rc.2)
       | oa, oc =>
           let rb := b t rc.2 in
           (match oa, oc, rb.1 with
            | Threw e, _, _ => Threw e
            | _, Threw e, _ => Threw e
            | _, _, Threw e => Threw e
            | Returned _, Returned _, Returned _ => Returned tt
            | _, _, _ => Unsettled
            end, left_with rb.2)
       end.

Record TokenResult := {
  logoURL : string;
  metadataURL : string;
  logoTxId : string;
  metadataTxId : string;
  logoType : string;
  tr_category : string;
  tr_metadata : Metadata;
  tr_walletAddress : string;
  tr_sessionId : string;
  totalTime : Z;
  logoUploadTime : Z;
  metadataUploadTime : Z
}.

(** [`token_${walletAddress.slice (0, 8)}_${Date.now ()}`] *)
Definition session_of (walletAddress : string) (t : Z) : string :=
  "token_" +:+ String.substring 0 8 walletAddress +:+ "_" +:+ pretty t.

Definition metadataPath (cfg : Config) (sessionId : string) : string :=
  Path.join (TEMP_DIR cfg) ("metadata_" +:+ sessionId +:+ ".json").

Definition createTokenAssets (cfg : Config) (tokenData : TokenData)
    (walletAddress ipAddress : string) : M World TokenResult :=
  await t0 := read now in
  let sessionId := session_of walletAddress t0 in
  try_catch
    (await rateCheck := query (ProductionDatabase.checkRateLimit
       (RATE_LIMIT_WINDOW cfg) (RATE_LIMIT_PER_MINUTE cfg) walletAddress ipAddress) in
     if negb (ProductionDatabase.allowed rateCheck) then throw RateLimitExceeded else
     await _ := query (ProductionDatabase.createOrUpdateUser walletAddress) in
     await logoInfo := validate cfg (logoPath tokenData) in
     await logoResult := uploadFile cfg (logoPath tokenData) walletAddress
       [ tag "Asset-Type" "token-logo";
         tag "Token-Symbol" (td_symbol tokenData);
         tag "Token-Name" (td_name tokenData) ] sessionId in
     await t := read now in
     let metadata := token_metadata tokenData walletAddress sessionId t
                       logoResult logoInfo in
     let path := metadataPath cfg sessionId in
     try_finally
       (await _ := writeDocument (json_size cfg) path metadata in
        await metadataResult := uploadFile cfg path walletAddress
          [ tag "Asset-Type" "token-metadata";
            tag "Token-Symbol" (td_symbol tokenData);
            tag "Token-Name" (td_name tokenData);
            tag "Logo-Type" (mime (fi_type logoInfo)) ] sessionId in
        await _ := all3
          (ProductionDatabase.recordUpload walletAddress logoResult None None)
          (ProductionDatabase.recordUpload walletAddress metadataResult
             (Some metadata) None)
          (ProductionDatabase.recordTokenAsset walletAddress
             {| ProductionDatabase.name := td_name tokenData;
                ProductionDatabase.symbol := td_symbol tokenData;
                ProductionDatabase.metadata := metadata |}
             logoResult metadataResult sessionId) in
        await totalTime := read took in
        ret {| logoURL := ProductionDatabase.publicURL logoResult;
               metadataURL := ProductionDatabase.publicURL metadataResult;
               logoTxId := ProductionDatabase.transactionId logoResult;
               metadataTxId := ProductionDatabase.transactionId metadataResult;
               logoType := mime (fi_type logoInfo);
               tr_category := category (fi_type logoInfo);
               tr_metadata := metadata;
               tr_walletAddress := walletAddress;
               tr_sessionId := sessionId;
               totalTime := totalTime;
               logoUploadTime := ProductionDatabase.uploadTime logoResult;
               metadataUploadTime := ProductionDatabase.uploadTime metadataResult |})
       (unlink_if_exists path))
    (λ error, throw error).

(** [createTokenAssets] up to the upload of the logo, that upload
    included: what it has in hand when the logo upload has returned. *)
Definition logoUpload (cfg : Config) (tokenData : TokenData)
    (walletAddress ipAddress : string)
    : M World (FileInfo * ProductionDatabase.UploadData) :=
  await t0 := read now in
  let sessionId := session_of walletAddress t0 in
  await rateCheck := query (ProductionDatabase.checkRateLimit
    (RATE_LIMIT_WINDOW cfg) (RATE_LIMIT_PER_MINUTE cfg) walletAddress ipAddress) in
  if negb (ProductionDatabase.allowed rateCheck) then throw RateLimitExceeded else
  await _ := query (ProductionDatabase.createOrUpdateUser walletAddress) in
  await logoInfo := validate cfg (logoPath tokenData) in
  await logoResult := uploadFile cfg (logoPath tokenData) walletAddress
    [ tag "Asset-Type" "token-logo";
      tag "Token-Symbol" (td_symbol tokenData);
      tag "Token-Name" (td_name tokenData) ] sessionId in
  ret (logoInfo, logoResult).

(** The second upload of [createTokenAssets], as the function issues it
    once the logo upload has returned [logoResult]: the metadata document
    is written to its path, then uploaded from there. *)
Definition metadataUpload (cfg : Config) (tokenData : TokenData)
    (walletAddress sessionId : string) (logoInfo : FileInfo)
    (logoResult : ProductionDatabase.UploadData)
    : M World ProductionDatabase.UploadData :=
  await t := read now in
  let path := metadataPath cfg sessionId in
  await _ := writeDocument (json_size cfg) path
    (token_metadata tokenData walletAddress sessionId t logoResult logoInfo) in
  uploadFile cfg path walletAddress
    [ tag "Asset-Type" "token-metadata";
      tag "Token-Symbol" (td_symbol tokenData);
      tag "Token-Name" (td_name tokenData);
      tag "Logo-Type" (mime (fi_type logoInfo)) ] sessionId.

(** [this.db.db.run ('DELETE FROM rate_limits WHERE request_time < ?;',
    [cutoffTime])], the text bound being the ISO rendering of the instant
    ten windows ago. *)
Definition cleanupOldRateLimits (cfg : Config) (w : World) : World :=
  let cutoffTime :=
    JSDate.toISOString (now (pr_sys w) - RATE_LIMIT_WINDOW cfg * 10) in
  {| pr_sys := pr_sys w;
     db := {| ProductionDatabase.users := ProductionDatabase.users (db w);
              ProductionDatabase.uploads := ProductionDatabase.uploads (db w);
              ProductionDatabase.token_assets :=
                ProductionDatabase.token_assets (db w);
              ProductionDatabase.rate_limits :=
                List.filter
                  (λ r, negb (Sqlite.text_lt
                                (ProductionDatabase.request_time r) cutoffTime))
                  (ProductionDatabase.rate_limits (db w)) |};
     connectionPool := connectionPool w |}.

End IrysUploadService.

(** ** The upload function of [api-production-final.js] *)

Module ProductionApi.

Record World := {
  api_sys : Sys;
  pool : SimplePool.State
}.

#[export] Instance has_sys : HasSys World :=
  {| get_sys := api_sys;
     set_sys := λ s w, {| api_sys := s; pool := pool w |} |}.

Definition start (s : Sys) : World :=
  {| api_sys := s; pool := SimplePool.create |}.

(** The object literal of [getContentType]. *)
Definition types : list (string * string) :=
  [ (".jpg", "image/jpeg"); (".jpeg", "image/jpeg"); (".png", "image/png");
    (".gif", "image/gif"); (".webp", "image/webp"); (".svg", "image/svg+xml");
    (".mp4", "video/mp4"); (".mp3", "audio/mpeg"); (".pdf", "application/pdf");
    (".json", "application/json") ].

Definition getContentType (filePath : string) : string :=
  default "application/octet-stream"
    (registry_get (Path.toLowerCase (Path.extname filePath)) types).

(** The extensions the [fileFilter] of the upload middleware lets in. *)
Definition allowed : list string :=
  [ ".jpg"; ".jpeg"; ".png"; ".gif"; ".webp"; ".svg"; ".mp4"; ".mp3";
    ".pdf"; ".json" ].

Definition fileFilter (originalname : string) : bool :=
  existsb (String.eqb (Path.toLowerCase (Path.extname originalname))) allowed.

(** [await getConnection ()] in the run of one request.  An acquirer that
    finds the pool exhausted sleeps 100 ms and asks again
    ([SimplePool.retry]), and returns once another request has released a
    connection; no other request runs here, so every retry finds the pool
    as it was and the outcome is [Unsettled].  What holds of a request that
    need not wait is stated under that premise. *)
Definition getConnection : M World Conn :=
  λ w, let s := api_sys w in
       let r := SimplePool.getConnection (wallet s (wallet_calls s))
                  (wallet_calls s) (pool w) in
       let w' := {| api_sys := with_wallet_call s; pool := r.2 |} in
       match r.1 with
       | Got c => (Returned c, w')
       | Failed e => (Threw e, w')
       | Suspended => (Unsettled, w')
       end.

Definition releaseConnection (connection : Conn) (w : World) : World :=
  {| api_sys := api_sys w;
     pool := (SimplePool.releaseConnection connection (pool w)).1 |}.


Record UploadResult := {
  transactionId : string;
  publicURL : string;
  fileName : string;
  fileSize : Z;
  contentType : string;
  uploadTime : Z
}.


End ProductionApi.

(** ** Sample inputs *)

(** The limits the services fall back to when the environment sets none. *)
Definition default_limits : TokenCreator.Config :=
  {| TokenCreator.MAX_UPLOAD_SIZE := 2097152;
     TokenCreator.MAX_IMAGE_SIZE := 2097152;
     TokenCreator.MAX_VIDEO_SIZE := 10485760;
     TokenCreator.MAX_AUDIO_SIZE := 5242880;
     TokenCreator.json_size := λ _, 512;
     TokenCreator.megabytes := λ n, pretty (n / 1048576) +:+ ".0MB" |}.

Definition multi_user_defaults : MultiUserService.Config :=
  {| MultiUserService.MAX_UPLOAD_SIZE := 2097152;
     MultiUserService.MAX_CONCURRENT_UPLOADS := 10;
     MultiUserService.json_size := λ _, 512 |}.

Definition production_defaults : IrysUploadService.Config :=
  {| IrysUploadService.MAX_UPLOAD_SIZE := 2097152;
     IrysUploadService.CONNECTION_POOL_SIZE := 10;
     IrysUploadService.RATE_LIMIT_PER_MINUTE := 100;
     IrysUploadService.RATE_LIMIT_WINDOW := 60000;
     IrysUploadService.TEMP_DIR := "/srv/irys/temp";
     IrysUploadService.json_size := λ _, 512 |}.

Definition one_file (path : string) (n : Z) : gmap string File :=
  {[ path := {| size := n; data := Bytes path |} ]}.

Definition sample_token (logo : string) : TokenData :=
  {| td_name := "Token"; td_symbol := "TK"; td_description := "a token";
     logoPath := logo; website := None; attributes := None;
     creators := None |}.

(** A machine holding the given files, whose network answers the call of
    rank [n] with [answers n] and whose wallet service always answers. *)
Definition machine (files : gmap string File) (answers : nat → Reply) : Sys :=
  {| disk := files; now := 1735732800000; took := 850;
     replies := answers; calls := [];
     wallet := λ n, inr n; wallet_calls := 0 |}.

Definition always_receipt (n : nat) : Reply := Receipt ("tx-" +:+ pretty n).

(** A receipt for the first upload, a rejection for every later one. *)
Definition second_rejected (n : nat) : Reply :=
  match n with
  | O => Receipt "tx-logo"
  | S _ => Rejected "gateway down"
  end.

Definition plain (s : Sys) : PlainWorld :=
  {| plain_sys := s; cachedUploader := None |}.

(** The types declared by the metadata documents that went to the network. *)
Definition documents_sent (s : Sys) : list (list string) :=
  omap (λ c, match sent c with
             | Document m => Some (ftype <$> md_files m)
             | Bytes _ => None
             end) (calls s).

Definition sample_upload (tx : string) (n : Z) : JSONUserManager.UploadData :=
  {| JSONUserManager.transactionId := tx;
     JSONUserManager.fileName := "logo.png";
     JSONUserManager.fileSize := n;
     JSONUserManager.contentType := "image/png";
     JSONUserManager.publicURL := gateway tx;
     JSONUserManager.uploadTime := 12 |}.

(** Records first, creates afterwards. *)
Definition record_before_create : list JSONUserManager.Op :=
  [ JSONUserManager.RecordUpload "w1" (sample_upload "tx1" 1000) "u-1" 1735732800000;
    JSONUserManager.CreateOrGetUser "w1" None 1735732801000 ].

Definition create_before_record : list JSONUserManager.Op :=
  [ JSONUserManager.CreateOrGetUser "w1" None 1735732800000;
    JSONUserManager.RecordUpload "w1" (sample_upload "tx1" 1000) "u-1" 1735732801000;
    JSONUserManager.CheckRateLimit "w1" "10.0.0.1" 60000 60 1735732802000;
    JSONUserManager.GetRecentUploads "w1" 10;
    JSONUserManager.RecordUpload "w1" (sample_upload "tx2" 24) "u-2" 1735732803000 ].

(** Identity "w1" is created and records seven uploads, a second apart. *)
Definition seven_recorded : list JSONUserManager.Op :=
  JSONUserManager.CreateOrGetUser "w1" None 1735732800000 ::
  ((λ k, JSONUserManager.RecordUpload "w1"
           (sample_upload ("tx" +:+ pretty k) 1000) ("u-" +:+ pretty k)
           (1735732800000 + 1000 * Z.of_nat k)) <$> seq 1 7).

Definition logo_upload : UserManager.UploadData :=
  {| UserManager.transactionId := "tx1";
     UserManager.fileName := "logo.png";
     UserManager.fileSize := 1000;
     UserManager.contentType := "image/png";
     UserManager.publicURL := gateway "tx1";
     UserManager.uploadTime := 12 |}.

Definition receipt_of (tx name : string) : ProductionDatabase.UploadData :=
  {| ProductionDatabase.transactionId := tx;
     ProductionDatabase.publicURL := gateway tx;
     ProductionDatabase.fileName := name;
     ProductionDatabase.fileSize := 1000;
     ProductionDatabase.contentType := "image/png";
     ProductionDatabase.category := "image";
     ProductionDatabase.uploadTime := 12;
     ProductionDatabase.sessionId := "token_w1_1" |}.

Definition blank_metadata : Metadata :=
  {| md_name := "T"; md_symbol := "TK"; md_description := "d";
     md_image := gateway "tx-logo"; md_external_url := "";
     md_attributes := [];
     md_files := [ {| uri := gateway "tx-logo"; ftype := "image/png" |} ];
     md_category := "image"; md_creators := [];
     md_file_size := None; md_size_compliant := None;
     md_upload_details := None |}.

(** The pool of [api-production-final.js] after ten connections were
    created and an eleventh acquirer went to sleep. *)
Definition simple_pool_with_sleeper : SimplePool.State :=
  (SimplePool.getConnection (inr 10%nat) 10%nat
     (acquire_many simple_pool 10 0 SimplePool.create)).2.

(** A network that rejects every upload. *)
Definition always_rejected (n : nat) : Reply := Rejected "gateway down".

(** A session on the SQLite ledger: "w1" is created, uploads twice with an
    active upload opened and closed around the first, and "w2" opens an
    upload it never closes. *)
Definition sqlite_session : list UserManager.Op :=
  [ UserManager.CreateOrGetUser "w1" None 1735732800000;
    UserManager.CheckRateLimit "w1" "10.0.0.1" 60000 60 1735732800000;
    UserManager.StartUpload "w1" "session-1" "logo.png" 1735732800000;
    UserManager.RecordUpload "w1" logo_upload 1735732801000;
    UserManager.CompleteUpload 1 "completed";
    UserManager.CreateOrGetUser "w2" None 1735732802000;
    UserManager.StartUpload "w2" "session-2" "clip.mp4" 1735732802000;
    UserManager.RecordUpload "w1" logo_upload 1735732803000 ].

(** The production ledger of a wallet with two uploads and one token. *)
Definition dashboard_sample : ProductionDatabase.DB :=
  let db0 := (ProductionDatabase.createOrUpdateUser "w1" 1735732800000
                ProductionDatabase.empty).2 in
  let db1 := (ProductionDatabase.recordUpload "w1"
                (receipt_of "tx-logo" "logo.png") None None 1735732801000 db0).2 in
  let db2 := (ProductionDatabase.recordUpload "w1"
                (receipt_of "tx-meta" "metadata.json") (Some blank_metadata) None
                1735732802000 db1).2 in
  (ProductionDatabase.recordTokenAsset "w1"
     {| ProductionDatabase.name := "T"; ProductionDatabase.symbol := "TK";
        ProductionDatabase.metadata := blank_metadata |}
     (receipt_of "tx-logo" "logo.png") (receipt_of "tx-meta" "metadata.json")
     "token_w1_1" 1735732803000 db2).2.

(** The production service a moment after wallet "w1" was admitted by the
    rate check. *)
Definition world_after_rate_check : IrysUploadService.World :=
  let w := IrysUploadService.start production_defaults
             (machine ∅ always_receipt) in
  {| IrysUploadService.pr_sys := IrysUploadService.pr_sys w;
     IrysUploadService.db :=
       (ProductionDatabase.checkRateLimit 60000 100 "w1" "10.0.0.1"
          1735732800000 (IrysUploadService.db w)).2;
     IrysUploadService.connectionPool := IrysUploadService.connectionPool w |}.

(** Three acquirers, one after the other, on a pool of two connections:
    the third waits until the first releases, then both handles are given
    back, taken by two later requests and given back again. *)
Definition pool_session : list UltraFastConnectionPool.Event :=
  [ UltraFastConnectionPool.Begin 0%nat;
    UltraFastConnectionPool.Finish (inr 0%nat);
    UltraFastConnectionPool.Begin 1%nat;
    UltraFastConnectionPool.Finish (inr 1%nat);
    UltraFastConnectionPool.Begin 2%nat;
    UltraFastConnectionPool.Release 0%nat;
    UltraFastConnectionPool.Release 1%nat;
    UltraFastConnectionPool.Release 0%nat;
    UltraFastConnectionPool.Begin 3%nat;
    UltraFastConnectionPool.Begin 4%nat;
    UltraFastConnectionPool.Release 0%nat;
    UltraFastConnectionPool.Release 1%nat ].

(** Two requests arrive together: the second asks for a connection while
    the first is still building its own. *)
Definition overlapping_builds : list UltraFastConnectionPool.Event :=
  [ UltraFastConnectionPool.Begin 0%nat;
    UltraFastConnectionPool.Begin 1%nat;
    UltraFastConnectionPool.Finish (inr 0%nat);
    UltraFastConnectionPool.Finish (inr 1%nat) ].

(* ================================================================== *)
(** * Properties *)

Section json_ledger.
Import JSONUserManager.

Lemma total_size_app (l : list UploadRecord) (r : UploadRecord) :
  total_size (l ++ [r]) = total_size l + rec_fileSize r.
Proof.
  unfold total_size. induction l as [|x l IH]; simpl; [lia|].
  rewrite IH. lia.
Qed.

End json_ledger.

Section json_ledger_invariant.
Import JSONUserManager.

Lemma ledger_inv_empty : ledger_inv ∅ empty.
Proof.
  split; [|split].
  - intros i u H. simpl in H. by rewrite lookup_empty in H.
  - intros i H. set_solver.
  - done.
Qed.

Lemma ledger_inv_create seen st id mail now :
  ledger_inv seen st →
  ledger_inv ({[id]} ∪ seen) (createOrGetUser id mail now st).2.
Proof.
  intros (Hc & Hs & Hn). unfold createOrGetUser.
  destruct (users st !! id) as [u|] eqn:Hu; simpl.
  - split; [|split].
    + intros i v Hv. unfold uploads_of in *. simpl in *.
      destruct (decide (i = id)) as [->|Hne].
      * rewrite lookup_insert_eq in Hv. injection Hv as <-. simpl.
        by apply Hc.
      * rewrite lookup_insert_ne in Hv by done. by apply Hc.
    + intros i Hi. simpl. destruct (decide (i = id)) as [->|Hne].
      * rewrite lookup_insert_eq. eauto.
      * rewrite lookup_insert_ne by done. apply Hs.
        apply elem_of_union in Hi as [Hi|Hi]; [|done].
        by apply elem_of_singleton in Hi.
    + intros i Hi. unfold uploads_of in *. simpl in *.
      destruct (decide (i = id)) as [->|Hne].
      * by rewrite lookup_insert_eq in Hi.
      * rewrite lookup_insert_ne in Hi by done. by apply Hn.
  - pose proof (Hn id Hu) as Hnone.
    split; [|split].
    + intros i v Hv. unfold uploads_of in *. simpl in *.
      destruct (decide (i = id)) as [->|Hne].
      * rewrite lookup_insert_eq in Hv. injection Hv as <-. simpl.
        by rewrite Hnone.
      * rewrite lookup_insert_ne in Hv by done. by apply Hc.
    + intros i Hi. simpl. destruct (decide (i = id)) as [->|Hne].
      * rewrite lookup_insert_eq. eauto.
      * rewrite lookup_insert_ne by done. apply Hs.
        apply elem_of_union in Hi as [Hi|Hi]; [|done].
        by apply elem_of_singleton in Hi.
    + intros i Hi. unfold uploads_of in *. simpl in *.
      destruct (decide (i = id)) as [->|Hne].
      * by rewrite lookup_insert_eq in Hi.
      * rewrite lookup_insert_ne in Hi by done. by apply Hn.
Qed.

Lemma ledger_inv_record seen st id d uuid now :
  id ∈ seen →
  ledger_inv seen st →
  ledger_inv seen (recordUpload id d uuid now st).2.
Proof.
  intros Hin (Hc & Hs & Hn). unfold recordUpload.
  destruct (Hs id Hin) as [u Hu]. rewrite Hu. simpl.
  destruct (Hc id u Hu) as [Hcnt Hsz]. unfold uploads_of in *.
  split; [|split].
  - intros i v Hv. unfold uploads_of. simpl in *.
    destruct (decide (i = id)) as [->|Hne].
    + rewrite lookup_insert_eq in Hv. injection Hv as <-.
      rewrite lookup_insert_eq. simpl. rewrite length_app, total_size_app.
      simpl. lia.
    + rewrite lookup_insert_ne in Hv by done.
      rewrite lookup_insert_ne by done. by apply Hc.
  - intros i Hi. simpl. destruct (decide (i = id)) as [->|Hne].
    + rewrite lookup_insert_eq. eauto.
    + rewrite lookup_insert_ne by done. by apply Hs.
  - intros i Hi. unfold uploads_of. simpl in *.
    destruct (decide (i = id)) as [->|Hne].
    + by rewrite lookup_insert_eq in Hi.
    + rewrite lookup_insert_ne in Hi by done.
      rewrite lookup_insert_ne by done. by apply Hn.
Qed.

Lemma ledger_inv_rate seen st id ip w m now :
  ledger_inv seen st → ledger_inv seen (checkRateLimit id ip w m now st).2.
Proof.
  intros H. unfold checkRateLimit. by destruct (_ <=? _).
Qed.

Lemma insert_newest_first_measures r l :
  length (insert_newest_first r l) = S (length l)
  ∧ total_size (insert_newest_first r l) = rec_fileSize r + total_size l.
Proof.
  unfold total_size. induction l as [|x l [IHn IHs]]; simpl; [done|].
  destruct (created_after x r); simpl; [|done].
  rewrite IHn, IHs. split; [done|lia].
Qed.

Lemma sort_newest_first_measures l :
  length (sort_newest_first l) = length l
  ∧ total_size (sort_newest_first l) = total_size l.
Proof.
  induction l as [|x l [IHn IHs]]; simpl; [done|].
  destruct (insert_newest_first_measures x (sort_newest_first l)) as [Hn Hs].
  rewrite Hn, Hs, IHn. unfold total_size in *. simpl. by rewrite IHs.
Qed.

Lemma ledger_inv_recent seen st id limit :
  ledger_inv seen st → ledger_inv seen (getRecentUploads id limit st).2.
Proof.
  intros (Hc & Hs & Hn). unfold getRecentUploads.
  destruct (uploads st !! id) as [mine|] eqn:Hm; simpl; [|done].
  destruct (sort_newest_first_measures mine) as [Hlen Hsz].
  split; [|split].
  - intros i v Hv. simpl in Hv. specialize (Hc i v Hv).
    unfold uploads_of in *. simpl.
    destruct (decide (i = id)) as [->|Hne].
    + rewrite lookup_insert_eq. rewrite Hm in Hc. simpl in *.
      by rewrite Hlen, Hsz.
    + by rewrite lookup_insert_ne.
  - exact Hs.
  - intros i Hi. simpl in Hi. specialize (Hn i Hi).
    unfold uploads_of in *. simpl.
    destruct (decide (i = id)) as [->|Hne].
    + rewrite lookup_insert_eq. rewrite Hm in Hn. simpl in *. by subst mine.
    + by rewrite lookup_insert_ne.
Qed.

Lemma ledger_inv_run ops : ∀ seen st,
  ledger_inv seen st → preceded seen ops = true →
  stats_consistent (run ops st).
Proof.
  induction ops as [|o ops IH]; intros seen st Hinv Hp.
  - by destruct Hinv.
  - destruct o as [id mail now|id d uuid now|id ip w m now|id limit|days now];
      simpl in Hp; unfold run; simpl; fold (run ops).
    + eapply IH; [|exact Hp]. by apply ledger_inv_create.
    + apply andb_prop in Hp as [Hin Hp]. apply bool_decide_eq_true in Hin.
      eapply IH; [|exact Hp]. by apply ledger_inv_record.
    + eapply IH; [|exact Hp]. by apply ledger_inv_rate.
    + eapply IH; [|exact Hp]. by apply ledger_inv_recent.
    + eapply IH; [|exact Hp]. exact Hinv.
Qed.

End json_ledger_invariant.

Section json_ledger_statistics.
Import JSONUserManager.

(** C10.  In the JSON ledger, [recordUpload] appends to the identity's
    stored uploads the record made of [uploadData], of the id drawn for it
    and of the time of the call, whether the identity has a user record or
    not, and leaves the uploads of the other identities alone.  For an
    identity with a user record it counts the upload: one more upload,
    [fileSize] more bytes, nothing else of the record changed but the time
    of the last activity.  For an identity without one it changes no user
    record.  Hence, from a fresh ledger, every sequence of calls in which
    each [recordUpload] comes after a [createOrGetUser] of the same
    identity keeps [totalUploads] equal to the number of stored uploads
    and [totalSizeBytes] equal to the sum of their sizes; a sequence that
    records first does not. *)
Theorem json_statistics_need_user_first :
  (∀ id d uuid now st,
     let r := recordUpload id d uuid now st in
     r.1 = {| rec_id := uuid;
              rec_transactionId := transactionId d;
              rec_fileName := fileName d;
              rec_fileSize := fileSize d;
              rec_contentType := contentType d;
              rec_publicURL := publicURL d;
              rec_uploadTime := uploadTime d;
              rec_createdAt := JSDate.toISOString now |}
     ∧ uploads_of r.2 id = uploads_of st id ++ [r.1]
     ∧ (∀ j, j ≠ id → uploads r.2 !! j = uploads st !! j)
     ∧ (∀ j, j ≠ id → users r.2 !! j = users st !! j)
     ∧ rateLimits r.2 = rateLimits st
     ∧ match users st !! id with
       | None => users r.2 = users st
       | Some u =>
           users r.2 !! id
             = Some {| userId := userId u; email := email u;
                       createdAt := createdAt u;
                       lastActivity := JSDate.toISOString now;
                       totalUploads := totalUploads u + 1;
                       totalSizeBytes := totalSizeBytes u + fileSize d;
                       status := status u |}
       end)
  ∧ (∀ ops, preceded ∅ ops = true → stats_consistent (run ops empty))
  ∧ (preceded ∅ record_before_create = false
     ∧ ¬ stats_consistent (run record_before_create empty)).
Proof.
  split; [|split; [|split]].
  - intros id d uuid now st r. subst r. unfold recordUpload, uploads_of.
    cbn [fst snd users uploads rateLimits].
    split; [done|]. split; [by rewrite lookup_insert_eq|].
    split; [by intros j Hj; rewrite lookup_insert_ne|].
    split; [|split; [done|]].
    + intros j Hj. destruct (users st !! id); [|done].
      by rewrite lookup_insert_ne.
    + destruct (users st !! id) as [u|]; [|done].
      by rewrite lookup_insert_eq.
  - intros ops Hp. eapply ledger_inv_run; [apply ledger_inv_empty|done].
  - reflexivity.
  - intros Hc.
    destruct (Hc "w1"
      {| userId := "w1"; email := None;
         createdAt := "2025-01-01T12:00:01.000Z";
         lastActivity := "2025-01-01T12:00:01.000Z";
         totalUploads := 0; totalSizeBytes := 0; status := "active" |})
      as [Hn _]; [by vm_compute|].
    vm_compute in Hn. discriminate.
Qed.

(** A sequence that creates "w1", records twice, checks the rate and sorts:
    the statistics of "w1" agree with its two stored uploads. *)
Lemma json_statistics_need_user_first_witness :
  preceded ∅ create_before_record = true
  ∧ stats_consistent (run create_before_record empty).
Proof.
  split; [reflexivity|].
  apply (proj1 (proj2 json_statistics_need_user_first)). reflexivity.
Defined.

(** The JSON ledger counts what the specification counts. *)
Lemma json_count_is_spec_count (w now : Z) (l : list RateEntry) :
  Z.of_nat (length (List.filter (newer (now - w)) l))
    = spec_window_count w now (timestamp <$> l).
Proof.
  unfold spec_window_count. f_equal. f_equal.
  induction l as [|e l IH]; simpl; [done|].
  unfold newer at 1. destruct (now - w <? timestamp e); simpl; by rewrite IH.
Qed.

(** The rate check of the JSON ledger: the entries of the identity that
    are newer than [now - timeWindowMs] are counted (and kept, the older
    ones being dropped); at the ceiling the call is denied and no entry is
    added, below it exactly one entry is added. *)
Lemma json_checkRateLimit_spec id ip w m now st :
  let live := List.filter (newer (now - w)) (default [] (rateLimits st !! id)) in
  let count := Z.of_nat (length live) in
  let r := checkRateLimit id ip w m now st in
  (m ≤ count →
     r.1 = {| allowed := false; remaining := 0; resetTime := now + w |}
     ∧ rateLimits r.2 !! id = Some live)
  ∧ (count < m →
     r.1 = {| allowed := true; remaining := m - count - 1;
              resetTime := now + w |}
     ∧ rateLimits r.2 !! id
         = Some (live ++ [ {| timestamp := now; ipAddress := ip |} ]))
  ∧ (∀ j, j ≠ id → rateLimits r.2 !! j = rateLimits st !! j)
  ∧ users r.2 = users st ∧ uploads r.2 = uploads st.
Proof.
  intros live count r. subst r. unfold checkRateLimit. fold live. fold count.
  destruct (m <=? count) eqn:Hle; simpl.
  - apply Z.leb_le in Hle. repeat split; try done; try lia.
    + by rewrite lookup_insert_eq.
    + intros j Hj. by rewrite lookup_insert_ne.
  - apply Z.leb_gt in Hle. repeat split; try done; try lia.
    + by rewrite lookup_insert_eq.
    + intros j Hj. by rewrite lookup_insert_ne.
Qed.

End json_ledger_statistics.

Section sqlite_rate_window.

(** Texts that start alike compare as their remainders do. *)
Lemma compare_common_prefix (p a b : string) :
  String.compare (p +:+ a) (p +:+ b) = String.compare a b.
Proof.
  induction p as [|c p IH]; simpl; [done|].
  unfold Ascii.compare. rewrite N.compare_refl. exact IH.
Qed.

(** A row stamped by [CURRENT_TIMESTAMP] on the UTC day of the cutoff never
    compares greater than the cutoff's ISO text: after the ten characters
    of the date the row has a space where the cutoff has a [T]. *)
Lemma sqlite_same_day_not_newer (t c : Z) :
  JSDate.date_part t = JSDate.date_part c →
  Sqlite.text_gt (Sqlite.CURRENT_TIMESTAMP t) (JSDate.toISOString c) = false.
Proof.
  intros Hd.
  unfold Sqlite.text_gt, Sqlite.CURRENT_TIMESTAMP, JSDate.toISOString.
  rewrite Hd, compare_common_prefix. reflexivity.
Qed.

Import UserManager.

(** No row stamped on the UTC day of the cutoff passes the [WHERE] clause. *)
Lemma same_day_rows_not_counted id ip c ts :
  Forall (λ t, JSDate.date_part t = JSDate.date_part c) ts →
  List.filter (counted id (JSDate.toISOString c)) (stamped id ip ts) = [].
Proof.
  induction 1 as [|t ts Ht _ IH]; [done|].
  simpl. unfold counted at 1. simpl.
  rewrite (sqlite_same_day_not_newer _ _ Ht), andb_false_r. exact IH.
Qed.

(** Whatever the number of requests an identity made earlier on the UTC
    day of the cutoff, the SQLite check counts none of them and admits. *)
Lemma sqlite_checkRateLimit_same_day id ip w m now ts db :
  rate_limits db = stamped id ip ts →
  Forall (λ t, JSDate.date_part t = JSDate.date_part (now - w)) ts →
  0 < m →
  (checkRateLimit id ip w m now db).1
    = {| allowed := true; remaining := m - 0 - 1; resetTime := now + w |}.
Proof.
  intros Hrows Hday Hm. unfold checkRateLimit.
  rewrite Hrows, (same_day_rows_not_counted _ _ _ _ Hday).
  change (Z.of_nat (length (@nil rate_row))) with 0.
  destruct (0 <? m) eqn:Hlt; simpl; [reflexivity|].
  apply Z.ltb_ge in Hlt. lia.
Qed.

(** C2, on the SQLite ledger of [user-database.js].  Identity "w1" is
    admitted at 12:00:30 with a ceiling of one request per minute.  Ten
    seconds later its recorded entry is newer than [now - windowMs], the
    count is 1 and the ceiling is reached; the check nevertheless counts
    0, admits the request with [remaining = 0] and records a second
    entry. *)
Theorem sqlite_checkRateLimit_admits_over_ceiling :
  let t0 := 1735732830000 in
  let first := checkRateLimit "w1" "10.0.0.1" 60000 1 t0 UserManager.empty in
  let second := checkRateLimit "w1" "10.0.0.1" 60000 1 (t0 + 10000) first.2 in
  first.1 = {| allowed := true; remaining := 0; resetTime := t0 + 60000 |}
  ∧ rate_limits first.2
      = [ {| rl_user_id := "w1"; request_time := "2025-01-01 12:00:30";
             ip_address := "10.0.0.1" |} ]
  ∧ JSDate.toISOString (t0 + 10000 - 60000) = "2025-01-01T11:59:40.000Z"
  ∧ spec_window_count 60000 (t0 + 10000) [t0] = 1
  ∧ second.1 = {| allowed := true; remaining := 0; resetTime := t0 + 70000 |}
  ∧ rate_limits second.2
      = [ {| rl_user_id := "w1"; request_time := "2025-01-01 12:00:30";
             ip_address := "10.0.0.1" |};
          {| rl_user_id := "w1"; request_time := "2025-01-01 12:00:40";
             ip_address := "10.0.0.1" |} ].
Proof. vm_compute. repeat split. Qed.

(** The ledger of the production service has the same check. *)
Lemma production_checkRateLimit_admits_over_ceiling :
  let t0 := 1735732830000 in
  let first := ProductionDatabase.checkRateLimit 60000 1 "w1" "10.0.0.1" t0
                 ProductionDatabase.empty in
  let second := ProductionDatabase.checkRateLimit 60000 1 "w1" "10.0.0.1"
                  (t0 + 10000) first.2 in
  ProductionDatabase.allowed first.1 = true
  ∧ ProductionDatabase.allowed second.1 = true
  ∧ length (ProductionDatabase.rate_limits second.2) = 2%nat.
Proof. vm_compute. repeat split. Qed.

End sqlite_rate_window.

Section pools.

(** [pop] takes what [push] put last. *)
Lemma pop_snoc {A} (l : list A) (x : A) : pop (l ++ [x]) = Some (l, x).
Proof. unfold pop. by rewrite reverse_snoc, reverse_involutive. Qed.

(** Nothing to take from an empty array. *)
Lemma pop_nil {A} : pop (@nil A) = None.
Proof. reflexivity. Qed.

(** Release in the two pools that keep a queue of acquirers. *)
Lemma connection_pool_hands_over : release_hands_over connection_pool.
Proof.
  intros h st. simpl. unfold ConnectionPool.releaseConnection.
  by destruct (ConnectionPool.waitingQueue st).
Qed.

Lemma ultra_fast_pool_hands_over : release_hands_over ultra_fast_pool.
Proof.
  intros h st. simpl. unfold UltraFastConnectionPool.releaseConnection.
  by destruct (UltraFastConnectionPool.waiting st).
Qed.

(** Suspension in the two pools that keep a queue of acquirers. *)
Lemma connection_pool_fifo : suspends_at_tail connection_pool.
Proof.
  intros fresh me st. simpl. unfold ConnectionPool.getConnection.
  destruct (pop (ConnectionPool.pool st)) as [[rest c]|]; [done|].
  destruct (_ <? _); [by destruct fresh|done].
Qed.

Lemma ultra_fast_pool_fifo : suspends_at_tail ultra_fast_pool.
Proof.
  intros fresh me st. simpl. unfold UltraFastConnectionPool.getConnection.
  destruct (pop (UltraFastConnectionPool.pool st)) as [[rest c]|]; [done|].
  destruct (_ <? _); [by destruct fresh|done].
Qed.

(** C4, as the code has it.  In [ConnectionPool] and in
    [UltraFastConnectionPool] a release with an acquirer suspended wakes
    the acquirer at the head of the waiting queue, that one only, resolves
    its promise with the very handle that is released and leaves the idle
    set untouched; with nobody suspended the handle goes to the idle set;
    and acquirers join the queue at its tail, so the head is the one that
    has waited longest.  The pool of [api-production-final.js] has no
    queue: in every state its release puts the handle on the idle set and
    wakes nobody; an acquirer that finds no idle handle and no room to
    build goes to sleep; and whichever sleeper asks again after a release
    gets the handle that was released, be it the longest-waiting or not. *)
Theorem queued_pools_release_to_longest_waiter :
  release_hands_over connection_pool
  ∧ release_hands_over ultra_fast_pool
  ∧ suspends_at_tail connection_pool
  ∧ suspends_at_tail ultra_fast_pool
  ∧ (∀ h st,
       SimplePool.releaseConnection h st
         = ({| SimplePool.connectionPool := SimplePool.connectionPool st ++ [h];
               SimplePool.activeConnections := SimplePool.activeConnections st;
               SimplePool.sleeping := SimplePool.sleeping st |}, None))
  ∧ (∀ fresh me st,
       SimplePool.connectionPool st = [] →
       SimplePool.maxConnections ≤ SimplePool.activeConnections st →
       SimplePool.getConnection fresh me st
         = (Suspended,
            {| SimplePool.connectionPool := [];
               SimplePool.activeConnections := SimplePool.activeConnections st;
               SimplePool.sleeping := SimplePool.sleeping st ++ [me] |}))
  ∧ (∀ fresh me h st,
       SimplePool.retry fresh me (SimplePool.releaseConnection h st).1
         = (Got h,
            {| SimplePool.connectionPool := SimplePool.connectionPool st;
               SimplePool.activeConnections := SimplePool.activeConnections st;
               SimplePool.sleeping :=
                 List.filter (λ w, negb (bool_decide (w = me)))
                   (SimplePool.sleeping st) |})).
Proof.
  split; [|split; [|split; [|split; [|split; [|split]]]]].
  - apply connection_pool_hands_over.
  - apply ultra_fast_pool_hands_over.
  - apply connection_pool_fifo.
  - apply ultra_fast_pool_fifo.
  - done.
  - intros fresh me st Hp Hfull. unfold SimplePool.getConnection.
    rewrite Hp, pop_nil.
    destruct (_ <? _) eqn:Hlt; [apply Z.ltb_lt in Hlt; lia|done].
  - intros fresh me h st. unfold SimplePool.retry, SimplePool.getConnection.
    cbn [SimplePool.releaseConnection fst SimplePool.connectionPool
         SimplePool.activeConnections SimplePool.sleeping].
    by rewrite pop_snoc.
Qed.

(** C4 fails on the pool of [api-production-final.js]: with acquirer 10
    asleep in [getConnection], releasing handle 3 puts the handle on the
    idle set and wakes nobody. *)
Lemma simple_pool_release_parks_handle :
  SimplePool.sleeping simple_pool_with_sleeper = [10%nat]
  ∧ SimplePool.connectionPool simple_pool_with_sleeper = []
  ∧ SimplePool.releaseConnection 3%nat simple_pool_with_sleeper
      = ({| SimplePool.connectionPool := [3%nat];
            SimplePool.activeConnections := 10;
            SimplePool.sleeping := [10%nat] |}, None)
  ∧ ¬ release_hands_over simple_pool.
Proof.
  split; [reflexivity|split; [reflexivity|split; [reflexivity|]]].
  intros H. specialize (H 3%nat simple_pool_with_sleeper).
  simpl in H. destruct H as [H _]. discriminate H.
Qed.

(** X14.  In [UltraFastConnectionPool] a construction that fails counts
    one error, reaches the caller and changes nothing else: the next
    acquisition constructs again. *)
Lemma ultra_fast_pool_failed_construction e c me me'
    (st : UltraFastConnectionPool.State) :
  UltraFastConnectionPool.pool st = [] →
  Z.of_nat (length (UltraFastConnectionPool.active st))
    < UltraFastConnectionPool.maxConnections st →
  let r := UltraFastConnectionPool.getConnection (inl e) me st in
  r.1 = Failed e
  ∧ UltraFastConnectionPool.errors (UltraFastConnectionPool.stats r.2)
      = UltraFastConnectionPool.errors (UltraFastConnectionPool.stats st) + 1
  ∧ UltraFastConnectionPool.active r.2 = UltraFastConnectionPool.active st
  ∧ UltraFastConnectionPool.pool r.2 = []
  ∧ UltraFastConnectionPool.waiting r.2 = UltraFastConnectionPool.waiting st
  ∧ (UltraFastConnectionPool.getConnection (inr c) me' r.2).1 = Got c.
Proof.
  intros Hp Hlt r. subst r. unfold UltraFastConnectionPool.getConnection.
  rewrite Hp, pop_nil. apply Z.ltb_lt in Hlt. rewrite Hlt. simpl.
  by rewrite Hlt.
Qed.

(** In [ConnectionPool] the counter is raised before the connection is
    built and stays raised when building fails. *)
Lemma connection_pool_failed_construction e me (st : ConnectionPool.State) :
  ConnectionPool.pool st = [] →
  ConnectionPool.activeConnections st < ConnectionPool.maxConnections st →
  let r := ConnectionPool.getConnection (inl e) me st in
  r.1 = Failed e
  ∧ ConnectionPool.activeConnections r.2 = ConnectionPool.activeConnections st + 1
  ∧ ConnectionPool.pool r.2 = [].
Proof.
  intros Hp Hlt r. subst r. unfold ConnectionPool.getConnection.
  rewrite Hp, pop_nil. apply Z.ltb_lt in Hlt. by rewrite Hlt.
Qed.

(** C9, on [ConnectionPool] with room for one connection.  The first
    acquisition fails to build its connection; the slot is then counted as
    taken although no handle exists, and the next acquirer, for whom
    building would succeed, is suspended instead of building. *)
Theorem connection_pool_failed_construction_consumes_slot :
  let st0 := ConnectionPool.create 1 in
  let first := ConnectionPool.getConnection (inl (WalletError "no key")) 0%nat st0 in
  let second := ConnectionPool.getConnection (inr 1%nat) 1%nat first.2 in
  first.1 = Failed (WalletError "no key")
  ∧ ConnectionPool.activeConnections first.2 = 1
  ∧ ConnectionPool.pool first.2 = []
  ∧ second.1 = Suspended
  ∧ ConnectionPool.waitingQueue second.2 = [1%nat].
Proof. vm_compute. repeat split. Qed.

End pools.

Section ledgers.

(** The SQLite ledger of [user-database.js] never refuses a row. *)
Lemma user_manager_recordUpload_appends id d now db :
  ∃ row,
    UserManager.upload_history (UserManager.recordUpload id d now db).2
      = UserManager.upload_history db ++ [row]
    ∧ UserManager.transaction_id row = UserManager.transactionId d.
Proof. eexists. split; reflexivity. Qed.

(** C3, on the SQLite ledger of [user-database.js].  Recording twice under
    the transaction id "tx1" succeeds twice: the second call resolves with
    upload id 2, two rows carry the id and the identity is counted for two
    uploads. *)
Theorem user_manager_recordUpload_accepts_duplicate :
  let db0 := (UserManager.createOrGetUser "w1" None 1735732800000
                UserManager.empty).2 in
  let first := UserManager.recordUpload "w1" logo_upload 1735732801000 db0 in
  let second := UserManager.recordUpload "w1" logo_upload 1735732802000 first.2 in
  first.1 = 1 ∧ second.1 = 2
  ∧ UserManager.transaction_id <$> UserManager.upload_history second.2
      = ["tx1"; "tx1"]
  ∧ UserManager.total_uploads <$> (UserManager.user_sessions second.2 !! "w1")
      = Some 2
  ∧ UserManager.total_size_bytes <$> (UserManager.user_sessions second.2 !! "w1")
      = Some 2000.
Proof. vm_compute. repeat split. Qed.

(** The ledger of the production service refuses a transaction id it
    already holds, and changes nothing then. *)
Lemma production_recordUpload_duplicate wallet d mj tj now db :
  ProductionDatabase.has_tx (ProductionDatabase.transactionId d) db = true →
  ProductionDatabase.recordUpload wallet d mj tj now db
    = (Threw (SqliteConstraint "UNIQUE constraint failed: uploads.transaction_id"),
       db).
Proof. intros H. unfold ProductionDatabase.recordUpload. by rewrite H. Qed.

(** For a new transaction id it stores the row, but its promise does not
    settle and the identity's counters stay as they were. *)
Lemma production_recordUpload_new wallet d mj tj now db :
  ProductionDatabase.has_tx (ProductionDatabase.transactionId d) db = false →
  let r := ProductionDatabase.recordUpload wallet d mj tj now db in
  r.1 = Unsettled
  ∧ ProductionDatabase.users r.2 = ProductionDatabase.users db
  ∧ ProductionDatabase.has_tx (ProductionDatabase.transactionId d) r.2 = true.
Proof.
  intros H r. subst r. unfold ProductionDatabase.recordUpload. rewrite H.
  simpl. split; [done|split; [done|]].
  unfold ProductionDatabase.has_tx. simpl. rewrite existsb_app. simpl.
  rewrite String.eqb_refl. by rewrite orb_true_r.
Qed.

(** [recordTokenAsset] looks nothing up: it always resolves and always
    stores the row. *)
Lemma recordTokenAsset_always_stores wallet t logo meta session now db :
  let r := ProductionDatabase.recordTokenAsset wallet t logo meta session now db in
  ∃ row,
    r.1 = Returned (Z.of_nat (length (ProductionDatabase.token_assets db)) + 1)
    ∧ ProductionDatabase.token_assets r.2
        = ProductionDatabase.token_assets db ++ [row]
    ∧ ProductionDatabase.logo_transaction_id row
        = ProductionDatabase.transactionId logo
    ∧ ProductionDatabase.metadata_transaction_id row
        = ProductionDatabase.transactionId meta
    ∧ ProductionDatabase.uploads r.2 = ProductionDatabase.uploads db.
Proof. eexists. repeat split. Qed.

(** C5, on the ledger of the production service.  On a ledger without any
    upload, [recordTokenAsset] for the transaction ids "tx-logo" and
    "tx-meta" resolves with token id 1 and the row is stored, both of its
    references dangling. *)
Theorem recordTokenAsset_accepts_dangling_references :
  let r := ProductionDatabase.recordTokenAsset "w1"
             {| ProductionDatabase.name := "T";
                ProductionDatabase.symbol := "TK";
                ProductionDatabase.metadata := blank_metadata |}
             (receipt_of "tx-logo" "logo.png")
             (receipt_of "tx-meta" "metadata.json")
             "token_w1_1" 1735732800000 ProductionDatabase.empty in
  r.1 = Returned 1
  ∧ ProductionDatabase.uploads r.2 = []
  ∧ ProductionDatabase.has_tx "tx-logo" r.2 = false
  ∧ ProductionDatabase.has_tx "tx-meta" r.2 = false
  ∧ (λ row, (ProductionDatabase.logo_transaction_id row,
             ProductionDatabase.metadata_transaction_id row))
      <$> ProductionDatabase.token_assets r.2
      = [("tx-logo", "tx-meta")].
Proof. vm_compute. repeat split. Qed.

End ledgers.

Section size_policy.

(** The [switch] of [validateAndDetectFile] computes the smaller of the
    category's ceiling and the global maximum. *)
Lemma maxAllowedSize_is_min cfg cat :
  TokenCreator.maxAllowedSize cfg cat
    = Z.min (TokenCreator.category_ceiling cfg cat)
            (TokenCreator.MAX_UPLOAD_SIZE cfg).
Proof.
  unfold TokenCreator.maxAllowedSize, TokenCreator.category_ceiling.
  repeat (destruct (String.eqb cat _); [reflexivity|]).
  by rewrite Z.min_id.
Qed.

(** Every entry of [SUPPORTED_TYPES] allows the global maximum times the
    factor of its category. *)
Lemma supported_type_maxSize cfg ext fileType :
  registry_get ext (IrysUploadService.SUPPORTED_TYPES cfg) = Some fileType →
  IrysUploadService.maxSize fileType
    = IrysUploadService.MAX_UPLOAD_SIZE cfg
      * IrysUploadService.size_factor (IrysUploadService.category fileType).
Proof.
  unfold IrysUploadService.SUPPORTED_TYPES. simpl.
  repeat (destruct (String.eqb ext _);
          [intros [= <-]; simpl; unfold IrysUploadService.size_factor; simpl; lia|]).
  discriminate.
Qed.

(** C7 fails at the boundary, and on the limit of the production service:
    with the default limits a [.png] of exactly 2 097 152 bytes passes
    [validateAndDetectFile], and a 5 MB [.mp4] passes [validateFile] of
    the production service although the global maximum is 2 MB. *)
Lemma size_policy_boundary_passes :
  TokenCreator.validateAndDetectFile default_limits
      (one_file "logo.png" 2097152) "logo.png"
    = inr {| TokenCreator.fi_size := 2097152;
             TokenCreator.fi_type := TokenCreator.ft "image/png" "image";
             TokenCreator.fi_category := "image";
             TokenCreator.maxAllowed := 2097152 |}
  ∧ ¬ TokenCreator.inclusive_size_policy default_limits
  ∧ IrysUploadService.validateFile production_defaults
      (one_file "clip.mp4" 5242880) "clip.mp4"
    = inr {| IrysUploadService.fi_size := 5242880;
             IrysUploadService.fi_type :=
               {| IrysUploadService.mime := "video/mp4";
                  IrysUploadService.category := "video";
                  IrysUploadService.maxSize := 10485760 |};
             IrysUploadService.fi_fileName := "clip.mp4" |}.
Proof.
  split; [by vm_compute|split; [|by vm_compute]].
  intros H.
  destruct (H (one_file "logo.png" 2097152) "logo.png"
              {| size := 2097152; data := Bytes "logo.png" |}
              (TokenCreator.ft "image/png" "image")) as [_ Hge];
    [by vm_compute|by vm_compute|by vm_compute|].
  assert (Hle : Z.min 2097152 2097152 ≤ 2097152) by (vm_compute; discriminate).
  specialize (Hge Hle). vm_compute in Hge. discriminate Hge.
Qed.

(** C7, as the code has it.  A non-empty file of a supported type passes
    when its size is at most the effective limit and is too large only
    above it.  In [validateAndDetectFile] the limit is the smaller of the
    category's ceiling and the global maximum; in [validateFile] of the
    production service it is the global maximum times the factor of the
    category. *)
Theorem size_policy_is_exclusive :
  (∀ cfg (files : gmap string File) filePath f fileType,
     files !! filePath = Some f →
     registry_get (Path.toLowerCase (Path.extname filePath))
       TokenCreator.FILE_TYPES = Some fileType →
     size f ≠ 0 →
     let limit := Z.min (TokenCreator.category_ceiling cfg
                           (TokenCreator.category fileType))
                        (TokenCreator.MAX_UPLOAD_SIZE cfg) in
     (size f ≤ limit →
        TokenCreator.validateAndDetectFile cfg files filePath
          = inr {| TokenCreator.fi_size := size f;
                   TokenCreator.fi_type := fileType;
                   TokenCreator.fi_category := TokenCreator.category fileType;
                   TokenCreator.maxAllowed := limit |})
     ∧ (limit < size f →
        TokenCreator.validateAndDetectFile cfg files filePath
          = inl (TooLarge (size f) limit)))
  ∧ (∀ cfg (files : gmap string File) filePath f fileType,
     files !! filePath = Some f →
     registry_get (Path.toLowerCase (Path.extname filePath))
       (IrysUploadService.SUPPORTED_TYPES cfg) = Some fileType →
     size f ≠ 0 →
     let limit := IrysUploadService.MAX_UPLOAD_SIZE cfg
                  * IrysUploadService.size_factor
                      (IrysUploadService.category fileType) in
     (size f ≤ limit →
        IrysUploadService.validateFile cfg files filePath
          = inr {| IrysUploadService.fi_size := size f;
                   IrysUploadService.fi_type := fileType;
                   IrysUploadService.fi_fileName := Path.basename filePath |})
     ∧ (limit < size f →
        IrysUploadService.validateFile cfg files filePath
          = inl (TooLarge (size f) limit))).
Proof.
  split.
  - intros cfg files filePath f fileType Hf Ht _ limit. subst limit.
    rewrite <- maxAllowedSize_is_min.
    unfold TokenCreator.validateAndDetectFile. rewrite Hf, Ht. split; intros Hs.
    + destruct (_ <? _) eqn:Hlt; [apply Z.ltb_lt in Hlt; lia|done].
    + destruct (_ <? _) eqn:Hlt; [done|apply Z.ltb_ge in Hlt; lia].
  - intros cfg files filePath f fileType Hf Ht Hne limit. subst limit.
    rewrite <- (supported_type_maxSize _ _ _ Ht).
    unfold IrysUploadService.validateFile. rewrite Hf, Ht. split; intros Hs.
    + destruct (_ <? _) eqn:Hlt; [apply Z.ltb_lt in Hlt; lia|].
      destruct (size f =? 0) eqn:Hz; [apply Z.eqb_eq in Hz; lia|done].
    + destruct (_ <? _) eqn:Hlt; [done|apply Z.ltb_ge in Hlt; lia].
Qed.

(** A 3 MB video against the 2 MB global maximum is too large, the reported
    limit being 2 MB; a 6 MB song passes the production service, whose
    audio limit is three times 2 MB. *)
Lemma size_policy_is_exclusive_witness :
  TokenCreator.validateAndDetectFile default_limits
      (one_file "clip.mp4" 3145728) "clip.mp4"
    = inl (TooLarge 3145728 2097152)
  ∧ IrysUploadService.validateFile production_defaults
      (one_file "song.mp3" 6291456) "song.mp3"
    = inr {| IrysUploadService.fi_size := 6291456;
             IrysUploadService.fi_type :=
               {| IrysUploadService.mime := "audio/mpeg";
                  IrysUploadService.category := "audio";
                  IrysUploadService.maxSize := 6291456 |};
             IrysUploadService.fi_fileName := "song.mp3" |}.
Proof.
  split.
  - apply (proj2 (proj1 size_policy_is_exclusive default_limits
             (one_file "clip.mp4" 3145728) "clip.mp4"
             {| size := 3145728; data := Bytes "clip.mp4" |}
             (TokenCreator.ft "video/mp4" "video") eq_refl eq_refl
             ltac:(discriminate))).
    reflexivity.
  - apply (proj1 (proj2 size_policy_is_exclusive production_defaults
             (one_file "song.mp3" 6291456) "song.mp3"
             {| size := 6291456; data := Bytes "song.mp3" |}
             {| IrysUploadService.mime := "audio/mpeg";
                IrysUploadService.category := "audio";
                IrysUploadService.maxSize := 6291456 |}
             eq_refl eq_refl ltac:(discriminate))).
    vm_compute. discriminate.
Defined.

End size_policy.

(** An exit of the code under study, met in a hypothesis [H] that equates a
    run with its outcome: the outcome and the final world are read off. *)
Ltac settle H := unfold throw, ret in H; cbn in H; simplify_eq.

Section plain_token_creators.
Import TokenUploader.

(** Fetching the cached uploader touches neither the disk nor the network. *)
Lemma getCachedUploader_spec (w : PlainWorld) o w1 :
  getCachedUploader w = (o, w1) →
  disk (plain_sys w1) = disk (plain_sys w)
  ∧ calls (plain_sys w1) = calls (plain_sys w)
  ∧ replies (plain_sys w1) = replies (plain_sys w).
Proof.
  unfold getCachedUploader. destruct (cachedUploader w).
  - by intros [= <- <-].
  - unfold bind, withWallet, update, ret. cbn.
    destruct (wallet (plain_sys w) (wallet_calls (plain_sys w)));
      by intros [= <- <-].
Qed.

(** [fastUpload] leaves the disk as it is; when it returns, it has sent the
    file found at [path], tagged with the content type of its extension. *)
Lemma fastUpload_spec path tags (w : PlainWorld) r w' :
  fastUpload path tags w = (r, w') →
  disk (plain_sys w') = disk (plain_sys w)
  ∧ match r with
    | Returned res =>
        ∃ f, disk (plain_sys w) !! path = Some f
          ∧ calls (plain_sys w') = calls (plain_sys w) ++
              [ {| sent := data f;
                   sent_tags :=
                     [ tag "Content-Type"
                         (getContentType (Path.toLowerCase (Path.extname path)));
                       tag "File-Name" (Path.basename path) ] ++ tags |} ]
          ∧ publicURL res = gateway (transactionId res)
    | _ => True
    end.
Proof.
  intros H. unfold fastUpload, try_catch in H.
  unfold bind at 1, validateFile at 1 in H. cbn [get_sys plain_has_sys] in H.
  destruct (disk (plain_sys w) !! path) as [f|] eqn:Hf.
  2: { by settle H. }
  destruct (_ <? size f).
  { by settle H. }
  unfold bind at 1 in H.
  destruct (getCachedUploader w) as [o w1] eqn:Hup.
  apply getCachedUploader_spec in Hup as (Hd & Hc & Hr).
  destruct o as [c|e|].
  2,3: by settle H.
  unfold bind at 1, readFileSync at 1 in H. cbn [get_sys plain_has_sys] in H.
  rewrite Hd, Hf in H.
  unfold bind at 1, upload at 1 in H. cbn [get_sys set_sys plain_has_sys plain_sys] in H.
  destruct (replies (plain_sys w1) _) as [id|msg|].
  2,3: by settle H.
  unfold bind, read, ret in H. cbn in H. simplify_eq. cbn.
  split; [done|]. exists f. by rewrite Hc.
Qed.

(** [uploadTokenAssets] removes its metadata file when it returns, and on
    no other exit. *)
Lemma uploadTokenAssets_temp_file js td (w : PlainWorld) r w' :
  uploadTokenAssets js td w = (r, w') →
  match r with
  | Returned _ => disk (plain_sys w') !! metadataPath = None
  | _ => is_Some (disk (plain_sys w') !! metadataPath)
  end.
Proof.
  intros H. unfold uploadTokenAssets, try_catch in H.
  unfold bind at 1, writeDocument at 1, update at 1 in H.
  cbn [get_sys set_sys plain_has_sys plain_sys with_disk disk] in H.
  unfold bind at 1 in H.
  match type of H with context [fastUpload ?p ?t ?w0] =>
    pose proof (fastUpload_spec p t w0) as Hlogo;
    destruct (fastUpload p t w0) as [[logoResult|e|] w1] end;
    specialize (Hlogo _ _ eq_refl); cbn [plain_sys disk with_disk] in Hlogo;
    destruct Hlogo as [Hd1 _].
  2,3: settle H; rewrite Hd1, lookup_insert_eq; by eexists.
  unfold bind at 1, writeDocument at 1, update at 1 in H.
  cbn [get_sys set_sys plain_has_sys plain_sys with_disk disk] in H.
  unfold bind at 1 in H.
  match type of H with context [fastUpload ?p ?t ?w0] =>
    pose proof (fastUpload_spec p t w0) as Hmeta;
    destruct (fastUpload p t w0) as [[metaResult|e|] w2] end;
    specialize (Hmeta _ _ eq_refl); cbn [plain_sys disk with_disk] in Hmeta;
    destruct Hmeta as [Hd2 _].
  2,3: settle H; rewrite Hd2, lookup_insert_eq; by eexists.
  unfold bind, update, read, ret, unlink in H. cbn in H. simplify_eq. cbn.
  apply lookup_delete_eq.
Qed.

(** X27.  Whatever the logo, the document [uploadTokenAssets] sends
    declares [image/png], while the logo itself goes out under the
    content type of its extension. *)
Lemma uploadTokenAssets_document js td (w : PlainWorld) res w' :
  uploadTokenAssets js td w = (Returned res, w') →
  ∃ c1 c2 m rest,
    calls (plain_sys w') = calls (plain_sys w) ++ [c1; c2]
    ∧ sent_tags c1
        = tag "Content-Type"
            (getContentType (Path.toLowerCase (Path.extname (logoPath td))))
          :: rest
    ∧ sent c2 = Document m
    ∧ ftype <$> md_files m = ["image/png"].
Proof.
  intros H. unfold uploadTokenAssets, try_catch in H.
  unfold bind at 1, writeDocument at 1, update at 1 in H.
  cbn [get_sys set_sys plain_has_sys plain_sys with_disk disk] in H.
  unfold bind at 1 in H.
  match type of H with context [fastUpload ?p ?t ?w0] =>
    pose proof (fastUpload_spec p t w0) as Hlogo;
    destruct (fastUpload p t w0) as [[logoResult|e|] w1] end;
    specialize (Hlogo _ _ eq_refl);
    cbn [plain_sys disk with_disk calls cachedUploader] in Hlogo.
  2,3: by settle H.
  destruct Hlogo as (Hd1 & f1 & _ & Hc1 & _).
  unfold bind at 1, writeDocument at 1, update at 1 in H.
  cbn [get_sys set_sys plain_has_sys plain_sys with_disk disk] in H.
  unfold bind at 1 in H.
  match type of H with context [fastUpload ?p ?t ?w0] =>
    pose proof (fastUpload_spec p t w0) as Hmeta;
    destruct (fastUpload p t w0) as [[metaResult|e|] w2] end;
    specialize (Hmeta _ _ eq_refl);
    cbn [plain_sys disk with_disk calls cachedUploader] in Hmeta.
  2,3: by settle H.
  destruct Hmeta as (Hd2 & f2 & Hf2 & Hc2 & _).
  rewrite lookup_insert_eq in Hf2. injection Hf2 as <-.
  unfold bind, update, read, ret, unlink in H. cbn in H.
  injection H as _ <-. cbn.
  rewrite Hc2, Hc1, <- app_assoc. cbn.
  eexists _, _, _, _. repeat split.
Qed.

(** C6, on [uploadTokenAssets].  For the logo [logo.jpg] the run succeeds,
    the logo goes out with the content type detected for it,
    [image/jpeg], and the metadata document that goes out declares
    [image/png]. *)
Theorem uploadTokenAssets_declares_png_for_jpeg :
  let r := uploadTokenAssets (λ _, 512) (sample_token "logo.jpg")
             (plain (machine (one_file "logo.jpg" 1000) always_receipt)) in
  r.1 = Returned {| logoURL := "https://gateway.irys.xyz/tx-0";
                    metadataURL := "https://gateway.irys.xyz/tx-1";
                    logoTxId := "tx-0"; metadataTxId := "tx-1";
                    totalTime := 850 |}
  ∧ (head ∘ sent_tags) <$> calls (plain_sys r.2)
      = [ Some (tag "Content-Type" "image/jpeg");
          Some (tag "Content-Type" "application/json") ]
  ∧ documents_sent (plain_sys r.2) = [ ["image/png"] ].
Proof. vm_compute. repeat split. Qed.

(** C1, on the two plain token creators.  [uploadTokenAssets] for a logo
    that does not exist fails and leaves [./temp_metadata.json], which it
    wrote before looking at the logo; [createTokenAssets] whose metadata
    upload is rejected reports the failure and leaves the metadata file
    it wrote.  Neither file was there before the call. *)
Theorem failed_token_creation_leaves_temp_file :
  (let w := plain (machine ∅ always_receipt) in
   let r := uploadTokenAssets (λ _, 512) (sample_token "missing.png") w in
   r.1 = Threw (FileNotFound "missing.png")
   ∧ size <$> (disk (plain_sys w) !! metadataPath) = None
   ∧ size <$> (disk (plain_sys r.2) !! metadataPath) = Some 512)
  ∧ (let w := plain (machine (one_file "logo.png" 1000) second_rejected) in
     let r := TokenCreator.createTokenAssets default_limits
                (sample_token "logo.png") w in
     let path := TokenCreator.metadataPath 1735732800000 in
     r.1 = Returned (TokenCreator.NotCreated (RemoteError "gateway down"))
     ∧ path = "./temp_metadata_1735732800000.json"
     ∧ size <$> (disk (plain_sys w) !! path) = None
     ∧ size <$> (disk (plain_sys r.2) !! path) = Some 512).
Proof. vm_compute. repeat split. Qed.

End plain_token_creators.

Section multi_user_service.
Import MultiUserService.

(** What one tracked upload does: it leaves the disk, the clock and the
    answers of the network alone and never drops an upload row; when it
    returns, the network gave a receipt for this very call and the row is
    stored; when it fails, the caller gets the reference error of the
    [catch] block. *)
Lemma tracking_spec cfg s path tags user ip (w : World) r w' :
  uploadFileWithUserTracking cfg s path tags user ip w = (r, w') →
  replies (mu_sys w') = replies (mu_sys w)
  ∧ disk (mu_sys w') = disk (mu_sys w)
  ∧ now (mu_sys w') = now (mu_sys w)
  ∧ UserManager.upload_history (db w) `prefix_of` UserManager.upload_history (db w')
  ∧ match r with
    | Returned res =>
        replies (mu_sys w) (length (calls (mu_sys w)))
          = Receipt (transactionId res)
        ∧ UserManager.has_tx (transactionId res) (db w')
        ∧ publicURL res = gateway (transactionId res)
        ∧ ∃ f fileType rest,
            disk (mu_sys w) !! path = Some f
            ∧ registry_get (Path.toLowerCase (Path.extname path)) FILE_TYPES
                = Some fileType
            ∧ calls (mu_sys w') = calls (mu_sys w) ++
                [ {| sent := data f;
                     sent_tags := tag "Content-Type" (mime fileType) :: rest |} ]
    | Threw e => e = ReferenceError "uploadSessionId"
    | Unsettled => True
    end.
Proof.
  intros H.
  unfold uploadFileWithUserTracking, try_catch in H.
  unfold bind at 1, query at 1 in H. cbn [fst snd mu_sys db connectionPool] in H.
  unfold bind at 1, query at 1 in H. cbn [fst snd mu_sys db connectionPool] in H.
  set (rc := UserManager.checkRateLimit _ _ _ _ _ _) in H.
  assert (Hh2 : UserManager.upload_history rc.2 = UserManager.upload_history (db w)).
  { subst rc. unfold UserManager.checkRateLimit. by destruct (_ <? _). }
  destruct (negb (UserManager.allowed rc.1)).
  { settle H. cbn. by rewrite Hh2. }
  unfold bind at 1, validate at 1 in H. cbn [mu_sys] in H.
  destruct (disk (mu_sys w) !! path) as [f|] eqn:Hf.
  2: { settle H. cbn. by rewrite Hh2. }
  destruct (registry_get _ FILE_TYPES) as [fileType|] eqn:Hft.
  2: { settle H. cbn. by rewrite Hh2. }
  destruct (_ <? size f).
  { settle H. cbn. by rewrite Hh2. }
  unfold bind at 1, query at 1 in H. cbn [fst snd mu_sys db connectionPool] in H.
  unfold bind at 1, getConnection at 1 in H. cbn [fst snd mu_sys db connectionPool] in H.
  destruct (ConnectionPool.getConnection _ _ _) as [[c|e|] p]; cbn [fst snd] in H.
  2,3: settle H; cbn; by rewrite Hh2.
  unfold try_finally, bind at 1, readFileSync at 1 in H.
  cbn [get_sys has_sys mu_sys with_wallet_call disk] in H. rewrite Hf in H.
  unfold bind at 1, read at 1 in H.
  unfold bind at 1, upload at 1 in H.
  cbn [get_sys set_sys has_sys mu_sys with_wallet_call with_call calls replies db connectionPool] in H.
  destruct (replies (mu_sys w) (length (calls (mu_sys w)))) as [id|msg|] eqn:Hr.
  2,3: settle H; cbn; by rewrite Hh2.
  unfold bind, read, query, ret in H. cbn in H. simplify_eq. cbn.
  rewrite Hh2. repeat split; try done.
  - by apply prefix_app_r.
  - unfold UserManager.has_tx, UserManager.completeUpload.
    cbn [UserManager.upload_history]. eexists. split.
    + apply elem_of_app. right. by apply list_elem_of_singleton.
    + reflexivity.
  - by eexists _, _, _.
Qed.

(** X24.  A settled [createTokenAssetsMultiUser] leaves no file on the
    disk that was not there before: its [finally] block removes the
    metadata file on every exit. *)
Lemma multi_user_leaves_no_file cfg s1 s2 td user ip (w : World) r w' p :
  createTokenAssetsMultiUser cfg s1 s2 td user ip w = (r, w') →
  r ≠ Unsettled →
  is_Some (disk (mu_sys w') !! p) → is_Some (disk (mu_sys w) !! p).
Proof.
  intros H Hr. unfold createTokenAssetsMultiUser, try_catch in H.
  unfold bind at 1, read at 1 in H. unfold bind at 1 in H.
  destruct (uploadFileWithUserTracking cfg s1 _ _ _ _ w)
    as [[logoResult|e|] w1] eqn:Hlogo;
    apply tracking_spec in Hlogo as (_ & Hd1 & Hn1 & _ & _).
  2,3: settle H; by rewrite Hd1.
  destruct (registry_get _ FILE_TYPES) as [logoInfo|].
  2: { settle H. by rewrite Hd1. }
  unfold bind at 1, read at 1 in H. cbn [get_sys has_sys] in H.
  unfold try_finally, bind at 1, writeDocument, update in H.
  unfold bind at 1 in H.
  match type of H with context [uploadFileWithUserTracking ?c ?s ?p ?t ?u ?i ?w0] =>
    destruct (uploadFileWithUserTracking c s p t u i w0)
      as [[metaResult|e|] w2] eqn:Hmeta end;
    apply tracking_spec in Hmeta as (_ & Hd2 & _ & _ & _);
    cbn [get_sys set_sys has_sys mu_sys disk with_disk] in Hd2.
  3: { by settle H. }
  all: settle H;
    unfold unlink_if_exists, existsSync, unlink;
    cbn [get_sys set_sys has_sys mu_sys disk with_disk];
    rewrite Hd2, lookup_insert_eq, bool_decide_eq_true_2 by eauto;
    cbn [get_sys set_sys has_sys mu_sys disk with_disk];
    rewrite delete_insert_eq, Hd1;
    intros [x Hx]; destruct (decide (p = metadataPath user (now (mu_sys w1))))
      as [->|Hne];
    [by rewrite lookup_delete_eq in Hx|rewrite lookup_delete_ne in Hx by done; eauto].
Qed.

(** X25.  When [createTokenAssetsMultiUser] returns, the metadata
    document that went out declares the type the registry gives for the
    logo's extension, the type the logo itself was sent with. *)
Lemma multi_user_document_type cfg s1 s2 td user ip (w : World) res w' :
  createTokenAssetsMultiUser cfg s1 s2 td user ip w = (Returned res, w') →
  ∃ logoInfo c1 c2 m rest,
    registry_get (Path.toLowerCase (Path.extname (logoPath td))) FILE_TYPES
      = Some logoInfo
    ∧ calls (mu_sys w') = calls (mu_sys w) ++ [c1; c2]
    ∧ sent_tags c1 = tag "Content-Type" (mime logoInfo) :: rest
    ∧ sent c2 = Document m
    ∧ ftype <$> md_files m = [mime logoInfo]
    ∧ logoType res = mime logoInfo.
Proof.
  intros H. unfold createTokenAssetsMultiUser, try_catch in H.
  unfold bind at 1, read at 1 in H. unfold bind at 1 in H.
  destruct (uploadFileWithUserTracking cfg s1 _ _ _ _ w)
    as [[logoResult|e|] w1] eqn:Hlogo;
    apply tracking_spec in Hlogo as (_ & Hd1 & Hn1 & _ & Hret).
  2,3: by settle H.
  destruct Hret as (_ & _ & _ & f & logoInfo & rest & Hf & Hft & Hc1).
  rewrite Hft in H.
  unfold bind at 1, read at 1 in H. cbn [get_sys has_sys] in H.
  unfold try_finally, bind at 1, writeDocument, update in H.
  unfold bind at 1 in H.
  match type of H with context [uploadFileWithUserTracking ?c ?s ?p ?t ?u ?i ?w0] =>
    destruct (uploadFileWithUserTracking c s p t u i w0)
      as [[metaResult|e|] w2] eqn:Hmeta end;
    apply tracking_spec in Hmeta as (_ & Hd2 & _ & _ & Hret2);
    cbn [get_sys set_sys has_sys mu_sys disk with_disk calls] in Hd2, Hret2.
  2,3: by settle H.
  destruct Hret2 as (_ & _ & _ & f2 & ft2 & rest2 & Hf2 & _ & Hc2).
  rewrite lookup_insert_eq in Hf2. injection Hf2 as <-.
  unfold ret in H. cbn in H. injection H as <- <-.
  unfold unlink_if_exists. destruct (existsSync _ w2);
    unfold unlink; cbn [get_sys set_sys has_sys mu_sys calls with_disk];
    rewrite Hc2, Hc1, <- app_assoc; cbn; by eexists _, _, _, _, _.
Qed.

(** The multi-user half of C8. *)
Lemma multi_user_partial_failure cfg s1 s2 td user ip (w : World)
    logoResult w1 logoInfo e w2 :
  uploadFileWithUserTracking cfg s1 (logoPath td) (logo_tags td) user ip w
    = (Returned logoResult, w1) →
  registry_get (Path.toLowerCase (Path.extname (logoPath td))) FILE_TYPES
    = Some logoInfo →
  metadataUpload cfg s2 td user ip logoResult logoInfo w1 = (Threw e, w2) →
  let r := createTokenAssetsMultiUser cfg s1 s2 td user ip w in
  r.1 = Threw e
  ∧ UserManager.has_tx (transactionId logoResult) (db r.2)
  ∧ UserManager.upload_history (db w1)
      `prefix_of` UserManager.upload_history (db r.2).
Proof.
  intros Hlogo Hft Hmeta r.
  destruct (createTokenAssetsMultiUser cfg s1 s2 td user ip w) as [o w'] eqn:H.
  subst r. cbn [fst snd].
  unfold createTokenAssetsMultiUser, try_catch in H.
  unfold bind at 1, read at 1 in H. unfold bind at 1 in H.
  rewrite Hlogo, Hft in H.
  apply tracking_spec in Hlogo as (_ & _ & _ & _ & Hret).
  destruct Hret as (_ & [row [Hin Htx]] & _).
  unfold metadataUpload in Hmeta.
  unfold bind at 1, read at 1 in Hmeta. cbn [get_sys has_sys] in Hmeta.
  unfold bind at 1, writeDocument at 1, update at 1 in Hmeta.
  unfold bind at 1, read at 1 in H. cbn [get_sys has_sys] in H.
  unfold try_finally, bind at 1, writeDocument, update in H.
  unfold bind at 1 in H.
  rewrite Hmeta in H.
  apply tracking_spec in Hmeta as (_ & _ & _ & Hpre & _).
  cbn [get_sys set_sys has_sys mu_sys db with_disk] in Hpre.
  unfold throw in H. injection H as <- <-.
  assert (Hdb : db (unlink_if_exists (metadataPath user (now (mu_sys w1))) w2)
                = db w2).
  { unfold unlink_if_exists. by destruct (existsSync _ _). }
  rewrite Hdb. split; [done|]. split; [|done].
  exists row. split; [|done].
  destruct Hpre as [k ->]. apply elem_of_app. by left.
Qed.

End multi_user_service.

Section production_service.
Import IrysUploadService.

(** What one [uploadFile] does: the ledger, the disk, the clock and the
    answers of the network stay as they are; when it returns, the network
    gave a receipt for this very call. *)
Lemma uploadFile_spec cfg filePath wallet tags sess (w : World) r w' :
  uploadFile cfg filePath wallet tags sess w = (r, w') →
  db w' = db w
  ∧ replies (pr_sys w') = replies (pr_sys w)
  ∧ disk (pr_sys w') = disk (pr_sys w)
  ∧ now (pr_sys w') = now (pr_sys w)
  ∧ match r with
    | Returned d =>
        replies (pr_sys w) (length (calls (pr_sys w)))
          = Receipt (ProductionDatabase.transactionId d)
        ∧ length (calls (pr_sys w')) = S (length (calls (pr_sys w)))
    | _ => True
    end.
Proof.
  intros H.
  unfold uploadFile, try_catch, try_finally, bind, validate, getConnection,
    readFileSync, read, upload, ret, throw, releaseConnection in H.
  cbn [get_sys set_sys has_sys pr_sys db connectionPool fst snd] in H.
  destruct (validateFile cfg (disk (pr_sys w)) filePath) as [e|i];
    [by simplify_eq|].
  destruct (UltraFastConnectionPool.getConnection _ _ _) as [[c|e|] p];
    cbn in H; [|by simplify_eq|by simplify_eq].
  destruct (disk (pr_sys w) !! filePath) as [f|]; cbn in H; [|by simplify_eq].
  destruct (replies (pr_sys w) (length (calls (pr_sys w)))) as [id|msg|] eqn:Hr;
    cbn in H; simplify_eq; cbn; [|done|done].
  repeat split. rewrite length_app. simpl. lia.
Qed.

(** [recordUpload] of the production ledger never resolves. *)
Lemma recordUpload_not_returned wallet d mj tj t dbase v :
  (ProductionDatabase.recordUpload wallet d mj tj t dbase).1 ≠ Returned v.
Proof.
  unfold ProductionDatabase.recordUpload. by destruct (ProductionDatabase.has_tx _ _).
Qed.

(** The production half of C8. *)
Lemma production_partial_failure cfg td wallet ip (w : World)
    logoInfo logoResult w1 e w2 :
  logoUpload cfg td wallet ip w = (Returned (logoInfo, logoResult), w1) →
  metadataUpload cfg td wallet (session_of wallet (now (pr_sys w)))
    logoInfo logoResult w1 = (Threw e, w2) →
  let r := createTokenAssets cfg td wallet ip w in
  r.1 = Threw e
  ∧ replies (pr_sys w) (length (calls (pr_sys w)))
      = Receipt (ProductionDatabase.transactionId logoResult)
  ∧ ProductionDatabase.uploads (db r.2) = ProductionDatabase.uploads (db w)
  ∧ ProductionDatabase.token_assets (db r.2)
      = ProductionDatabase.token_assets (db w).
Proof.
  intros Hlogo Hmeta r.
  destruct (createTokenAssets cfg td wallet ip w) as [o w'] eqn:H.
  subst r. cbn [fst snd].
  unfold createTokenAssets, bind at 1, read at 1 in H.
  unfold logoUpload, bind at 1, read at 1 in Hlogo.
  cbn [get_sys has_sys] in Hlogo, H.
  unfold try_catch, bind at 1, query at 1 in H.
  unfold bind at 1, query at 1 in Hlogo.
  set (rc := ProductionDatabase.checkRateLimit _ _ _ _ _ _) in *.
  assert (Hrc : ProductionDatabase.uploads rc.2 = ProductionDatabase.uploads (db w)
                ∧ ProductionDatabase.token_assets rc.2
                    = ProductionDatabase.token_assets (db w)).
  { subst rc. unfold ProductionDatabase.checkRateLimit. by destruct (_ <? _). }
  destruct Hrc as [Hu Ht].
  destruct (negb (ProductionDatabase.allowed rc.1)).
  { by settle Hlogo. }
  unfold bind at 1, query at 1 in H. cbn [pr_sys db connectionPool] in H.
  unfold bind at 1, query at 1 in Hlogo. cbn [pr_sys db connectionPool] in Hlogo.
  unfold bind at 1, validate at 1 in H. cbn [pr_sys] in H.
  unfold bind at 1, validate at 1 in Hlogo. cbn [pr_sys] in Hlogo.
  destruct (validateFile cfg (disk (pr_sys w)) (logoPath td)) as [e0|i].
  { by settle Hlogo. }
  unfold bind at 1 in H. unfold bind at 1 in Hlogo.
  match type of Hlogo with context [uploadFile ?c ?p ?wa ?t ?s ?w0] =>
    destruct (uploadFile c p wa t s w0) as [[lr|e0|] wl] eqn:Hup end.
  2,3: by settle Hlogo.
  unfold ret in Hlogo. injection Hlogo as -> -> ->.
  apply uploadFile_spec in Hup as (Hdb & Hrep & Hdisk & Hnow & Hret);
    cbn [pr_sys db calls replies] in Hdb, Hrep, Hret, Hnow.
  destruct Hret as [Hrec _].
  unfold metadataUpload in Hmeta.
  unfold bind at 1, read at 1 in Hmeta. cbn [get_sys has_sys] in Hmeta.
  unfold bind at 1, writeDocument at 1, update at 1 in Hmeta.
  unfold bind at 1, read at 1 in H. cbn [get_sys has_sys] in H.
  unfold try_finally, bind at 1, writeDocument, update in H.
  unfold bind at 1 in H.
  rewrite Hmeta in H.
  apply uploadFile_spec in Hmeta as (Hdb2 & _).
  cbn [get_sys set_sys has_sys pr_sys db with_disk] in Hdb2.
  unfold throw in H. injection H as <- <-.
  assert (Hdbu : db (unlink_if_exists
                       (metadataPath cfg (session_of wallet (now (pr_sys w)))) w2)
                 = db w2).
  { unfold unlink_if_exists. by destruct (existsSync _ _). }
  rewrite Hdbu, Hdb2, Hdb. cbn.
  by rewrite Hu, Ht.
Qed.

(** X26.  Whatever the world, [createTokenAssets] of the production
    service never returns a result: once both uploads have their
    receipts, the first [recordUpload] either is refused or never
    settles. *)
Lemma production_createTokenAssets_never_returns cfg td wallet ip (w : World) v :
  (createTokenAssets cfg td wallet ip w).1 ≠ Returned v.
Proof.
  destruct (createTokenAssets cfg td wallet ip w) as [r w'] eqn:H.
  cbn [fst]. intros ->.
  unfold createTokenAssets, bind at 1, read at 1 in H.
  unfold try_catch, bind at 1, query at 1 in H.
  destruct (negb _); [by settle H|].
  unfold bind at 1, query at 1 in H.
  unfold bind at 1, validate at 1 in H.
  destruct (validateFile _ _ _) as [e|logoInfo];
    [by settle H|].
  unfold bind at 1 in H.
  match type of H with context [uploadFile ?c ?p ?wa ?t ?s ?w0] =>
    destruct (uploadFile c p wa t s w0) as [[logoResult|e|] w1] end.
  2,3: by settle H.
  unfold bind at 1, read at 1 in H.
  unfold try_finally, bind at 1, writeDocument, update in H.
  unfold bind at 1 in H.
  match type of H with context [uploadFile ?c ?p ?wa ?t ?s ?w0] =>
    destruct (uploadFile c p wa t s w0) as [[metaResult|e|] w2] end.
  2,3: by settle H.
  unfold bind at 1, all3 at 1 in H.
  match type of H with context [ProductionDatabase.recordUpload ?a ?b ?c ?d ?e ?f] =>
    pose proof (recordUpload_not_returned a b c d e f) as Hn;
    destruct (ProductionDatabase.recordUpload a b c d e f) as [[x|e1|] d1] end;
    cbn [fst snd] in H, Hn.
  - by destruct (Hn x).
  - unfold ProductionDatabase.recordTokenAsset at 1 in H. cbn [fst snd] in H.
    match type of H with context [ProductionDatabase.recordUpload ?a ?b ?c ?d ?e ?f] =>
      destruct (ProductionDatabase.recordUpload a b c d e f) as [[x|e2|] d2] end;
      cbn [fst snd] in H; by settle H.
  - destruct (ProductionDatabase.recordTokenAsset _ _ _ _ _ _ _) as [oc dc].
    by settle H.
Qed.

End production_service.

Section partial_failure.

(** C8 fails on the production service.  The logo upload gets the receipt
    "tx-logo", the metadata upload is rejected; [createTokenAssets] fails
    with the rejection, and the ledger holds no upload row at all: the
    service writes its rows only after both uploads. *)
Lemma production_partial_failure_leaves_no_row :
  let w := IrysUploadService.start production_defaults
             (machine (one_file "logo.png" 1000) second_rejected) in
  let r := IrysUploadService.createTokenAssets production_defaults
             (sample_token "logo.png") "9xQeWvG816bUx9EPjHmaT23y" "10.0.0.1" w in
  r.1 = Threw (RemoteError "gateway down")
  ∧ replies (IrysUploadService.pr_sys w) 0 = Receipt "tx-logo"
  ∧ (head ∘ sent_tags) <$> calls (IrysUploadService.pr_sys r.2)
      = [ Some (tag "Content-Type" "image/png");
          Some (tag "Content-Type" "application/json") ]
  ∧ ProductionDatabase.uploads (IrysUploadService.db r.2) = []
  ∧ ProductionDatabase.has_tx "tx-logo" (IrysUploadService.db r.2) = false
  ∧ ProductionDatabase.token_assets (IrysUploadService.db r.2) = [].
Proof. vm_compute. repeat split. Qed.

(** C8, as the code has it.  When the upload of the primary asset has
    returned and the upload of the metadata document, issued next, fails,
    the call fails with the error of that upload.  In the multi-user
    service the upload row of the primary asset, written when its upload
    succeeded, is still in the ledger, and no row that was there has been
    removed.  In the production service, whose rows are written only
    after both uploads, the primary asset has its receipt from the
    network and the upload rows and the token rows of the ledger are
    exactly as they were before the call. *)
Theorem partial_failure_keeps_recorded_rows_only :
  (∀ cfg s1 s2 td user ip (w : MultiUserService.World)
     logoResult w1 logoInfo e w2,
     MultiUserService.uploadFileWithUserTracking cfg s1 (logoPath td)
       (MultiUserService.logo_tags td) user ip w = (Returned logoResult, w1) →
     registry_get (Path.toLowerCase (Path.extname (logoPath td)))
       MultiUserService.FILE_TYPES = Some logoInfo →
     MultiUserService.metadataUpload cfg s2 td user ip logoResult logoInfo w1
       = (Threw e, w2) →
     let r := MultiUserService.createTokenAssetsMultiUser cfg s1 s2 td user ip w in
     r.1 = Threw e
     ∧ UserManager.has_tx (MultiUserService.transactionId logoResult)
         (MultiUserService.db r.2)
     ∧ UserManager.upload_history (MultiUserService.db w1)
         `prefix_of` UserManager.upload_history (MultiUserService.db r.2))
  ∧ (∀ cfg td wallet ip (w : IrysUploadService.World)
       logoInfo logoResult w1 e w2,
     IrysUploadService.logoUpload cfg td wallet ip w
       = (Returned (logoInfo, logoResult), w1) →
     IrysUploadService.metadataUpload cfg td wallet
       (IrysUploadService.session_of wallet (now (IrysUploadService.pr_sys w)))
       logoInfo logoResult w1 = (Threw e, w2) →
     let r := IrysUploadService.createTokenAssets cfg td wallet ip w in
     r.1 = Threw e
     ∧ replies (IrysUploadService.pr_sys w)
         (length (calls (IrysUploadService.pr_sys w)))
         = Receipt (ProductionDatabase.transactionId logoResult)
     ∧ ProductionDatabase.uploads (IrysUploadService.db r.2)
         = ProductionDatabase.uploads (IrysUploadService.db w)
     ∧ ProductionDatabase.token_assets (IrysUploadService.db r.2)
         = ProductionDatabase.token_assets (IrysUploadService.db w)).
Proof.
  split.
  - intros. by eapply multi_user_partial_failure.
  - intros. by eapply production_partial_failure.
Qed.

(** A pair is known by its first component and its own second. *)
Lemma pair_of_fst {A B} (p : A * B) (a : A) : p.1 = a → p = (a, p.2).
Proof. destruct p. simpl. by intros ->. Qed.

(** Both services on a fresh process, with a network that gives the
    receipt "tx-logo" and then rejects. *)
Lemma partial_failure_keeps_recorded_rows_only_witness :
  (let w := MultiUserService.start multi_user_defaults
              (machine (one_file "logo.png" 1000) second_rejected) in
   let r := MultiUserService.createTokenAssetsMultiUser multi_user_defaults
              "session-1" "session-2" (sample_token "logo.png")
              "w1" "10.0.0.1" w in
   r.1 = Threw (ReferenceError "uploadSessionId")
   ∧ UserManager.has_tx "tx-logo" (MultiUserService.db r.2))
  ∧ (let w := IrysUploadService.start production_defaults
                (machine (one_file "logo.png" 1000) second_rejected) in
     let r := IrysUploadService.createTokenAssets production_defaults
                (sample_token "logo.png") "9xQeWvG816bUx9EPjHmaT23y"
                "10.0.0.1" w in
     r.1 = Threw (RemoteError "gateway down")
     ∧ ProductionDatabase.uploads (IrysUploadService.db r.2) = []
     ∧ ProductionDatabase.token_assets (IrysUploadService.db r.2) = []).
Proof.
  split.
  - intros w r.
    pose (logoResult :=
      {| MultiUserService.transactionId := "tx-logo";
         MultiUserService.publicURL := "https://gateway.irys.xyz/tx-logo";
         MultiUserService.fileName := "logo.png";
         MultiUserService.fileSize := 1000;
         MultiUserService.contentType := "image/png";
         MultiUserService.uploadTime := 850;
         MultiUserService.userId := "w1";
         MultiUserService.sessionId := "session-1";
         MultiUserService.rateLimitRemaining := 58 |}).
    pose (logoInfo := {| MultiUserService.mime := "image/png";
                         MultiUserService.category := "image" |}).
    pose (first := MultiUserService.uploadFileWithUserTracking
                     multi_user_defaults "session-1" "logo.png"
                     (MultiUserService.logo_tags (sample_token "logo.png"))
                     "w1" "10.0.0.1" w).
    pose (second := MultiUserService.metadataUpload multi_user_defaults
                      "session-2" (sample_token "logo.png") "w1" "10.0.0.1"
                      logoResult logoInfo first.2).
    destruct (proj1 partial_failure_keeps_recorded_rows_only
                multi_user_defaults "session-1" "session-2"
                (sample_token "logo.png") "w1" "10.0.0.1" w
                logoResult first.2 logoInfo
                (ReferenceError "uploadSessionId") second.2)
      as (Hr & Htx & _).
    + apply pair_of_fst. by vm_compute.
    + reflexivity.
    + apply pair_of_fst. by vm_compute.
    + split; [exact Hr|exact Htx].
  - intros w r.
    pose (logoInfo :=
      {| IrysUploadService.fi_size := 1000;
         IrysUploadService.fi_type :=
           {| IrysUploadService.mime := "image/png";
              IrysUploadService.category := "image";
              IrysUploadService.maxSize := 2097152 |};
         IrysUploadService.fi_fileName := "logo.png" |}).
    pose (logoResult :=
      {| ProductionDatabase.transactionId := "tx-logo";
         ProductionDatabase.publicURL := "https://gateway.irys.xyz/tx-logo";
         ProductionDatabase.fileName := "logo.png";
         ProductionDatabase.fileSize := 1000;
         ProductionDatabase.contentType := "image/png";
         ProductionDatabase.category := "image";
         ProductionDatabase.uploadTime := 850;
         ProductionDatabase.sessionId := "token_9xQeWvG8_1735732800000" |}).
    pose (first := IrysUploadService.logoUpload production_defaults
                     (sample_token "logo.png") "9xQeWvG816bUx9EPjHmaT23y"
                     "10.0.0.1" w).
    pose (second := IrysUploadService.metadataUpload production_defaults
                      (sample_token "logo.png") "9xQeWvG816bUx9EPjHmaT23y"
                      "token_9xQeWvG8_1735732800000" logoInfo logoResult
                      first.2).
    destruct (proj2 partial_failure_keeps_recorded_rows_only
                production_defaults (sample_token "logo.png")
                "9xQeWvG816bUx9EPjHmaT23y" "10.0.0.1" w
                logoInfo logoResult first.2
                (RemoteError "gateway down") second.2)
      as (Hr & _ & Hu & Ht).
    + apply pair_of_fst. by vm_compute.
    + apply pair_of_fst. by vm_compute.
    + split; [exact Hr|]. split; [exact Hu|exact Ht].
Defined.

End partial_failure.

(* ================================================================== *)
(** * Further properties of the ledgers *)

Section json_rate_window.
Import JSONUserManager.

(** Filtering the entries and reading their instants commute. *)
Lemma filter_newer_timestamps c (l : list RateEntry) :
  timestamp <$> List.filter (newer c) l
    = List.filter (λ x, c <? x) (timestamp <$> l).
Proof.
  induction l as [|e l IH]; [done|].
  rewrite fmap_cons. cbn [List.filter]. unfold newer at 1.
  destruct (c <? timestamp e); [rewrite fmap_cons|]; by rewrite IH.
Qed.

(** A later cutoff makes an earlier one redundant. *)
Lemma filter_filter_window (c c' : Z) (l : list Z) :
  c ≤ c' →
  List.filter (λ x, c' <? x) (List.filter (λ x, c <? x) l)
    = List.filter (λ x, c' <? x) l.
Proof.
  intros Hc. induction l as [|x l IH]; simpl; [done|].
  destruct (c <? x) eqn:H1; simpl.
  - destruct (c' <? x); by rewrite IH.
  - destruct (c' <? x) eqn:H2; [|done].
    apply Z.ltb_ge in H1. apply Z.ltb_lt in H2. lia.
Qed.


(** One check, on a state whose entries for [id] are the admitted instants
    newer than a cutoff no later than this check's own. *)
Lemma window_inv_step id ip w m c adm t st :
  0 < w → c ≤ t - w →
  window_inv id m c adm st →
  let r := checkRateLimit id ip w m t st in
  allowed r.1 = bool_decide (spec_window_count w t adm < m)
  ∧ remaining r.1 = (if allowed r.1 then m - spec_window_count w t adm - 1 else 0)
  ∧ window_inv id m (t - w) (adm ++ if allowed r.1 then [t] else []) r.2.
Proof.
  intros Hw Hc [Hts Hlen] r. subst r.
  assert (Hcount : Z.of_nat (length (List.filter (newer (t - w))
                      (default [] (rateLimits st !! id))))
                   = spec_window_count w t adm).
  { unfold spec_window_count.
    rewrite <- (filter_filter_window c (t - w) adm Hc), <- Hts,
      <- filter_newer_timestamps. by rewrite length_fmap. }
  unfold checkRateLimit. rewrite Hcount.
  destruct (m <=? spec_window_count w t adm) eqn:Hle; simpl.
  - apply Z.leb_le in Hle.
    rewrite bool_decide_eq_false_2 by lia.
    split; [done|split; [done|]].
    unfold window_inv. simpl. rewrite lookup_insert_eq. simpl.
    rewrite app_nil_r. split.
    + rewrite filter_newer_timestamps, Hts. by apply filter_filter_window.
    + pose proof (List.filter_length_le (newer (t - w))
                    (default [] (rateLimits st !! id))). lia.
  - apply Z.leb_gt in Hle.
    rewrite bool_decide_eq_true_2 by lia.
    split; [done|split; [done|]].
    unfold window_inv. simpl. rewrite lookup_insert_eq. simpl. split.
    + rewrite fmap_app, filter_newer_timestamps, Hts,
        (filter_filter_window c (t - w) adm Hc).
      rewrite List.filter_app. simpl.
      destruct (t - w <? t) eqn:Ht; [done|]. apply Z.ltb_ge in Ht. lia.
    + rewrite length_app. simpl. lia.
Qed.

(** A run of checks at instants that do not go back. *)
Lemma window_inv_run id ip w m : ∀ ts c adm st last,
  0 < w →
  Sorted Z.le (ts ++ [last]) →
  (∀ t, head (ts ++ [last]) = Some t → c ≤ t - w) →
  window_inv id m c adm st →
  ∃ c', c' ≤ last - w ∧
    window_inv id m c' (adm ++ (checkRateLimit_each id ip w m ts st).1)
      (checkRateLimit_each id ip w m ts st).2.
Proof.
  induction ts as [|t ts IH]; intros c adm st last Hw Hs Hhd Hinv.
  - simpl. rewrite app_nil_r. exists c. split; [|done]. by apply Hhd.
  - simpl.
    destruct (window_inv_step id ip w m c adm t st Hw (Hhd t eq_refl) Hinv)
      as (_ & _ & Hinv').
    simpl in Hs. apply Sorted_inv in Hs as [Hs Hrel].
    assert (Hhd' : ∀ t', head (ts ++ [last]) = Some t' → t - w ≤ t' - w).
    { intros t' Ht'. destruct (ts ++ [last]) as [|x r]; [done|].
      simpl in Ht'. injection Ht' as ->. apply HdRel_inv in Hrel. lia. }
    destruct (IH (t - w) _ _ last Hw Hs Hhd' Hinv') as (c' & Hc' & H).
    exists c'. split; [done|]. by rewrite app_assoc.
Qed.

(** X1.  The rate check of the JSON ledger is a sliding-window limiter over
    its own admissions.  Let an identity without rate entries make calls
    at instants that do not go back, all with the window [w > 0] and the
    ceiling [m].  Then a call at [t] is admitted exactly when fewer than
    [m] of the earlier calls that were admitted lie in the window
    [(t - w, t]], its [remaining] is what is left of the ceiling after it,
    and with this call counted the admitted calls in the window never
    exceed the ceiling. *)
Theorem json_rate_limit_is_sliding_window id ip w m ts t st :
  0 < w →
  Sorted Z.le (ts ++ [t]) →
  rateLimits st !! id = None →
  let before := checkRateLimit_each id ip w m ts st in
  let r := checkRateLimit id ip w m t before.2 in
  allowed r.1 = bool_decide (spec_window_count w t before.1 < m)
  ∧ remaining r.1
      = (if allowed r.1 then m - spec_window_count w t before.1 - 1 else 0)
  ∧ spec_window_count w t (before.1 ++ if allowed r.1 then [t] else [])
      ≤ Z.max m 0.
Proof.
  intros Hw Hs Hnone before r.
  destruct (window_inv_run id ip w m ts
              (match head (ts ++ [t]) with Some x => x - w | None => 0 end)
              [] st t Hw Hs) as (c' & Hc' & Hinv).
  { intros x ->. lia. }
  { unfold window_inv. rewrite Hnone. simpl.
    split; [done|lia]. }
  simpl in Hinv. fold before in Hinv.
  destruct (window_inv_step id ip w m c' before.1 t before.2 Hw Hc' Hinv)
    as (Ha & Hr & [Hts Hlen]).
  fold r in Ha, Hr, Hts, Hlen.
  split; [done|split; [done|]].
  unfold spec_window_count. rewrite <- Hts, length_fmap. exact Hlen.
Qed.

(** Three calls within one minute against a ceiling of two. *)
Lemma json_rate_limit_is_sliding_window_witness :
  let before := checkRateLimit_each "w1" "10.0.0.1" 60000 2 [1000; 2000] empty in
  let r := checkRateLimit "w1" "10.0.0.1" 60000 2 3000 before.2 in
  allowed r.1 = bool_decide (spec_window_count 60000 3000 before.1 < 2)
  ∧ remaining r.1
      = (if allowed r.1 then 2 - spec_window_count 60000 3000 before.1 - 1 else 0)
  ∧ spec_window_count 60000 3000 (before.1 ++ if allowed r.1 then [3000] else [])
      ≤ Z.max 2 0.
Proof.
  apply (json_rate_limit_is_sliding_window "w1" "10.0.0.1" 60000 2
           [1000; 2000] 3000 empty).
  - lia.
  - simpl. repeat (constructor; try lia).
  - reflexivity.
Defined.



End json_rate_window.

Section json_user_records.
Import JSONUserManager.

(** One operation keeps every user record there, and changes in it only
    the last activity and the counters. *)
Lemma json_user_record_step o st id u :
  users st !! id = Some u →
  ∃ u', users (step st o) !! id = Some u'
    ∧ userId u' = userId u ∧ email u' = email u
    ∧ createdAt u' = createdAt u ∧ status u' = status u
    ∧ totalUploads u ≤ totalUploads u'.
Proof.
  intros Hu.
  destruct o as [i mail now|i d uuid now|i ip w m now|i limit|days now]; simpl.
  - unfold createOrGetUser. destruct (decide (i = id)) as [->|Hne].
    + rewrite Hu. simpl. rewrite lookup_insert_eq. eexists. split; [done|].
      repeat split; simpl; lia.
    + destruct (users st !! i); simpl; rewrite lookup_insert_ne by done;
        exists u; (split; [done|repeat split; lia]).
  - unfold recordUpload. simpl. destruct (decide (i = id)) as [->|Hne].
    + rewrite Hu. rewrite lookup_insert_eq. eexists. split; [done|].
      repeat split; simpl; lia.
    + destruct (users st !! i); [rewrite lookup_insert_ne by done|];
        exists u; (split; [done|repeat split; lia]).
  - unfold checkRateLimit. destruct (_ <=? _); simpl;
      exists u; (split; [done|repeat split; lia]).
  - unfold getRecentUploads. destruct (uploads st !! i); simpl;
      exists u; (split; [done|repeat split; lia]).
  - exists u. split; [done|repeat split; lia].
Qed.

(** X3.  The JSON ledger never deletes a user and never rewrites who the
    user is: whatever calls follow, a user that exists keeps its id,
    email, creation time and status (a later [createOrGetUser] with
    another email does not change the email), and its upload counter
    never goes down. *)
Theorem json_user_record_is_stable ops : ∀ st id u,
  users st !! id = Some u →
  ∃ u', users (run ops st) !! id = Some u'
    ∧ userId u' = userId u ∧ email u' = email u
    ∧ createdAt u' = createdAt u ∧ status u' = status u
    ∧ totalUploads u ≤ totalUploads u'.
Proof.
  induction ops as [|o ops IH]; intros st id u Hu.
  - exists u. simpl. repeat split; done || lia.
  - destruct (json_user_record_step o st id u Hu)
      as (u1 & Hu1 & H1 & H2 & H3 & H4 & H5).
    destruct (IH _ _ _ Hu1) as (u2 & Hu2 & G1 & G2 & G3 & G4 & G5).
    exists u2. unfold run in *. simpl. split; [done|].
    repeat split; try congruence. lia.
Qed.

(** User "w1", created with an email, through a sequence that creates it
    again without one. *)
Lemma json_user_record_is_stable_witness :
  let u := {| userId := "w1"; email := Some "a@b.c";
              createdAt := "2025-01-01T11:59:59.000Z";
              lastActivity := "2025-01-01T11:59:59.000Z";
              totalUploads := 0; totalSizeBytes := 0; status := "active" |} in
  let st := {| users := {[ "w1" := u ]}; uploads := ∅; rateLimits := ∅ |} in
  ∃ u', users (run create_before_record st) !! "w1" = Some u'
    ∧ userId u' = userId u ∧ email u' = email u
    ∧ createdAt u' = createdAt u ∧ status u' = status u
    ∧ totalUploads u ≤ totalUploads u'.
Proof.
  intros u st.
  apply (json_user_record_is_stable create_before_record st "w1" u).
  reflexivity.
Defined.

End json_user_records.

Section json_recent_uploads.
Import JSONUserManager.

(** Texts under [String.compare]: greater one way is less the other way,
    and "not greater" is transitive. *)
Lemma compare_gt_lt (a b : string) :
  String.compare a b = Gt ↔ OrderedTypeEx.String_as_OT.lt b a.
Proof.
  rewrite <- OrderedTypeEx.String_as_OT.cmp_lt.
  unfold OrderedTypeEx.String_as_OT.cmp. rewrite (String.compare_antisym b a).
  destruct (String.compare a b); simpl; split; congruence.
Qed.

Lemma compare_not_gt_trans (a b c : string) :
  String.compare a b ≠ Gt → String.compare b c ≠ Gt → String.compare a c ≠ Gt.
Proof.
  intros Hab Hbc Hac. apply compare_gt_lt in Hac.
  destruct (String.compare a b) eqn:E1; [| |done].
  - apply String.compare_eq_iff in E1. subst b.
    apply Hbc. by apply compare_gt_lt.
  - apply OrderedTypeEx.String_as_OT.cmp_lt in E1.
    apply Hbc, compare_gt_lt.
    by eapply OrderedTypeEx.String_as_OT.lt_trans.
Qed.

Lemma not_older_trans a b c : not_older a b → not_older b c → not_older a c.
Proof.
  unfold not_older, created_after. intros Hab Hbc.
  destruct (String.compare (rec_createdAt b) (rec_createdAt a)) eqn:E1; try done;
  destruct (String.compare (rec_createdAt c) (rec_createdAt b)) eqn:E2; try done;
  destruct (String.compare (rec_createdAt c) (rec_createdAt a)) eqn:E3; try done;
  exfalso; eapply (compare_not_gt_trans (rec_createdAt c) (rec_createdAt b)
                     (rec_createdAt a)); congruence.
Qed.

Lemma created_after_not_older x r : created_after x r = true → not_older x r.
Proof.
  unfold not_older, created_after. intros H.
  destruct (String.compare (rec_createdAt x) (rec_createdAt r)) eqn:E; try done.
  by rewrite (String.compare_antisym (rec_createdAt r) (rec_createdAt x)), E.
Qed.

Lemma insert_newest_first_perm r l : insert_newest_first r l ≡ₚ r :: l.
Proof.
  induction l as [|x l IH]; simpl; [done|].
  destruct (created_after x r); [|done].
  rewrite IH. apply Permutation_swap.
Qed.

Lemma insert_newest_first_sorted r l :
  StronglySorted not_older l → StronglySorted not_older (insert_newest_first r l).
Proof.
  induction 1 as [|x l Hs IH Hall]; simpl.
  - repeat constructor.
  - destruct (created_after x r) eqn:E.
    + constructor; [done|].
      rewrite (insert_newest_first_perm r l). constructor; [|done].
      by apply created_after_not_older.
    + constructor; [by constructor|].
      constructor; [exact E|].
      eapply Forall_impl; [exact Hall|]. intros y Hy.
      eapply not_older_trans; [exact E|exact Hy].
Qed.

Lemma sort_newest_first_perm l : sort_newest_first l ≡ₚ l.
Proof.
  induction l as [|x l IH]; simpl; [done|].
  unfold sort_newest_first in *. simpl.
  by rewrite insert_newest_first_perm, IH.
Qed.

Lemma sort_newest_first_sorted l : StronglySorted not_older (sort_newest_first l).
Proof.
  induction l as [|x l IH]; simpl; [constructor|].
  by apply insert_newest_first_sorted.
Qed.

Lemma StronglySorted_take {A} (R : A → A → Prop) n l :
  StronglySorted R l → StronglySorted R (take n l).
Proof.
  intros H. rewrite <- (take_drop n l) in H.
  by apply StronglySorted_app_1_l in H.
Qed.

(** X4.  [getRecentUploads] returns the newest uploads of the identity
    first: no record of the result is newer than one that stands before
    it, the result has [limit] records or all of them if there are fewer,
    and it is the head of the stored array, which the call leaves sorted:
    the same records, in another order.  Nothing else in the ledger
    changes. *)
Theorem json_recent_uploads_newest_first id limit st mine :
  uploads st !! id = Some mine →
  let r := getRecentUploads id limit st in
  StronglySorted not_older r.1
  ∧ length r.1 = (limit `min` length mine)%nat
  ∧ r.1 = take limit (uploads_of r.2 id)
  ∧ uploads_of r.2 id ≡ₚ mine
  ∧ users r.2 = users st
  ∧ rateLimits r.2 = rateLimits st
  ∧ ∀ j, j ≠ id → uploads r.2 !! j = uploads st !! j.
Proof.
  intros Hm r. subst r. unfold getRecentUploads, uploads_of. rewrite Hm. simpl.
  rewrite lookup_insert_eq. simpl.
  split; [apply StronglySorted_take, sort_newest_first_sorted|].
  split. { rewrite length_take, (Permutation_length (sort_newest_first_perm mine)). done. }
  split; [done|]. split; [apply sort_newest_first_perm|].
  split; [done|]. split; [done|].
  intros j Hj. by rewrite lookup_insert_ne.
Qed.

(** The two uploads of "w1", the later one asked for alone. *)
Lemma json_recent_uploads_newest_first_witness :
  let st := run create_before_record empty in
  ∃ mine, uploads st !! "w1" = Some mine
  ∧ let r := getRecentUploads "w1" 1 st in
    StronglySorted not_older r.1
    ∧ length r.1 = (1 `min` length mine)%nat
    ∧ r.1 = take 1 (uploads_of r.2 "w1")
    ∧ uploads_of r.2 "w1" ≡ₚ mine
    ∧ users r.2 = users st
    ∧ rateLimits r.2 = rateLimits st
    ∧ ∀ j, j ≠ "w1" → uploads r.2 !! j = uploads st !! j.
Proof.
  intros st. eexists. split; [by vm_compute|].
  apply (json_recent_uploads_newest_first "w1" 1 st). by vm_compute.
Defined.

(** X5.  After [getRecentUploads] has sorted the stored array,
    [getUserStats] no longer shows the last uploads made: its
    [recentUploads], the last five elements of the array, are then the
    five oldest records (all of them if there are fewer): none of them is
    newer than any record it leaves out. *)
Theorem json_stats_after_recent_show_oldest id limit st u mine :
  users st !! id = Some u →
  uploads st !! id = Some mine →
  let st' := (getRecentUploads id limit st).2 in
  ∃ s hidden,
    getUserStats id st' = Some s
    ∧ uploads_of st' id = hidden ++ recentUploads s
    ∧ uploads_of st' id ≡ₚ mine
    ∧ length (recentUploads s) = (5 `min` length mine)%nat
    ∧ ∀ a b, a ∈ hidden → b ∈ recentUploads s → created_after b a = false.
Proof.
  intros Hu Hm st'. subst st'.
  unfold getRecentUploads. rewrite Hm. unfold getUserStats, uploads_of.
  cbn [snd users uploads]. rewrite Hu, lookup_insert_eq.
  cbn [default from_option Datatypes.id].
  set (sorted := sort_newest_first mine).
  eexists _, (take (length sorted - 5) sorted).
  split; [done|]. cbn [recentUploads]. split; [by rewrite take_drop|].
  split; [apply sort_newest_first_perm|].
  assert (Hlen : length sorted = length mine)
    by apply (Permutation_length (sort_newest_first_perm mine)).
  split; [rewrite length_drop, Hlen; lia|].
  intros a b. apply (StronglySorted_app_1_elem_of not_older).
  rewrite take_drop. apply sort_newest_first_sorted.
Qed.

(** Identity "w1" with seven uploads, "tx1" the oldest: after
    [getRecentUploads], the statistics show "tx5" down to "tx1" and leave
    out the two newest. *)
Lemma json_stats_after_recent_show_oldest_witness :
  let st := run seven_recorded empty in
  let st' := (getRecentUploads "w1" 10 st).2 in
  ∃ s hidden,
    getUserStats "w1" st' = Some s
    ∧ uploads_of st' "w1" = hidden ++ recentUploads s
    ∧ rec_transactionId <$> uploads_of st' "w1"
        = ["tx7"; "tx6"; "tx5"; "tx4"; "tx3"; "tx2"; "tx1"]
    ∧ rec_transactionId <$> recentUploads s
        = ["tx5"; "tx4"; "tx3"; "tx2"; "tx1"]
    ∧ length hidden = 2%nat
    ∧ ∀ a b, a ∈ hidden → b ∈ recentUploads s → created_after b a = false.
Proof.
  intros st st'.
  destruct (json_stats_after_recent_show_oldest "w1" 10 st
              {| userId := "w1"; email := None;
                 createdAt := "2025-01-01T12:00:00.000Z";
                 lastActivity := "2025-01-01T12:00:07.000Z";
                 totalUploads := 7; totalSizeBytes := 7000;
                 status := "active" |}
              (uploads_of st "w1"))
    as (s & hidden & Hs & Happ & Hperm & Hlen & Hord);
    [by vm_compute|by vm_compute|].
  exists s, hidden. fold st' in Hs, Happ, Hperm.
  split; [exact Hs|]. split; [exact Happ|]. split; [by vm_compute|].
  assert (Hrecent : rec_transactionId <$> recentUploads s
                    = ["tx5"; "tx4"; "tx3"; "tx2"; "tx1"]).
  { assert (Hv : getUserStats "w1" st'
                 = Some (default s (getUserStats "w1" st'))) by (by rewrite Hs).
    rewrite Hs in Hv at 1. injection Hv as Hv. rewrite Hv. by vm_compute. }
  split; [exact Hrecent|]. split; [|exact Hord].
  apply (f_equal length) in Happ. rewrite length_app in Happ.
  apply (f_equal length) in Hrecent. rewrite length_fmap in Hrecent.
  assert (Hall : length (uploads_of st' "w1") = 7%nat) by (by vm_compute).
  rewrite Hall, Hrecent in Happ. simpl in Happ. lia.
Defined.

End json_recent_uploads.

Section sqlite_dates.

(** A date text has ten characters. *)
Lemma date_part_length t : String.length (JSDate.date_part t) = 10%nat.
Proof.
  unfold JSDate.date_part. destruct (JSDate.civil _) as [[y m] d]. reflexivity.
Qed.

(** Texts that start with parts of one length compare as those parts do,
    and as their remainders when the parts are equal. *)
Lemma compare_app_same_length (p q a b : string) :
  String.length p = String.length q →
  String.compare (p +:+ a) (q +:+ b)
    = match String.compare p q with
      | Eq => String.compare a b
      | c => c
      end.
Proof.
  revert q. induction p as [|x p IH]; intros [|y q] Hl; try done.
  simpl in *. destruct (Ascii.compare x y); [|done|done].
  apply IH. by injection Hl.
Qed.

(** A stamped row against an ISO cutoff, under [>] and under [<]: the
    dates decide, and on one date the row is the smaller text. *)
Lemma stamp_gt_iso t c :
  Sqlite.text_gt (Sqlite.CURRENT_TIMESTAMP t) (JSDate.toISOString c)
    = Sqlite.text_gt (JSDate.date_part t) (JSDate.date_part c).
Proof.
  unfold Sqlite.text_gt, Sqlite.CURRENT_TIMESTAMP, JSDate.toISOString.
  rewrite compare_app_same_length
    by (by rewrite !date_part_length).
  by destruct (String.compare _ _).
Qed.

Lemma stamp_lt_iso t c :
  negb (Sqlite.text_lt (Sqlite.CURRENT_TIMESTAMP t) (JSDate.toISOString c))
    = Sqlite.text_gt (JSDate.date_part t) (JSDate.date_part c).
Proof.
  unfold Sqlite.text_lt, Sqlite.text_gt, Sqlite.CURRENT_TIMESTAMP,
    JSDate.toISOString.
  rewrite compare_app_same_length
    by (by rewrite !date_part_length).
  by destruct (String.compare _ _).
Qed.

(** X6.  The rate checks of the two SQLite ledgers look at calendar dates
    only.  Whatever identities and addresses the rows of the rate table
    belong to, when each row carries the stamp of the instant it was
    written at, the check of an identity admits exactly when fewer than
    the ceiling of that identity's rows have a UTC date whose text is
    greater than the text of the cutoff's date: the rows of other
    identities and the time of day of a row play no part, and a row of
    the cutoff's own date is never counted. *)
Theorem sqlite_rate_check_compares_dates_only :
  (∀ id ip w m now rows db,
     UserManager.rate_limits db = UserManager.logged rows →
     UserManager.allowed (UserManager.checkRateLimit id ip w m now db).1
       = bool_decide
           (Z.of_nat (length (List.filter
              (λ row, bool_decide (row.1.1 = id)
                      && Sqlite.text_gt (JSDate.date_part row.2)
                           (JSDate.date_part (now - w))) rows)) < m))
  ∧ (∀ wallet ip w m now rows db,
     ProductionDatabase.rate_limits db = ProductionDatabase.logged rows →
     ProductionDatabase.allowed
         (ProductionDatabase.checkRateLimit w m wallet ip now db).1
       = bool_decide
           (Z.of_nat (length (List.filter
              (λ row, bool_decide (row.1.1 = wallet)
                      && Sqlite.text_gt (JSDate.date_part row.2)
                           (JSDate.date_part (now - w))) rows)) < m)).
Proof.
  split.
  - intros id ip w m now rows db Hrows. unfold UserManager.checkRateLimit.
    rewrite Hrows.
    assert (Hf : length (List.filter
                   (UserManager.counted id (JSDate.toISOString (now - w)))
                   (UserManager.logged rows))
                 = length (List.filter
                     (λ row, bool_decide (row.1.1 = id)
                             && Sqlite.text_gt (JSDate.date_part row.2)
                                  (JSDate.date_part (now - w))) rows)).
    { clear Hrows. induction rows as [|[[u a] t] rows IH]; [done|].
      unfold UserManager.logged in *. rewrite fmap_cons. cbn [List.filter].
      unfold UserManager.counted at 1.
      cbn [UserManager.rl_user_id UserManager.request_time fst snd].
      rewrite stamp_gt_iso.
      destruct (_ && _); simpl; by rewrite IH. }
    rewrite Hf. destruct (_ <? m) eqn:Hlt; simpl.
    + apply Z.ltb_lt in Hlt. by rewrite bool_decide_eq_true_2.
    + apply Z.ltb_ge in Hlt. rewrite bool_decide_eq_false_2; [done|lia].
  - intros wallet ip w m now rows db Hrows.
    unfold ProductionDatabase.checkRateLimit. rewrite Hrows.
    assert (Hf : length (List.filter
                   (ProductionDatabase.counted wallet (JSDate.toISOString (now - w)))
                   (ProductionDatabase.logged rows))
                 = length (List.filter
                     (λ row, bool_decide (row.1.1 = wallet)
                             && Sqlite.text_gt (JSDate.date_part row.2)
                                  (JSDate.date_part (now - w))) rows)).
    { clear Hrows. induction rows as [|[[u a] t] rows IH]; [done|].
      unfold ProductionDatabase.logged in *. rewrite fmap_cons.
      cbn [List.filter]. unfold ProductionDatabase.counted at 1.
      cbn [ProductionDatabase.rl_wallet_address ProductionDatabase.request_time
           fst snd].
      rewrite stamp_gt_iso.
      destruct (_ && _); simpl; by rewrite IH. }
    rewrite Hf. destruct (_ <? m) eqn:Hlt; simpl.
    + apply Z.ltb_lt in Hlt. by rewrite bool_decide_eq_true_2.
    + apply Z.ltb_ge in Hlt. rewrite bool_decide_eq_false_2; [done|lia].
Qed.

(** Requests of "w1" at 12:00:30 and of "w2" five seconds later, then
    "w1" checked again at 12:00:40, on either ledger: the row of "w1" is
    of the cutoff's date, so nothing is counted and "w1" is admitted
    over its ceiling of one. *)
Lemma sqlite_rate_check_compares_dates_only_witness :
  let t0 := 1735732830000 in
  let rows := [ ("w1", "10.0.0.1", t0); ("w2", "10.0.0.2", t0 + 5000) ] in
  UserManager.allowed
      (UserManager.checkRateLimit "w1" "10.0.0.1" 60000 1 (t0 + 10000)
         (UserManager.checkRateLimit "w2" "10.0.0.2" 60000 1 (t0 + 5000)
            (UserManager.checkRateLimit "w1" "10.0.0.1" 60000 1 t0
               UserManager.empty).2).2).1
    = true
  ∧ ProductionDatabase.allowed
      (ProductionDatabase.checkRateLimit 60000 1 "w1" "10.0.0.1" (t0 + 10000)
         (ProductionDatabase.checkRateLimit 60000 1 "w2" "10.0.0.2" (t0 + 5000)
            (ProductionDatabase.checkRateLimit 60000 1 "w1" "10.0.0.1" t0
               ProductionDatabase.empty).2).2).1
    = true.
Proof.
  intros t0 rows. split.
  - rewrite (proj1 sqlite_rate_check_compares_dates_only "w1" "10.0.0.1"
               60000 1 (t0 + 10000) rows); [|reflexivity].
    by vm_compute.
  - rewrite (proj2 sqlite_rate_check_compares_dates_only "w1" "10.0.0.1"
               60000 1 (t0 + 10000) rows); [|reflexivity].
    by vm_compute.
Defined.

(** X7.  [cleanupOldRateLimits] deletes by calendar date, not by age.  A
    rate row stamped at the instant [t] survives the cleanup exactly when
    the text of its UTC date is greater than the text of the date of the
    cutoff, ten windows before now; so a row stamped on the cutoff's date
    is deleted even when it is newer than the cutoff.  The other tables
    are left alone. *)
Theorem cleanupOldRateLimits_deletes_by_date cfg (w : IrysUploadService.World)
    (r : ProductionDatabase.rate_row) t :
  ProductionDatabase.request_time r = Sqlite.CURRENT_TIMESTAMP t →
  let cutoff := now (IrysUploadService.pr_sys w)
                - IrysUploadService.RATE_LIMIT_WINDOW cfg * 10 in
  let w' := IrysUploadService.cleanupOldRateLimits cfg w in
  (r ∈ ProductionDatabase.rate_limits (IrysUploadService.db w')
     ↔ r ∈ ProductionDatabase.rate_limits (IrysUploadService.db w)
       ∧ Sqlite.text_gt (JSDate.date_part t) (JSDate.date_part cutoff) = true)
  ∧ (JSDate.date_part t = JSDate.date_part cutoff →
     r ∉ ProductionDatabase.rate_limits (IrysUploadService.db w'))
  ∧ ProductionDatabase.uploads (IrysUploadService.db w')
      = ProductionDatabase.uploads (IrysUploadService.db w)
  ∧ ProductionDatabase.token_assets (IrysUploadService.db w')
      = ProductionDatabase.token_assets (IrysUploadService.db w)
  ∧ ProductionDatabase.users (IrysUploadService.db w')
      = ProductionDatabase.users (IrysUploadService.db w).
Proof.
  intros Hr cutoff w'. subst w'.
  unfold IrysUploadService.cleanupOldRateLimits.
  cbn [IrysUploadService.db ProductionDatabase.rate_limits
       ProductionDatabase.uploads ProductionDatabase.users
       ProductionDatabase.token_assets].
  fold cutoff.
  assert (Hin : ∀ l,
    r ∈ List.filter
          (λ r0, negb (Sqlite.text_lt (ProductionDatabase.request_time r0)
                         (JSDate.toISOString cutoff))) l
    ↔ r ∈ l ∧ Sqlite.text_gt (JSDate.date_part t) (JSDate.date_part cutoff) = true).
  { intros l. rewrite !list_elem_of_In, List.filter_In, Hr, stamp_lt_iso. done. }
  split; [apply Hin|]. split; [|done].
  intros Hd Hmem. apply Hin in Hmem as [_ Hgt].
  unfold Sqlite.text_gt in Hgt. rewrite Hd in Hgt.
  assert (He : String.compare (JSDate.date_part cutoff) (JSDate.date_part cutoff) = Eq).
  { by apply OrderedTypeEx.String_as_OT.cmp_eq. }
  by rewrite He in Hgt.
Qed.

(** The row of a request admitted at noon is gone after a cleanup run at
    that very instant, whose cutoff is 11:50 of the same day. *)
Lemma cleanupOldRateLimits_deletes_by_date_witness :
  let r := {| ProductionDatabase.rl_wallet_address := "w1";
              ProductionDatabase.request_time := "2025-01-01 12:00:00";
              ProductionDatabase.ip_address := "10.0.0.1" |} in
  r ∈ ProductionDatabase.rate_limits (IrysUploadService.db world_after_rate_check)
  ∧ r ∉ ProductionDatabase.rate_limits
          (IrysUploadService.db
             (IrysUploadService.cleanupOldRateLimits production_defaults
                world_after_rate_check)).
Proof.
  intros r. split; [by apply list_elem_of_singleton|].
  apply (proj1 (proj2 (cleanupOldRateLimits_deletes_by_date production_defaults
                         world_after_rate_check r 1735732800000 eq_refl))).
  reflexivity.
Defined.

End sqlite_dates.

Section sqlite_ledger_invariant.
Import UserManager.

Lemma ids_upto_snoc n : ids_upto (S n) = ids_upto n ++ [Z.of_nat n + 1].
Proof.
  unfold ids_upto. rewrite seq_S, fmap_app. simpl. do 2 f_equal. lia.
Qed.

Lemma ids_upto_bounds n x : x ∈ ids_upto n → 1 ≤ x ≤ Z.of_nat n.
Proof.
  unfold ids_upto. intros (k & -> & Hk)%list_elem_of_fmap.
  apply elem_of_seq in Hk. lia.
Qed.

Lemma history_of_snoc (row : upload_row) l id :
  List.filter (λ r, String.eqb (up_user_id r) id) (l ++ [row])
    = List.filter (λ r, String.eqb (up_user_id r) id) l
      ++ (if String.eqb (up_user_id row) id then [row] else []).
Proof. rewrite List.filter_app. simpl. by destruct (String.eqb _ _). Qed.

Lemma sqlite_total_size_snoc l row :
  total_size (l ++ [row]) = total_size l + file_size row.
Proof.
  unfold total_size. induction l as [|x l IH]; simpl; [lia|]. rewrite IH. lia.
Qed.

Lemma set_status_id x st r : au_id (set_status x st r) = au_id r.
Proof. unfold set_status. by destruct (bool_decide _). Qed.

(** A status written under an id that no row carries changes nothing. *)
Lemma set_status_absent x st (l : list active_row) :
  x ∉ au_id <$> l → set_status x st <$> l = l.
Proof.
  induction l as [|r l IH]; [done|].
  rewrite fmap_cons, not_elem_of_cons. intros [Hne Hl].
  rewrite fmap_cons, IH by done. f_equal.
  unfold set_status. rewrite bool_decide_eq_false_2; [done|congruence].
Qed.

Lemma sqlite_ledger_inv_empty : ledger_inv ∅ empty.
Proof. repeat split; done. Qed.

Lemma sqlite_ledger_inv_step seen db o :
  ledger_inv seen db →
  (match o with RecordUpload id _ _ => id ∈ seen | _ => True end) →
  ledger_inv
    (match o with CreateOrGetUser id _ _ => {[id]} ∪ seen | _ => seen end)
    (step db o).
Proof.
  intros (Hc & Hs & Hn) Hpre.
  destruct o as [i mail now|i d now|i ip w m now|i sid name now|x st]; simpl;
    unfold ledger_inv.
  - unfold createOrGetUser.
    cbn [snd user_sessions upload_history rate_limits active_uploads].
    split; [|split].
    + intros j v Hv. unfold history_of in *. simpl in *.
      destruct (decide (j = i)) as [->|Hne].
      * rewrite lookup_insert_eq in Hv. injection Hv as <-.
        destruct (user_sessions db !! i) as [u|] eqn:Hi; simpl.
        -- by apply Hc.
        -- by rewrite (Hn i Hi).
      * rewrite lookup_insert_ne in Hv by done. by apply Hc.
    + intros j Hj. simpl. destruct (decide (j = i)) as [->|Hne].
      * rewrite lookup_insert_eq. eauto.
      * rewrite lookup_insert_ne by done. apply Hs.
        apply elem_of_union in Hj as [Hj|Hj]; [|done].
        by apply elem_of_singleton in Hj.
    + intros j Hj. unfold history_of in *. simpl in *.
      destruct (decide (j = i)) as [->|Hne].
      * by rewrite lookup_insert_eq in Hj.
      * rewrite lookup_insert_ne in Hj by done. by apply Hn.
  - destruct (Hs i Hpre) as [u Hi].
    unfold recordUpload.
    cbn [snd user_sessions upload_history rate_limits active_uploads].
    split; [|split].
    + intros j v Hv. unfold history_of in *. simpl in *.
      rewrite history_of_snoc. simpl.
      destruct (decide (j = i)) as [->|Hne].
      * rewrite lookup_alter_eq, Hi in Hv. simpl in Hv. injection Hv as <-.
        rewrite String.eqb_refl, length_app, sqlite_total_size_snoc. simpl.
        destruct (Hc i u Hi) as [-> ->]. unfold history_of. lia.
      * rewrite lookup_alter_ne in Hv by done.
        assert (String.eqb i j = false) as ->
          by (apply String.eqb_neq; congruence).
        rewrite app_nil_r. by apply Hc.
    + intros j Hj. simpl. destruct (decide (j = i)) as [->|Hne].
      * rewrite lookup_alter_eq, Hi. eauto.
      * rewrite lookup_alter_ne by done. by apply Hs.
    + intros j Hj. unfold history_of in *. simpl in *.
      destruct (decide (j = i)) as [->|Hne].
      * rewrite lookup_alter_eq, Hi in Hj. done.
      * rewrite lookup_alter_ne in Hj by done. rewrite history_of_snoc. simpl.
        assert (String.eqb i j = false) as ->
          by (apply String.eqb_neq; congruence).
        rewrite app_nil_r. by apply Hn.
  - unfold checkRateLimit. by destruct (_ <? _).
  - done.
  - done.
Qed.

Lemma sqlite_ledger_inv_run ops : ∀ seen db,
  ledger_inv seen db → preceded seen ops = true →
  stats_consistent (run ops db).
Proof.
  induction ops as [|o ops IH]; intros seen db Hinv Hp; [by destruct Hinv|].
  unfold run. simpl. fold (run ops (step db o)).
  destruct o as [i mail now|i d now|i ip w m now|i sid name now|x st];
    simpl in Hp.
  - eapply IH; [|exact Hp].
    by apply (sqlite_ledger_inv_step seen db (CreateOrGetUser i mail now)).
  - apply andb_prop in Hp as [Hin Hp]. apply bool_decide_eq_true in Hin.
    eapply IH; [|exact Hp].
    by apply (sqlite_ledger_inv_step seen db (RecordUpload i d now)).
  - eapply IH; [|exact Hp].
    by apply (sqlite_ledger_inv_step seen db (CheckRateLimit i ip w m now)).
  - eapply IH; [|exact Hp].
    by apply (sqlite_ledger_inv_step seen db (StartUpload i sid name now)).
  - eapply IH; [|exact Hp].
    by apply (sqlite_ledger_inv_step seen db (CompleteUpload x st)).
Qed.

(** The ids of both AUTOINCREMENT tables are [1, ..., n] in the order of
    the rows. *)
Lemma sqlite_ids_step db o :
  up_id <$> upload_history db = ids_upto (length (upload_history db)) →
  au_id <$> active_uploads db = ids_upto (length (active_uploads db)) →
  up_id <$> upload_history (step db o)
    = ids_upto (length (upload_history (step db o)))
  ∧ au_id <$> active_uploads (step db o)
    = ids_upto (length (active_uploads (step db o))).
Proof.
  intros Hu Ha.
  destruct o as [i mail now|i d now|i ip w m now|i sid name now|x st]; simpl.
  - done.
  - split; [|done]. rewrite fmap_app, length_app, Hu. simpl.
    by rewrite Nat.add_1_r, ids_upto_snoc.
  - unfold checkRateLimit. by destruct (_ <? _).
  - split; [done|]. rewrite fmap_app, length_app, Ha. simpl.
    by rewrite Nat.add_1_r, ids_upto_snoc.
  - split; [done|]. rewrite length_fmap, <- Ha, <- list_fmap_compose.
    apply list_fmap_ext. intros k r _. simpl. apply set_status_id.
Qed.

Lemma sqlite_ids_run ops : ∀ db,
  up_id <$> upload_history db = ids_upto (length (upload_history db)) →
  au_id <$> active_uploads db = ids_upto (length (active_uploads db)) →
  up_id <$> upload_history (run ops db)
    = ids_upto (length (upload_history (run ops db)))
  ∧ au_id <$> active_uploads (run ops db)
    = ids_upto (length (active_uploads (run ops db))).
Proof.
  induction ops as [|o ops IH]; intros db Hu Ha; [done|].
  unfold run. simpl.
  destruct (sqlite_ids_step db o Hu Ha) as [Hu' Ha']. by apply IH.
Qed.

(** X8.  On the SQLite ledger of [user-database.js], from an empty
    database, every sequence of calls in which each [recordUpload] comes
    after a [createOrGetUser] of the same identity keeps, for every
    session row, [total_uploads] equal to the number of upload rows of
    that identity and [total_size_bytes] equal to the sum of their sizes;
    and the upload ids handed out are 1, 2, 3, ... in the order of the
    rows, whatever the sequence. *)
Theorem sqlite_statistics_follow_uploads ops :
  let db := run ops empty in
  (preceded ∅ ops = true → stats_consistent db)
  ∧ up_id <$> upload_history db = ids_upto (length (upload_history db)).
Proof.
  intros db. split.
  - intros Hp.
    by apply (sqlite_ledger_inv_run ops ∅ empty sqlite_ledger_inv_empty).
  - by apply (sqlite_ids_run ops empty).
Qed.

(** The sample session: the counters of "w1" and "w2". *)
Lemma sqlite_statistics_follow_uploads_witness :
  let db := run sqlite_session empty in
  stats_consistent db
  ∧ up_id <$> upload_history db = ids_upto (length (upload_history db)).
Proof.
  intros db.
  destruct (sqlite_statistics_follow_uploads sqlite_session) as [Hs Hi].
  split; [apply Hs; reflexivity|exact Hi].
Defined.

(** X9.  On every ledger reached from the empty one, [completeUpload]
    with the id that [startUpload] returned sets the status of the row
    that [startUpload] inserted and of no other row; when the status set
    is not "uploading", [getUserStats] then answers for every identity as
    it did before the upload was opened.  [completeUpload] with an id that
    was never handed out changes nothing. *)
Theorem sqlite_complete_closes_what_start_opened ops id sessionId name now st :
  let db := run ops empty in
  let s := startUpload id sessionId name now db in
  s.1 = Z.of_nat (length (active_uploads db)) + 1
  ∧ active_uploads (completeUpload s.1 st s.2)
      = active_uploads db ++
        [ {| au_id := s.1; au_user_id := id; session_id := sessionId;
             au_file_name := name;
             started_at := Sqlite.CURRENT_TIMESTAMP now;
             au_status := st |} ]
  ∧ (st ≠ "uploading" →
     ∀ j, getUserStats j (completeUpload s.1 st s.2) = getUserStats j db)
  ∧ (∀ x, x ≤ 0 ∨ Z.of_nat (length (active_uploads db)) < x →
       completeUpload x st db = db).
Proof.
  intros db s.
  assert (Ha : au_id <$> active_uploads db = ids_upto (length (active_uploads db))).
  { subst db. by apply sqlite_ids_run. }
  assert (Hout : ∀ x, x ≤ 0 ∨ Z.of_nat (length (active_uploads db)) < x →
                   x ∉ au_id <$> active_uploads db).
  { intros x Hx Hin. rewrite Ha in Hin. apply ids_upto_bounds in Hin. lia. }
  assert (Hrows : active_uploads (completeUpload s.1 st s.2)
      = active_uploads db ++
        [ {| au_id := s.1; au_user_id := id; session_id := sessionId;
             au_file_name := name;
             started_at := Sqlite.CURRENT_TIMESTAMP now;
             au_status := st |} ]).
  { subst s. unfold completeUpload, startUpload.
    cbn [fst snd active_uploads]. rewrite fmap_app.
    rewrite set_status_absent by (apply Hout; lia).
    f_equal. simpl. unfold set_status. simpl.
    by rewrite bool_decide_eq_true_2. }
  split; [done|]. split; [exact Hrows|]. split.
  - intros Hst j. unfold getUserStats.
    change (user_sessions (completeUpload s.1 st s.2)) with (user_sessions db).
    destruct (user_sessions db !! j) as [u|]; [|done].
    rewrite Hrows, List.filter_app. cbn [List.filter].
    assert (joined u {| au_id := s.1; au_user_id := id; session_id := sessionId;
                        au_file_name := name;
                        started_at := Sqlite.CURRENT_TIMESTAMP now;
                        au_status := st |} = false) as ->.
    { unfold joined. simpl. apply andb_false_iff. right.
      by apply String.eqb_neq. }
    by rewrite app_nil_r.
  - intros x Hx. unfold completeUpload.
    rewrite set_status_absent by by apply Hout.
    by destruct db.
Qed.

(** After the sample session, an upload of "w1" opened and completed, and
    a completion under the id 7 that no upload has. *)
Lemma sqlite_complete_closes_what_start_opened_witness :
  let db := run sqlite_session empty in
  let s := startUpload "w1" "session-3" "song.mp3" 1735732805000 db in
  (∀ j, getUserStats j (completeUpload s.1 "completed" s.2) = getUserStats j db)
  ∧ completeUpload 7 "completed" db = db.
Proof.
  intros db s. split.
  - apply (proj1 (proj2 (proj2 (sqlite_complete_closes_what_start_opened
             sqlite_session "w1" "session-3" "song.mp3" 1735732805000
             "completed")))).
    intros H. discriminate H.
  - apply (proj2 (proj2 (proj2 (sqlite_complete_closes_what_start_opened
             sqlite_session "w1" "session-3" "song.mp3" 1735732805000
             "completed")))).
    right. vm_compute. reflexivity.
Defined.

End sqlite_ledger_invariant.

Section production_dashboard.
Import ProductionDatabase.

Lemma left_join_one {A B} (on : A → B → bool) (a : A) (r : list B) :
  left_join on [a] r
    = match List.filter (on a) r with
      | [] => [(a, None)]
      | ms => (λ b, (a, Some b)) <$> ms
      end.
Proof. unfold left_join. simpl. by rewrite app_nil_r. Qed.

Lemma left_join_cons {A B} (on : A → B → bool) (a : A) (l : list A) (r : list B) :
  left_join on (a :: l) r = left_join on [a] r ++ left_join on l r.
Proof. unfold left_join. simpl. by rewrite app_nil_r. Qed.

Lemma left_join_length_one {A B} (on : A → B → bool) (a : A) (r : list B) :
  length (left_join on [a] r) = Nat.max (length (List.filter (on a) r)) 1.
Proof.
  rewrite left_join_one. destruct (List.filter (on a) r) as [|b ms]; [done|].
  rewrite length_fmap. simpl. lia.
Qed.

(** The joined rows of one row [a]: how many carry a row of the right
    table, and how many carry a value read from [a]. *)
Lemma left_join_one_counts {A B C} (on : A → B → bool) (a : A) (r : list B)
    (f : A → option C) :
  length (omap snd (left_join on [a] r)) = length (List.filter (on a) r)
  ∧ length (omap (λ row, f row.1) (left_join on [a] r))
    = (length (omap f [a]) * Nat.max (length (List.filter (on a) r)) 1)%nat.
Proof.
  rewrite left_join_one. destruct (List.filter (on a) r) as [|b ms].
  - simpl. destruct (f a); simpl; done.
  - assert (Hne : (0 < length (b :: ms))%nat) by (simpl; lia).
    revert Hne. generalize (b :: ms). intros l Hne. split.
    + clear Hne. induction l as [|x xs IHx]; simpl; [done|]. f_equal. exact IHx.
    + replace (Nat.max (length l) 1) with (length l `max` 1)%nat by done.
      simpl. destruct (f a) as [c|] eqn:Hf; simpl.
      * rewrite Nat.add_0_r.
        assert (length (omap (λ row : A * option B, f row.1)
                  ((λ b0, (a, Some b0)) <$> l)) = length l) as Hl.
        { clear -Hf. induction l as [|x xs IHx]; simpl; [done|].
          rewrite Hf. simpl. f_equal. exact IHx. }
        rewrite Hl. lia.
      * clear -Hf. induction l as [|x xs IHx]; simpl; [done|].
        rewrite Hf. exact IHx.
Qed.

(** Joining rows that all have the same rows [ms] to be joined with. *)
Lemma left_join_uniform {A B} (on : A → B → bool) (l : list A) (r ms : list B) :
  (∀ a, a ∈ l → List.filter (on a) r = ms) →
  length (omap snd (left_join on l r)) = (length l * length ms)%nat
  ∧ ∀ {C} (f : A → option C),
      length (omap (λ row, f row.1) (left_join on l r))
        = (length (omap f l) * Nat.max (length ms) 1)%nat.
Proof.
  intros Hall. induction l as [|a l IH]; [done|].
  destruct IH as [IH1 IH2]. { intros x Hx. apply Hall. by right. }
  rewrite left_join_cons. split.
  - rewrite omap_app, length_app, IH1.
    rewrite (proj1 (left_join_one_counts on a r (λ _, @None unit))).
    rewrite (Hall a) by by left. simpl. done.
  - intros C f. rewrite omap_app, length_app, (IH2 C f).
    rewrite (proj2 (left_join_one_counts on a r f)).
    rewrite (Hall a) by by left.
    generalize (Nat.max (length ms) 1). intros M.
    unfold omap. simpl. destruct (f a); simpl; lia.
Qed.

(** X10.  The dashboard query of the production ledger joins the wallet's
    uploads and its tokens to the one user row, so its counts multiply:
    for a wallet with [U] upload rows and [T] token rows, [token_count]
    is [T] times [U] (times one when there is no upload), not [T], and
    [recent_urls] and [recent_files] each hold [U] times [T] values
    (times one when there is no token). *)
Theorem dashboard_token_count_multiplies wallet db u :
  users db !! wallet = Some u →
  let U := length (List.filter
             (λ up, String.eqb (wallet_address u) (up_wallet_address up))
             (uploads db)) in
  let T := length (List.filter
             (λ ta, String.eqb (wallet_address u) (tk_wallet_address ta))
             (token_assets db)) in
  ∃ d, getUserDashboard wallet db = Some d
    ∧ token_count d = Z.of_nat (T * Nat.max U 1)
    ∧ length (recent_urls d) = (U * Nat.max T 1)%nat
    ∧ length (recent_files d) = (U * Nat.max T 1)%nat
    ∧ dh_total_uploads d = total_uploads u.
Proof.
  intros Hu U T. unfold getUserDashboard. rewrite Hu.
  eexists. split; [done|].
  cbn [token_count recent_urls recent_files dh_total_uploads].
  set (wu := left_join _ [u] (uploads db)).
  assert (Hall : ∀ x, x ∈ wu →
    List.filter (λ ta, String.eqb (wallet_address x.1) (tk_wallet_address ta))
      (token_assets db)
    = List.filter (λ ta, String.eqb (wallet_address u) (tk_wallet_address ta))
        (token_assets db)).
  { intros x Hx. subst wu. rewrite left_join_one in Hx.
    destruct (List.filter _ (uploads db)) as [|b ms].
    - apply list_elem_of_singleton in Hx. by subst x.
    - apply list_elem_of_fmap in Hx as (y & -> & _). done. }
  destruct (left_join_uniform
              (λ (x : user_row * option upload_row) ta,
                 String.eqb (wallet_address x.1) (tk_wallet_address ta))
              wu (token_assets db) _ Hall) as [H1 H2].
  assert (Hwu : length wu = Nat.max U 1) by apply left_join_length_one.
  assert (Hsome : ∀ {C} (g : upload_row → C),
            length (omap (λ x : user_row * option upload_row, g <$> x.2) wu) = U).
  { intros C g. subst wu U. rewrite left_join_one.
    destruct (List.filter _ (uploads db)) as [|b ms]; [done|].
    generalize (b :: ms). intros l. induction l as [|x xs IHx]; simpl; [done|].
    f_equal. exact IHx. }
  split; [by rewrite H1, Hwu, Nat.mul_comm|].
  split; [|split; [|done]].
  - rewrite (H2 _ (λ x, public_url <$> x.2)). by rewrite Hsome.
  - rewrite (H2 _ (λ x, file_name <$> x.2)). by rewrite Hsome.
Qed.

(** A wallet with two uploads and one token is shown two tokens. *)
Lemma dashboard_token_count_multiplies_witness :
  ∃ d, getUserDashboard "w1" dashboard_sample = Some d
    ∧ token_count d = 2
    ∧ length (recent_urls d) = 2%nat
    ∧ length (recent_files d) = 2%nat
    ∧ dh_total_uploads d = 0.
Proof.
  destruct (dashboard_token_count_multiplies "w1" dashboard_sample
              {| wallet_address := "w1";
                 created_at := "2025-01-01 12:00:00";
                 last_activity := "2025-01-01 12:00:00";
                 total_uploads := 0; total_size_bytes := 0;
                 status := "active" |} eq_refl) as (d & Hd & H).
  exists d. split; [exact Hd|exact H].
Defined.

End production_dashboard.

Section tracked_upload_failure.
Import MultiUserService.

(** X11.  A tracked upload that fails after its tracking has started
    never marks the upload as failed.  When the rate check admits the
    request and the file passes validation, every failure of
    [uploadFileWithUserTracking] reaches the caller as the reference
    error of the [catch] block, raised before [completeUpload] is called,
    and the row that [startUpload] inserted stays in the ledger with the
    status "uploading". *)
Theorem failed_tracked_upload_stays_uploading cfg s path tags user ip
    (w : World) e w' f fileType :
  uploadFileWithUserTracking cfg s path tags user ip w = (Threw e, w') →
  UserManager.allowed
    (UserManager.checkRateLimit user ip 60000 60 (now (mu_sys w))
       (UserManager.createOrGetUser user None (now (mu_sys w)) (db w)).2).1
    = true →
  disk (mu_sys w) !! path = Some f →
  registry_get (Path.toLowerCase (Path.extname path)) FILE_TYPES = Some fileType →
  size f ≤ MAX_UPLOAD_SIZE cfg →
  e = ReferenceError "uploadSessionId"
  ∧ UserManager.active_uploads (db w')
      = UserManager.active_uploads (db w) ++
        [ {| UserManager.au_id :=
               Z.of_nat (length (UserManager.active_uploads (db w))) + 1;
             UserManager.au_user_id := user;
             UserManager.session_id := s;
             UserManager.au_file_name := Path.basename path;
             UserManager.started_at :=
               Sqlite.CURRENT_TIMESTAMP (now (mu_sys w));
             UserManager.au_status := "uploading" |} ].
Proof.
  intros H Hrate Hf Hft Hsz.
  unfold uploadFileWithUserTracking, try_catch in H.
  unfold bind at 1, query at 1 in H. cbn [fst snd mu_sys db connectionPool] in H.
  unfold bind at 1, query at 1 in H. cbn [fst snd mu_sys db connectionPool] in H.
  rewrite Hrate in H. cbn [negb] in H.
  set (rc := UserManager.checkRateLimit _ _ _ _ _ _) in H.
  assert (Ha2 : UserManager.active_uploads rc.2 = UserManager.active_uploads (db w)).
  { subst rc. unfold UserManager.checkRateLimit. by destruct (_ <? _). }
  unfold bind at 1, validate at 1 in H. cbn [mu_sys] in H.
  rewrite Hf, Hft in H.
  destruct (_ <? size f) eqn:Hlt; [apply Z.ltb_lt in Hlt; lia|].
  unfold bind at 1, query at 1 in H. cbn [fst snd mu_sys db connectionPool] in H.
  unfold bind at 1, getConnection at 1 in H. cbn [fst snd mu_sys db connectionPool] in H.
  destruct (ConnectionPool.getConnection _ _ _) as [[c|e0|] p]; cbn [fst snd] in H.
  2: { settle H. cbn. by rewrite Ha2. }
  2: { by settle H. }
  unfold try_finally, bind at 1, readFileSync at 1 in H.
  cbn [get_sys has_sys mu_sys with_wallet_call disk] in H. rewrite Hf in H.
  unfold bind at 1, read at 1 in H.
  unfold bind at 1, upload at 1 in H.
  cbn [get_sys set_sys has_sys mu_sys with_wallet_call with_call calls replies db connectionPool] in H.
  destruct (replies (mu_sys w) (length (calls (mu_sys w)))) as [id|msg|] eqn:Hr.
  2,3: settle H; cbn; by rewrite Ha2.
  unfold bind, read, query, ret in H. cbn in H. simplify_eq.
Qed.

(** The upload of a valid logo that the network rejects. *)
Lemma failed_tracked_upload_stays_uploading_witness :
  let w := start multi_user_defaults
             (machine (one_file "logo.png" 1000) always_rejected) in
  let r := uploadFileWithUserTracking multi_user_defaults "session-1"
             "logo.png" [] "w1" "10.0.0.1" w in
  r.1 = Threw (ReferenceError "uploadSessionId")
  ∧ UserManager.au_status <$> UserManager.active_uploads (db r.2)
      = ["uploading"].
Proof.
  intros w r.
  destruct (failed_tracked_upload_stays_uploading multi_user_defaults
              "session-1" "logo.png" [] "w1" "10.0.0.1" w
              (ReferenceError "uploadSessionId") r.2
              {| size := 1000; data := Bytes "logo.png" |}
              {| mime := "image/png"; category := "image" |})
    as [_ Hrows].
  - apply pair_of_fst. by vm_compute.
  - by vm_compute.
  - by vm_compute.
  - by vm_compute.
  - by vm_compute.
  - split; [by vm_compute|]. rewrite Hrows. reflexivity.
Defined.

End tracked_upload_failure.

(* ================================================================== *)
(** * Further properties of the connection pools *)

Section pool_bounds.
Import UltraFastConnectionPool.

(** [splice] takes exactly one element when the connection is there. *)
Lemma remove_first_length c l :
  c ∈ l → S (length (remove_first c l)) = length l.
Proof.
  induction l as [|x l IH]; intros Hin; [by apply elem_of_nil in Hin|].
  simpl. destruct (decide (x = c)) as [->|Hne].
  - by rewrite bool_decide_eq_true_2.
  - rewrite bool_decide_eq_false_2 by done. simpl. f_equal. apply IH.
    apply elem_of_cons in Hin as [->|Hin]; done.
Qed.

(** [getConnection] is its first part followed at once by its second. *)
Lemma getConnection_begin_finish fresh me st :
  getConnection fresh me st
  = match beginConnection me st with
    | (Reused c, st') => (Got c, st')
    | (Building, st') => finishConnection fresh st'
    | (Queued, st') => (Suspended, st')
    end.
Proof.
  unfold getConnection, beginConnection, finishConnection.
  destruct (pop (pool st)) as [[rest c]|]; [done|].
  destruct (_ <? _); [|done]. by destruct fresh.
Qed.

Lemma pool_inv_step n s e :
  possible [e] s = true → pool_inv n s.1 → pool_inv n (step s e).1.
Proof.
  intros Hp (Hm & Ht). destruct s as [st k]. simpl in *.
  destruct e as [me|fresh|c]; simpl.
  - unfold beginConnection, pop.
    destruct (reverse (pool st)) as [|c rest] eqn:Hrev.
    + destruct (_ <? _); by split.
    + assert (Hpool : pool st = reverse rest ++ [c]).
      { apply (f_equal reverse) in Hrev.
        by rewrite reverse_involutive, reverse_cons in Hrev. }
      split; simpl; [done|].
      rewrite Hpool, length_app in Ht. rewrite length_app. simpl in *. lia.
  - destruct fresh as [e|c]; split; simpl; try done.
    rewrite length_app. simpl. lia.
  - apply andb_prop in Hp as [Hin _]. apply bool_decide_eq_true in Hin.
    pose proof (remove_first_length c _ Hin) as Hl.
    unfold releaseConnection. destruct (waiting st) as [|w rest]; simpl;
      (split; simpl; [done|]); rewrite length_app; simpl; lia.
Qed.

Lemma pool_inv_run n events : ∀ s,
  possible events s = true → pool_inv n s.1 → pool_inv n (run events s).1.
Proof.
  induction events as [|e events IH]; intros s Hp Hinv; [done|].
  simpl in Hp. apply andb_prop in Hp as [He Hp].
  unfold run. simpl. apply IH; [done|].
  apply pool_inv_step; [|done]. simpl. by rewrite He.
Qed.

(** With the builds apart, the connections created and the one being
    built are within the size. *)
Lemma pool_bound_run n events : ∀ s,
  possible events s = true → builds_apart events s = true →
  pool_inv n s.1 →
  created (stats s.1) + Z.of_nat s.2 ≤ Z.max n 0 →
  created (stats (run events s).1) + Z.of_nat (run events s).2 ≤ Z.max n 0.
Proof.
  induction events as [|e events IH]; intros s Hp Hb Hinv Hc; [done|].
  simpl in Hp, Hb. apply andb_prop in Hp as [He Hp].
  apply andb_prop in Hb as [Hbe Hb].
  unfold run. simpl. apply IH; [done|done| |].
  { apply pool_inv_step; [|done]. simpl. by rewrite He. }
  destruct Hinv as (Hm & Ht). destruct s as [st k]. simpl in *.
  destruct e as [me|fresh|c]; simpl.
  - revert Hbe. unfold beginConnection, pop.
    destruct (reverse (pool st)) as [|c rest] eqn:Hrev; [|done].
    assert (Hpool : pool st = []).
    { apply (f_equal reverse) in Hrev. by rewrite reverse_involutive in Hrev. }
    rewrite Hpool in Ht. simpl in Ht.
    destruct (_ <? _) eqn:Hlt; simpl; [|done].
    intros Hk. apply bool_decide_eq_true in Hk. subst k.
    apply Z.ltb_lt in Hlt. lia.
  - apply bool_decide_eq_true in He.
    destruct fresh as [e|c]; simpl; lia.
  - unfold releaseConnection. by destruct (waiting st).
Qed.

(** X12.  The books of [UltraFastConnectionPool] and the bound on its
    size.  Requests share the pool, and an acquisition that builds a
    connection is suspended at [await withWallet] between the test
    [active.length < maxConnections] and [active.push].  Through every
    sequence of events on a new pool of size [n] that can happen, the
    idle and the active connections together are exactly the connections
    created so far ([getStats] reports [poolSize + activeConnections =
    created]).  As long as no acquisition goes to build a connection
    while another one is building, the connections created are at most
    [n] (none when [n] is not positive).  The size does not bound them
    otherwise: two acquisitions that overlap on a new pool of size 1
    both pass the test and both build, which leaves two connections
    created and active. *)
Theorem ultra_fast_pool_bound_needs_builds_apart :
  (∀ n events,
     possible events (fresh_pool n) = true →
     let s := getStats (run events (fresh_pool n)).1 in
     poolSize s + activeConnections s = gs_created s
     ∧ maxConnections (run events (fresh_pool n)).1 = n)
  ∧ (∀ n events,
       possible events (fresh_pool n) = true →
       builds_apart events (fresh_pool n) = true →
       gs_created (getStats (run events (fresh_pool n)).1) ≤ Z.max n 0)
  ∧ (possible overlapping_builds (fresh_pool 1) = true
     ∧ builds_apart overlapping_builds (fresh_pool 1) = false
     ∧ getStats (run overlapping_builds (fresh_pool 1)).1
       = {| gs_created := 2; gs_reused := 0; gs_errors := 0;
            poolSize := 0; activeConnections := 2; waitingRequests := 0 |}
     ∧ maxConnections (run overlapping_builds (fresh_pool 1)).1 = 1).
Proof.
  split; [|split].
  - intros n events Hp s.
    destruct (pool_inv_run n events (fresh_pool n)) as (Hm & Ht);
      [done|done|]. by split.
  - intros n events Hp Hb.
    pose proof (pool_bound_run n events (fresh_pool n) Hp Hb) as H.
    simpl in *.
    assert (Hz : Z.of_nat (run events (fresh_pool n)).2 >= 0) by lia.
    enough (created (stats (run events (fresh_pool n)).1)
            + Z.of_nat (run events (fresh_pool n)).2 ≤ Z.max n 0) by lia.
    apply H; [done|lia].
  - by vm_compute.
Qed.

(** Three acquirers, one after the other, on a pool of two connections. *)
Lemma ultra_fast_pool_bound_needs_builds_apart_witness :
  let s := getStats (run pool_session (fresh_pool 2)).1 in
  (poolSize s + activeConnections s = gs_created s
   ∧ maxConnections (run pool_session (fresh_pool 2)).1 = 2)
  ∧ gs_created s ≤ Z.max 2 0
  ∧ s = {| gs_created := 2; gs_reused := 2; gs_errors := 0;
           poolSize := 2; activeConnections := 0; waitingRequests := 0 |}.
Proof.
  intros s.
  destruct ultra_fast_pool_bound_needs_builds_apart as (Hbooks & Hbound & _).
  split; [|split].
  - apply (Hbooks 2 pool_session). reflexivity.
  - apply (Hbound 2 pool_session); reflexivity.
  - reflexivity.
Defined.

End pool_bounds.

Section pool_reuse.

(** X13.  All three pools reuse the connection released last: with no
    acquirer waiting, an acquisition that follows a release gets the very
    connection that was released, without building one.  For
    [ConnectionPool] and for the pool of [api-production-final.js] the
    pair of calls leaves the pool exactly as it was; in
    [UltraFastConnectionPool] the idle set is as it was and the
    connection is active. *)
Theorem pools_reuse_last_released :
  (∀ c fresh me (st : ConnectionPool.State),
     ConnectionPool.waitingQueue st = [] →
     ConnectionPool.getConnection fresh me
       (ConnectionPool.releaseConnection c st).1 = (Got c, st))
  ∧ (∀ c fresh me (st : UltraFastConnectionPool.State),
     UltraFastConnectionPool.waiting st = [] →
     let r := UltraFastConnectionPool.getConnection fresh me
                (UltraFastConnectionPool.releaseConnection c st).1 in
     r.1 = Got c
     ∧ UltraFastConnectionPool.pool r.2 = UltraFastConnectionPool.pool st
     ∧ UltraFastConnectionPool.active r.2
         = remove_first c (UltraFastConnectionPool.active st) ++ [c]
     ∧ UltraFastConnectionPool.waiting r.2 = [])
  ∧ (∀ c fresh me (st : SimplePool.State),
     SimplePool.getConnection fresh me (SimplePool.releaseConnection c st).1
       = (Got c, st)).
Proof.
  split; [|split].
  - intros c fresh me [p a m q] Hq. simpl in Hq. subst q.
    unfold ConnectionPool.releaseConnection, ConnectionPool.getConnection.
    simpl. by rewrite pop_snoc.
  - intros c fresh me st Hq r. subst r.
    unfold UltraFastConnectionPool.releaseConnection,
      UltraFastConnectionPool.getConnection.
    rewrite Hq. simpl. by rewrite pop_snoc.
  - intros c fresh me [p a q].
    unfold SimplePool.releaseConnection, SimplePool.getConnection.
    simpl. by rewrite pop_snoc.
Qed.

(** Connection 7 released to a new pool of each class and asked for
    again, by an acquirer for whom building would fail. *)
Lemma pools_reuse_last_released_witness :
  ConnectionPool.getConnection (inl (WalletError "no key")) 1%nat
      (ConnectionPool.releaseConnection 7%nat (ConnectionPool.create 1)).1
    = (Got 7%nat, ConnectionPool.create 1)
  ∧ (UltraFastConnectionPool.getConnection (inl (WalletError "no key")) 1%nat
       (UltraFastConnectionPool.releaseConnection 7%nat
          (UltraFastConnectionPool.create 1)).1).1 = Got 7%nat.
Proof.
  split.
  - apply (proj1 pools_reuse_last_released). reflexivity.
  - apply (proj1 (proj2 pools_reuse_last_released) 7%nat
             (inl (WalletError "no key")) 1%nat
             (UltraFastConnectionPool.create 1)).
    reflexivity.
Defined.

(** A failed construction on a new pool of size one: the error is counted
    and the next acquirer builds. *)
Lemma ultra_fast_pool_failed_construction_witness :
  let st := UltraFastConnectionPool.create 1 in
  let r := UltraFastConnectionPool.getConnection
             (inl (WalletError "no key")) 0%nat st in
  r.1 = Failed (WalletError "no key")
  ∧ UltraFastConnectionPool.errors (UltraFastConnectionPool.stats r.2)
      = UltraFastConnectionPool.errors (UltraFastConnectionPool.stats st) + 1
  ∧ UltraFastConnectionPool.active r.2 = UltraFastConnectionPool.active st
  ∧ UltraFastConnectionPool.pool r.2 = []
  ∧ UltraFastConnectionPool.waiting r.2 = UltraFastConnectionPool.waiting st
  ∧ (UltraFastConnectionPool.getConnection (inr 5%nat) 1%nat r.2).1 = Got 5%nat.
Proof.
  apply (ultra_fast_pool_failed_construction (WalletError "no key") 5%nat
           0%nat 1%nat (UltraFastConnectionPool.create 1)).
  - reflexivity.
  - simpl. lia.
Defined.

End pool_reuse.

(* ================================================================== *)
(** * Further properties of the upload services *)

Section production_upload.
Import IrysUploadService.






End production_upload.

Section tracked_upload_success.
Import MultiUserService.



End tracked_upload_success.

(* ================================================================== *)
(** * Further properties of the token creators *)

Section registries.

(** A key has no entry exactly when it is not among the keys. *)
Lemma registry_get_None {A} k (l : list (string * A)) :
  registry_get k l = None ↔ k ∉ l.*1.
Proof.
  induction l as [|[k' v] l IH]; cbn.
  - split; [intros _; apply not_elem_of_nil|done].
  - destruct (String.eqb_spec k k') as [->|Hne].
    + split; [done|]. intros []. by left.
    + rewrite IH, not_elem_of_cons. split; [by intros ?; split|by intros [_ ?]].
Qed.

(** An entry found is an entry of the registry. *)
Lemma registry_get_Some {A} k (l : list (string * A)) v :
  registry_get k l = Some v → (k, v) ∈ l.
Proof.
  induction l as [|[k' v'] l IH]; cbn; [done|].
  destruct (String.eqb_spec k k') as [->|Hne].
  - intros [= ->]. by left.
  - intros H. right. by apply IH.
Qed.

End registries.

Section token_batches.
Import TokenUploader.

(** The addresses [uploadTokenAssets] returns are those of the two
    transactions it returns. *)
Lemma uploadTokenAssets_urls js td (w : PlainWorld) res w' :
  uploadTokenAssets js td w = (Returned res, w') →
  logoURL res = gateway (logoTxId res)
  ∧ metadataURL res = gateway (metadataTxId res).
Proof.
  intros H. unfold uploadTokenAssets, try_catch in H.
  unfold bind at 1, writeDocument at 1, update at 1 in H.
  unfold bind at 1 in H.
  match type of H with context [fastUpload ?p ?t ?w0] =>
    pose proof (fastUpload_spec p t w0) as Hlogo;
    destruct (fastUpload p t w0) as [[logoResult|e|] w1] end;
    specialize (Hlogo _ _ eq_refl).
  2,3: by settle H.
  destruct Hlogo as (_ & _ & _ & _ & Hu1).
  unfold bind at 1, writeDocument at 1, update at 1 in H.
  unfold bind at 1 in H.
  match type of H with context [fastUpload ?p ?t ?w0] =>
    pose proof (fastUpload_spec p t w0) as Hmeta;
    destruct (fastUpload p t w0) as [[metaResult|e|] w2] end;
    specialize (Hmeta _ _ eq_refl).
  2,3: by settle H.
  destruct Hmeta as (_ & _ & _ & _ & Hu2).
  unfold bind, update, read, ret, unlink in H. cbn in H.
  injection H as <- _. by cbn.
Qed.

(** X18.  [uploadMultipleTokens] answers for every token and never
    throws: when it returns, the array has one element per token, in the
    order given and carrying that token; a token that failed is recorded
    and the loop goes on; the addresses of a created token are those of
    its two transactions.  The metadata file is left on the disk exactly
    when the last token failed, since each later run overwrites the file
    an earlier failure left behind; for an empty list nothing changes. *)
Theorem uploadMultipleTokens_answers_for_every_token js tokensData :
  ∀ (w : PlainWorld) r w',
    uploadMultipleTokens js tokensData w = (r, w') →
    match r with
    | Returned results =>
        Forall2 (λ o tokenData,
                   match o with
                   | TokenCreated res td =>
                       td = tokenData
                       ∧ logoURL res = gateway (logoTxId res)
                       ∧ metadataURL res = gateway (metadataTxId res)
                   | TokenFailed _ td => td = tokenData
                   end) results tokensData
        ∧ match last results with
          | Some (TokenCreated _ _) => disk (plain_sys w') !! metadataPath = None
          | Some (TokenFailed _ _) => is_Some (disk (plain_sys w') !! metadataPath)
          | None => w' = w
          end
    | Threw _ => False
    | Unsettled => True
    end.
Proof.
  induction tokensData as [|td rest IH]; intros w r w' H.
  - cbn in H. unfold ret in H. simplify_eq. split; [constructor|done].
  - cbn [uploadMultipleTokens] in H.
    unfold bind at 1, try_catch at 1, bind at 1 in H.
    destruct (uploadTokenAssets js td w) as [[res|e|] w1] eqn:Hone.
    3: { by settle H. }
    all: pose proof (uploadTokenAssets_temp_file _ _ _ _ _ Hone) as Htmp;
      cbn beta iota in Htmp;
      unfold ret at 1 in H; unfold bind at 1 in H;
      destruct (uploadMultipleTokens js rest w1) as [[outs|e'|] w2] eqn:Hrest;
      apply IH in Hrest; [|done|by settle H];
      destruct Hrest as [Hall Hlast]; settle H;
      (split; [constructor; [|done]|]).
    + split; [done|]. by eapply uploadTokenAssets_urls.
    + destruct outs as [|o outs]; [cbn in Hlast; by subst|].
      rewrite last_cons.
      destruct (last (o :: outs)) eqn:Hl; [done|by apply last_None in Hl].
    + done.
    + destruct outs as [|o outs]; [cbn in Hlast; by subst|].
      rewrite last_cons.
      destruct (last (o :: outs)) eqn:Hl; [done|by apply last_None in Hl].
Qed.

(** A batch of two tokens, the second with a logo that is not there. *)
Lemma uploadMultipleTokens_answers_for_every_token_witness :
  let w := plain (machine (one_file "logo.png" 1000) always_receipt) in
  let r := TokenUploader.uploadMultipleTokens (λ _, 512)
             [sample_token "logo.png"; sample_token "missing.png"] w in
  match r.1 with
  | Returned results =>
      Forall2 (λ o tokenData,
                 match o with
                 | TokenUploader.TokenCreated res td =>
                     td = tokenData
                     ∧ TokenUploader.logoURL res
                         = gateway (TokenUploader.logoTxId res)
                     ∧ TokenUploader.metadataURL res
                         = gateway (TokenUploader.metadataTxId res)
                 | TokenUploader.TokenFailed _ td => td = tokenData
                 end) results
        [sample_token "logo.png"; sample_token "missing.png"]
      ∧ match last results with
        | Some (TokenUploader.TokenCreated _ _) =>
            disk (plain_sys r.2) !! TokenUploader.metadataPath = None
        | Some (TokenUploader.TokenFailed _ _) =>
            is_Some (disk (plain_sys r.2) !! TokenUploader.metadataPath)
        | None => r.2 = w
        end
  | Threw _ => False
  | Unsettled => True
  end.
Proof.
  intros w r.
  apply (uploadMultipleTokens_answers_for_every_token (λ _, 512)
           [sample_token "logo.png"; sample_token "missing.png"] w r.1 r.2).
  apply surjective_pairing.
Defined.

End token_batches.

Section cached_uploader.
Import TokenUploader.

(** What a [fastUpload] that returns leaves in the module variable. *)
Lemma fastUpload_uploader path tags (w : PlainWorld) res w' :
  fastUpload path tags w = (Returned res, w') →
  wallet (plain_sys w') = wallet (plain_sys w)
  ∧ match cachedUploader w with
    | Some c =>
        cachedUploader w' = Some c
        ∧ wallet_calls (plain_sys w') = wallet_calls (plain_sys w)
    | None =>
        wallet (plain_sys w) (wallet_calls (plain_sys w))
          = inr (default 0%nat (cachedUploader w'))
        ∧ is_Some (cachedUploader w')
        ∧ wallet_calls (plain_sys w') = S (wallet_calls (plain_sys w))
    end.
Proof.
  intros H. unfold fastUpload, try_catch in H.
  unfold bind at 1, validateFile at 1 in H. cbn [get_sys plain_has_sys] in H.
  destruct (disk (plain_sys w) !! path) as [f|] eqn:Hf.
  2: { by settle H. }
  destruct (_ <? size f).
  { by settle H. }
  unfold bind at 1, getCachedUploader at 1 in H.
  destruct (cachedUploader w) as [c|] eqn:Hc.
  - unfold bind at 1, readFileSync at 1 in H. cbn [get_sys plain_has_sys] in H.
    rewrite Hf in H.
    unfold bind at 1, upload at 1 in H.
    cbn [get_sys set_sys plain_has_sys plain_sys] in H.
    destruct (replies (plain_sys w) _) as [id|msg|].
    2,3: by settle H.
    unfold bind, read, ret in H. cbn in H. by simplify_eq.
  - unfold bind at 1 2, withWallet, update, ret at 1 in H.
    cbn [get_sys set_sys plain_has_sys plain_sys cachedUploader] in H.
    destruct (wallet (plain_sys w) (wallet_calls (plain_sys w))) as [e|c] eqn:Hw.
    { by settle H. }
    unfold bind at 1, readFileSync at 1 in H.
    cbn [get_sys plain_has_sys plain_sys with_wallet_call disk] in H.
    rewrite Hf in H.
    unfold bind at 1, upload at 1 in H.
    cbn [get_sys set_sys plain_has_sys plain_sys with_wallet_call replies calls] in H.
    destruct (replies (plain_sys w) _) as [id|msg|].
    2,3: by settle H.
    unfold bind, read, ret in H. cbn in H. simplify_eq. cbn. eauto.
Qed.

(** X19.  The token uploader builds its uploader at most once.  When
    [uploadTokenAssets] returns, both of its uploads went through one
    uploader: the cached one when there was one, with no call to the
    wallet service, and otherwise the one the wallet service gave on a
    single call, which is cached from then on. *)
Theorem token_uploader_builds_one_uploader js td (w : PlainWorld) res w' :
  uploadTokenAssets js td w = (Returned res, w') →
  match cachedUploader w with
  | Some c =>
      cachedUploader w' = Some c
      ∧ wallet_calls (plain_sys w') = wallet_calls (plain_sys w)
  | None =>
      ∃ c, wallet (plain_sys w) (wallet_calls (plain_sys w)) = inr c
           ∧ cachedUploader w' = Some c
           ∧ wallet_calls (plain_sys w') = S (wallet_calls (plain_sys w))
  end.
Proof.
  intros H. unfold uploadTokenAssets, try_catch in H.
  unfold bind at 1, writeDocument at 1, update at 1 in H.
  cbn [get_sys set_sys plain_has_sys plain_sys with_disk disk] in H.
  unfold bind at 1 in H.
  match type of H with context [fastUpload ?p ?t ?w0] =>
    destruct (fastUpload p t w0) as [[logoResult|e|] w1] eqn:Hlogo end.
  2,3: by settle H.
  apply fastUpload_uploader in Hlogo as [Hw1 Hlogo].
  cbn [cachedUploader plain_sys wallet wallet_calls with_disk] in Hlogo, Hw1.
  unfold bind at 1, writeDocument at 1, update at 1 in H.
  cbn [get_sys set_sys plain_has_sys plain_sys with_disk disk] in H.
  unfold bind at 1 in H.
  match type of H with context [fastUpload ?p ?t ?w0] =>
    destruct (fastUpload p t w0) as [[metaResult|e|] w2] eqn:Hmeta end.
  2,3: by settle H.
  apply fastUpload_uploader in Hmeta as [Hw2 Hmeta].
  cbn [cachedUploader plain_sys wallet wallet_calls with_disk] in Hmeta, Hw2.
  unfold bind, update, read, ret, unlink in H. cbn in H.
  injection H as _ <-. cbn.
  destruct (cachedUploader w) as [c|].
  - destruct Hlogo as [Hc1 Hn1]. rewrite Hc1 in Hmeta.
    destruct Hmeta as [Hc2 Hn2]. split; congruence.
  - destruct Hlogo as (Hc & [c Hc1] & Hn1). rewrite Hc1 in Hmeta, Hc.
    destruct Hmeta as [Hc2 Hn2]. exists c.
    split; [exact Hc|]. split; [exact Hc2|]. by rewrite Hn2, Hn1.
Qed.

(** A token created by a process that has no uploader yet. *)
Lemma token_uploader_builds_one_uploader_witness :
  let w := plain (machine (one_file "logo.png" 1000) always_receipt) in
  let r := TokenUploader.uploadTokenAssets (λ _, 512) (sample_token "logo.png") w in
  ∃ c, wallet (plain_sys w) (wallet_calls (plain_sys w)) = inr c
       ∧ cachedUploader r.2 = Some c
       ∧ wallet_calls (plain_sys r.2) = S (wallet_calls (plain_sys w)).
Proof.
  intros w r.
  apply (token_uploader_builds_one_uploader (λ _, 512) (sample_token "logo.png")
           w {| TokenUploader.logoURL := "https://gateway.irys.xyz/tx-0";
                TokenUploader.metadataURL := "https://gateway.irys.xyz/tx-1";
                TokenUploader.logoTxId := "tx-0";
                TokenUploader.metadataTxId := "tx-1";
                TokenUploader.totalTime := 850 |} r.2).
  apply pair_of_fst. by vm_compute.
Defined.

End cached_uploader.

Section enhanced_token_uploader.
Import EnhancedTokenUploader.

(** Every entry of the enhanced registry has the same [mime] and [type]. *)
Lemma getFileType_mime filePath :
  mime (getFileType filePath) = type (getFileType filePath).
Proof.
  unfold getFileType.
  destruct (registry_get _ FILE_TYPES) as [v|] eqn:Hv; [|done].
  apply registry_get_Some in Hv. cbn.
  assert (Hall : Forall (λ kv, mime kv.2 = type kv.2) FILE_TYPES)
    by (repeat constructor).
  rewrite Forall_forall in Hall. by apply Hall in Hv.
Qed.

(** The content type [fastUpload] sends is the type of the enhanced
    registry only for the six extensions [fastUpload] knows and for those
    neither knows. *)
Lemma enhanced_types_agree ext :
  TokenUploader.getContentType ext
    = type (default (ft "application/octet-stream") (registry_get ext FILE_TYPES))
  ↔ is_Some (registry_get ext TokenUploader.contentTypeMap)
    ∨ registry_get ext FILE_TYPES = None.
Proof.
  destruct (decide (ext ∈ FILE_TYPES.*1)) as [Hin|Hout].
  - cbn in Hin.
    repeat (apply elem_of_cons in Hin as [->|Hin]);
      [..|by apply elem_of_nil in Hin];
      vm_compute; (split; [intros [=]; left; eauto|intros _; reflexivity])
      || (split; [intros [=]|intros [[? [=]]|[=]]]).
  - assert (Hmap : registry_get ext TokenUploader.contentTypeMap = None).
    { apply registry_get_None. intros Hin. apply Hout. cbn in Hin |- *.
      repeat (apply elem_of_cons in Hin as [->|Hin]);
        [..|by apply elem_of_nil in Hin]; repeat constructor. }
    apply registry_get_None in Hout.
    unfold TokenUploader.getContentType. rewrite Hmap, Hout. cbn.
    split; eauto.
Qed.

(** X20.  When [uploadTokenAssets] of the enhanced uploader returns, the
    metadata document that went out declares the type detected for the
    logo, which is also the [logoType] returned, and the category follows
    from that type.  The logo itself went out under the content type
    [fastUpload] has for the extension, and the two agree only for the
    six extensions [fastUpload] knows and for those unknown to both
    registries: a [.webp] logo is declared [image/webp] and sent as
    [application/octet-stream]. *)
Theorem enhanced_uploader_declares_detected_type js td (w : PlainWorld) res w' :
  uploadTokenAssets js td w = (Returned res, w') →
  let ext := Path.toLowerCase (Path.extname (logoPath td)) in
  ∃ c1 c2 m rest,
    calls (plain_sys w') = calls (plain_sys w) ++ [c1; c2]
    ∧ sent_tags c1 = tag "Content-Type" (TokenUploader.getContentType ext) :: rest
    ∧ sent c2 = Document m
    ∧ ftype <$> md_files m = [logoType res]
    ∧ logoType res = type (getFileType (logoPath td))
    ∧ tr_category res = category_of (logoType res)
    ∧ (TokenUploader.getContentType ext = logoType res
       ↔ is_Some (registry_get ext TokenUploader.contentTypeMap)
         ∨ registry_get ext FILE_TYPES = None).
Proof.
  intros H ext. unfold uploadTokenAssets, try_catch in H.
  unfold bind at 1, writeDocument at 1, update at 1 in H.
  cbn [get_sys set_sys plain_has_sys plain_sys with_disk disk] in H.
  unfold bind at 1 in H.
  match type of H with context [TokenUploader.fastUpload ?p ?t ?w0] =>
    pose proof (fastUpload_spec p t w0) as Hlogo;
    destruct (TokenUploader.fastUpload p t w0) as [[logoResult|e|] w1] end;
    specialize (Hlogo _ _ eq_refl);
    cbn [plain_sys disk with_disk calls cachedUploader] in Hlogo.
  2,3: by settle H.
  destruct Hlogo as (Hd1 & f1 & _ & Hc1 & _).
  unfold bind at 1, writeDocument at 1, update at 1 in H.
  cbn [get_sys set_sys plain_has_sys plain_sys with_disk disk] in H.
  unfold bind at 1 in H.
  match type of H with context [TokenUploader.fastUpload ?p ?t ?w0] =>
    pose proof (fastUpload_spec p t w0) as Hmeta;
    destruct (TokenUploader.fastUpload p t w0) as [[metaResult|e|] w2] end;
    specialize (Hmeta _ _ eq_refl);
    cbn [plain_sys disk with_disk calls cachedUploader] in Hmeta.
  2,3: by settle H.
  destruct Hmeta as (Hd2 & f2 & Hf2 & Hc2 & _).
  rewrite lookup_insert_eq in Hf2. injection Hf2 as <-.
  unfold bind, update, read, ret, unlink in H. cbn in H.
  injection H as <- <-. cbn.
  rewrite Hc2, Hc1, <- app_assoc. cbn.
  eexists _, _, _, _. repeat split.
  - f_equal. apply getFileType_mime.
  - apply enhanced_types_agree.
  - apply enhanced_types_agree.
Qed.

(** A [.webp] logo: declared [image/webp], sent as
    [application/octet-stream]. *)
Lemma enhanced_uploader_declares_detected_type_witness :
  let w := plain (machine (one_file "logo.webp" 1000) always_receipt) in
  let r := EnhancedTokenUploader.uploadTokenAssets (λ _, 512)
             (sample_token "logo.webp") w in
  (head ∘ sent_tags) <$> calls (plain_sys r.2)
    = [ Some (tag "Content-Type" "application/octet-stream");
        Some (tag "Content-Type" "application/json") ]
  ∧ documents_sent (plain_sys r.2) = [ ["image/webp"] ]
  ∧ ¬ (is_Some (registry_get ".webp" TokenUploader.contentTypeMap)
       ∨ registry_get ".webp" EnhancedTokenUploader.FILE_TYPES = None).
Proof.
  intros w r.
  destruct (enhanced_uploader_declares_detected_type (λ _, 512)
              (sample_token "logo.webp") w
              {| EnhancedTokenUploader.logoURL := "https://gateway.irys.xyz/tx-0";
                 EnhancedTokenUploader.metadataURL := "https://gateway.irys.xyz/tx-1";
                 EnhancedTokenUploader.logoTxId := "tx-0";
                 EnhancedTokenUploader.metadataTxId := "tx-1";
                 EnhancedTokenUploader.logoType := "image/webp";
                 EnhancedTokenUploader.tr_category := "image";
                 EnhancedTokenUploader.totalTime := 850 |} r.2)
    as (c1 & c2 & m & rest & _ & _ & _ & _ & _ & _ & Hagree).
  - apply pair_of_fst. by vm_compute.
  - split; [by vm_compute|]. split; [by vm_compute|].
    intros H. apply Hagree in H. vm_compute in H. discriminate H.
Defined.

End enhanced_token_uploader.

Section temp_paths.

Lemma has_slash_app a b :
  Path.has_slash (a +:+ b) = Path.has_slash a || Path.has_slash b.
Proof.
  induction a as [|c a IH]; [done|].
  change (String c a +:+ b) with (String c (a +:+ b)).
  cbn [Path.has_slash]. by rewrite IH, orb_assoc.
Qed.

Lemma pretty_N_char_no_slash k : Ascii.eqb (pretty_N_char k) "/" = false.
Proof.
  destruct k as [|p]; [done|].
  do 4 (try (destruct p as [p|p|]; try reflexivity)).
Qed.

Lemma pretty_N_go_no_slash x : ∀ s,
  Path.has_slash (pretty_N_go x s) = Path.has_slash s.
Proof.
  induction (N.lt_wf_0 x) as [x _ IH]. intros s.
  destruct (decide (0 < x)%N) as [Hx|Hx].
  - rewrite pretty_N_go_step by done.
    rewrite IH by (apply N.div_lt; lia).
    cbn. by rewrite pretty_N_char_no_slash.
  - assert (x = 0%N) as -> by lia. by rewrite pretty_N_go_0.
Qed.

(** The decimal text of a number holds no slash. *)
Lemma pretty_Z_no_slash (t : Z) : Path.has_slash (pretty t) = false.
Proof.
  assert (HN : ∀ n : N, Path.has_slash (pretty n) = false).
  { intros n. unfold pretty, pretty_N. destruct (decide _); [done|].
    by rewrite pretty_N_go_no_slash. }
  destruct t as [|p|p]; [done|apply HN|].
  change (pretty (Z.neg p)) with ("-" +:+ pretty (N.pos p)).
  rewrite has_slash_app. exact (HN (N.pos p)).
Qed.

Lemma from_last_dot_json p :
  Path.from_last_dot (p +:+ ".json") = Some ".json".
Proof.
  induction p as [|c p IH]; [done|].
  change (String c p +:+ ".json") with (String c (p +:+ ".json")).
  cbn [Path.from_last_dot]. by rewrite IH.
Qed.

(** The metadata file of the size-restricted creator has the extension
    of a document, whatever the clock shows. *)
Lemma creator_metadataPath_is_json t :
  Path.toLowerCase (Path.extname (TokenCreator.metadataPath t)) = ".json".
Proof.
  unfold TokenCreator.metadataPath, Path.extname.
  assert (Hb : Path.basename ("./temp_metadata_" +:+ pretty t +:+ ".json")
               = "temp_metadata_" +:+ pretty t +:+ ".json").
  { change ("./temp_metadata_" +:+ pretty t +:+ ".json")
      with (String "." (String "/" ("temp_metadata_" +:+ pretty t +:+ ".json"))).
    cbn [Path.basename Path.has_slash]. cbn [Ascii.eqb Bool.eqb orb].
    assert (Hs : Path.has_slash ("temp_metadata_" +:+ pretty t +:+ ".json") = false).
    { by rewrite !has_slash_app, pretty_Z_no_slash. }
    change ("temp_metadata_" +:+ pretty t +:+ ".json")
      with (String "t" ("emp_metadata_" +:+ pretty t +:+ ".json")) in Hs |- * at 1 2.
    by rewrite Hs. }
  rewrite Hb.
  change ("temp_metadata_" +:+ pretty t +:+ ".json")
    with (String "t" (("emp_metadata_" +:+ pretty t) +:+ ".json")).
  cbn [String.eqb Ascii.eqb Bool.eqb andb].
  by rewrite from_last_dot_json.
Qed.


End temp_paths.

Section size_restricted_creator.
Import TokenCreator.

(** [uploadFile] of the token creator settles, the upload being raced
    against a timer, and leaves the disk as it is; when it returns, the
    file at [path] passed validation and went out under the content type
    of its extension. *)
Lemma creator_uploadFile_spec cfg path tags (w : PlainWorld) r w' :
  uploadFile cfg path tags w = (r, w') →
  disk (plain_sys w') = disk (plain_sys w)
  ∧ now (plain_sys w') = now (plain_sys w)
  ∧ match r with
    | Returned res =>
        ∃ f i rest,
          disk (plain_sys w) !! path = Some f
          ∧ validateAndDetectFile cfg (disk (plain_sys w)) path = inr i
          ∧ calls (plain_sys w') = calls (plain_sys w) ++
              [ {| sent := data f;
                   sent_tags := tag "Content-Type" (mime (fi_type i)) :: rest |} ]
          ∧ publicURL res = gateway (transactionId res)
          ∧ fileSize res = size f
    | Threw _ => True
    | Unsettled => False
    end.
Proof.
  intros H. unfold uploadFile, try_catch in H.
  unfold bind at 1, validate at 1 in H. cbn [get_sys plain_has_sys] in H.
  destruct (validateAndDetectFile cfg _ path) as [e|i] eqn:Hv.
  { by settle H. }
  assert (Hf : ∃ f, disk (plain_sys w) !! path = Some f ∧ fi_size i = size f).
  { unfold validateAndDetectFile in Hv.
    destruct (disk (plain_sys w) !! path) as [f|]; [|done].
    destruct (registry_get _ _); [|done].
    destruct (_ <? _); [done|]. injection Hv as <-. by exists f. }
  destruct Hf as (f & Hf & Hsz).
  unfold bind at 1 in H.
  destruct (getCachedUploader w) as [o w1] eqn:Hup.
  assert (Hn : now (plain_sys w1) = now (plain_sys w) ∧ o ≠ Unsettled).
  { unfold getCachedUploader in Hup. destruct (cachedUploader w).
    - by simplify_eq.
    - unfold bind, withWallet, update, ret in Hup. cbn in Hup.
      destruct (wallet (plain_sys w) (wallet_calls (plain_sys w)));
        by simplify_eq. }
  destruct Hn as [Hn Hset].
  apply getCachedUploader_spec in Hup as (Hd & Hc & Hr).
  destruct o as [c|e|]; [|by settle H|done].
  unfold bind at 1, readFileSync at 1 in H. cbn [get_sys plain_has_sys] in H.
  rewrite Hd, Hf in H.
  unfold bind at 1, read at 1 in H.
  unfold bind at 1, upload at 1 in H.
  cbn [get_sys set_sys plain_has_sys plain_sys] in H.
  destruct (replies (plain_sys w1) _) as [id|msg|].
  2,3: by settle H.
  unfold bind, read, ret in H. cbn in H. simplify_eq. cbn.
  split; [done|]. split; [done|]. exists f, i. eexists.
  rewrite Hc. by repeat split.
Qed.

(** X21.  [createTokenAssets] of the size-restricted creator always
    answers with a result object: it settles, and never throws.  When the
    object says
    the token was created, the logo was on the disk, of a registered
    type and no larger than the smaller of its category's ceiling and
    the global maximum; the logo went out under its registered type and
    the metadata document under [application/json]; the document
    declares the logo's type, address and size, and is itself within the
    global maximum; and the disk is as before, less the metadata path. *)
Theorem creator_always_answers cfg td (w : PlainWorld) r w' :
  createTokenAssets cfg td w = (r, w') →
  match r with
  | Threw _ => False
  | Unsettled => False
  | Returned (NotCreated _) => True
  | Returned (Created res) =>
      ∃ f logoInfo c1 c2 m rest1 rest2,
        disk (plain_sys w) !! logoPath td = Some f
        ∧ registry_get (Path.toLowerCase (Path.extname (logoPath td))) FILE_TYPES
            = Some logoInfo
        ∧ size f ≤ Z.min (category_ceiling cfg (category logoInfo))
                         (MAX_UPLOAD_SIZE cfg)
        ∧ calls (plain_sys w') = calls (plain_sys w) ++ [c1; c2]
        ∧ sent c1 = data f
        ∧ sent_tags c1 = tag "Content-Type" (mime logoInfo) :: rest1
        ∧ sent c2 = Document m
        ∧ sent_tags c2 = tag "Content-Type" "application/json" :: rest2
        ∧ ftype <$> md_files m = [type logoInfo]
        ∧ md_image m = logoURL res
        ∧ md_file_size m = Some (size f)
        ∧ json_size cfg m ≤ MAX_UPLOAD_SIZE cfg
        ∧ logoURL res = gateway (logoTxId res)
        ∧ logoType res = type logoInfo
        ∧ logoSize res = size f
        ∧ disk (plain_sys w')
            = delete (metadataPath (now (plain_sys w))) (disk (plain_sys w))
  end.
Proof.
  intros H. unfold createTokenAssets, try_catch in H.
  unfold bind at 1, validate at 1 in H. cbn [get_sys plain_has_sys] in H.
  destruct (validateAndDetectFile cfg _ (logoPath td)) as [e|logoInfo] eqn:Hv.
  { by settle H. }
  unfold bind at 1 in H.
  match type of H with context [uploadFile ?c ?p ?t ?w0] =>
    pose proof (creator_uploadFile_spec c p t w0) as Hlogo;
    destruct (uploadFile c p t w0) as [[logoResult|e|] w1] end;
    specialize (Hlogo _ _ eq_refl).
  2: by settle H.
  2: by destruct Hlogo as (_ & _ & []).
  destruct Hlogo as (Hd1 & Hn1 & f & i & rest1 & Hf & Hi & Hc1 & Hu1 & Hs1).
  rewrite Hv in Hi. injection Hi as <-.
  unfold bind at 1, read at 1 in H. cbn [get_sys plain_has_sys] in H.
  unfold bind at 1, writeDocument at 1, update at 1 in H.
  cbn [get_sys set_sys plain_has_sys plain_sys with_disk disk] in H.
  unfold bind at 1 in H.
  match type of H with context [uploadFile ?c ?p ?t ?w0] =>
    pose proof (creator_uploadFile_spec c p t w0) as Hmeta;
    destruct (uploadFile c p t w0) as [[metaResult|e|] w2] end;
    specialize (Hmeta _ _ eq_refl);
    cbn [plain_sys disk with_disk calls cachedUploader now] in Hmeta.
  2: by settle H.
  2: by destruct Hmeta as (_ & _ & []).
  destruct Hmeta as (Hd2 & Hn2 & f2 & i2 & rest2 & Hf2 & Hi2 & Hc2 & Hu2 & Hs2).
  rewrite lookup_insert_eq in Hf2. injection Hf2 as <-.
  unfold bind, update, read, ret, unlink in H. cbn in H.
  injection H as <- <-. cbn.
  unfold validateAndDetectFile in Hv, Hi2. rewrite Hf in Hv.
  rewrite lookup_insert_eq, Hn1, creator_metadataPath_is_json in Hi2.
  cbn [registry_get FILE_TYPES String.eqb Ascii.eqb Bool.eqb andb ft category]
    in Hi2.
  destruct (registry_get _ FILE_TYPES) as [logoType|] eqn:Hft; [|done].
  destruct (_ <? size f) eqn:Hlt in Hv; [done|]. apply Z.ltb_ge in Hlt.
  injection Hv as <-.
  destruct (_ <? _) eqn:Hlt2 in Hi2; [done|]. apply Z.ltb_ge in Hlt2.
  injection Hi2 as <-. cbn in Hc2, Hlt2 |- *.
  rewrite maxAllowedSize_is_min in Hlt.
  rewrite Hc2, Hc1, <- app_assoc, Hd2, Hd1, Hn1, delete_insert_eq.
  eexists f, logoType, _, _, _, _, _. repeat split; try done.
Qed.

(** A token created from a logo of 1000 bytes under the default limits. *)
Lemma creator_always_answers_witness :
  let w := plain (machine (one_file "logo.png" 1000) always_receipt) in
  let r := TokenCreator.createTokenAssets default_limits
             (sample_token "logo.png") w in
  match r.1 with
  | Returned (TokenCreator.Created res) =>
      TokenCreator.logoSize res = 1000
      ∧ TokenCreator.maxSizeAllowed res = "2.0MB"
      ∧ disk (plain_sys r.2) = disk (plain_sys w)
  | _ => False
  end.
Proof.
  intros w r.
  pose proof (creator_always_answers default_limits (sample_token "logo.png")
                w r.1 r.2) as H.
  assert (Hrun : TokenCreator.createTokenAssets default_limits
                   (sample_token "logo.png") w = (r.1, r.2))
    by apply surjective_pairing.
  specialize (H Hrun).
  assert (Hr : r.1 = Returned (TokenCreator.Created
            {| TokenCreator.logoURL := "https://gateway.irys.xyz/tx-0";
               TokenCreator.metadataURL := "https://gateway.irys.xyz/tx-1";
               TokenCreator.logoTxId := "tx-0";
               TokenCreator.metadataTxId := "tx-1";
               TokenCreator.logoType := "image/png";
               TokenCreator.logoSize := 1000;
               TokenCreator.tr_category := "image";
               TokenCreator.maxSizeAllowed := "2.0MB";
               TokenCreator.totalTime := 850 |}))
    by (by vm_compute).
  rewrite Hr in H |- *.
  destruct H as (f & logoInfo & c1 & c2 & m & rest1 & rest2 & _ & _ & _ & _
                 & _ & _ & _ & _ & _ & _ & _ & _ & _ & _ & _ & Hdisk).
  split; [done|]. split; [done|]. rewrite Hdisk. by vm_compute.
Defined.


End size_restricted_creator.

(* ================================================================== *)
(** * The upload function of [api-production-final.js] *)

Section production_api.
Import ProductionApi.

Lemma existsb_eqb_elem_of k (l : list string) :
  existsb (String.eqb k) l = true ↔ k ∈ l.
Proof.
  rewrite existsb_exists. split.
  - intros (x & Hin & Heq). apply String.eqb_eq in Heq as ->.
    by apply list_elem_of_In.
  - intros Hin. exists k. split; [by apply list_elem_of_In|apply String.eqb_refl].
Qed.

(** X22.  The upload filter of [api-production-final.js] and
    [getContentType] agree: a file name the filter lets in has an entry
    in the table of content types, gets that entry and never the
    fallback [application/octet-stream]; a file name the filter refuses
    has no entry and would get the fallback. *)
Theorem api_accepted_files_are_typed originalname :
  let ext := Path.toLowerCase (Path.extname originalname) in
  (fileFilter originalname = true →
   ∃ m, registry_get ext types = Some m
        ∧ getContentType originalname = m
        ∧ m ≠ "application/octet-stream")
  ∧ (fileFilter originalname = false →
     registry_get ext types = None
     ∧ getContentType originalname = "application/octet-stream").
Proof.
  intros ext. unfold fileFilter, getContentType. fold ext.
  change allowed with (types.*1).
  split; intros H.
  - apply existsb_eqb_elem_of in H.
    destruct (registry_get ext types) as [m|] eqn:Hm.
    2: { by apply registry_get_None in Hm. }
    exists m. split; [done|]. split; [done|].
    apply registry_get_Some in Hm.
    assert (Hall : Forall (λ kv : string * string,
                             kv.2 ≠ "application/octet-stream") types)
      by (repeat constructor; discriminate).
    rewrite Forall_forall in Hall. by apply Hall in Hm.
  - assert (Hout : ext ∉ types.*1).
    { intros Hin. apply existsb_eqb_elem_of in Hin. congruence. }
    apply registry_get_None in Hout. by rewrite Hout.
Qed.

(** An upper-case [.PNG] is let in and typed; a [.exe] is neither. *)
Lemma api_accepted_files_are_typed_witness :
  ProductionApi.getContentType "cat.PNG" = "image/png"
  ∧ ProductionApi.getContentType "setup.exe" = "application/octet-stream".
Proof.
  split.
  - destruct (proj1 (api_accepted_files_are_typed "cat.PNG"))
      as (m & Hm & Hc & _); [reflexivity|].
    rewrite Hc. vm_compute in Hm. by injection Hm.
  - apply (proj2 (api_accepted_files_are_typed "setup.exe")). reflexivity.
Defined.



End production_api.

(* ================================================================== *)
(** * The token pipelines on sample runs *)

Section token_pipeline_samples.

(** The multi-user service creating a token: the logo is on the disk
    afterwards and was there before. *)
Lemma multi_user_leaves_no_file_witness :
  let w := MultiUserService.start multi_user_defaults
             (machine (one_file "logo.png" 1000) always_receipt) in
  is_Some (disk (MultiUserService.mu_sys w) !! "logo.png").
Proof.
  intros w.
  pose (r := MultiUserService.createTokenAssetsMultiUser multi_user_defaults
               "session-1" "session-2" (sample_token "logo.png")
               "w1" "10.0.0.1" w).
  apply (multi_user_leaves_no_file multi_user_defaults "session-1" "session-2"
           (sample_token "logo.png") "w1" "10.0.0.1" w r.1 r.2 "logo.png").
  - apply surjective_pairing.
  - intros Hn. vm_compute in Hn. discriminate Hn.
  - vm_compute. eexists. reflexivity.
Defined.

(** The multi-user service creating a token from a [.png] logo. *)
Lemma multi_user_document_type_witness :
  let w := MultiUserService.start multi_user_defaults
             (machine (one_file "logo.png" 1000) always_receipt) in
  let r := MultiUserService.createTokenAssetsMultiUser multi_user_defaults
             "session-1" "session-2" (sample_token "logo.png")
             "w1" "10.0.0.1" w in
  ∃ logoInfo c1 c2 m rest,
    registry_get (Path.toLowerCase (Path.extname "logo.png"))
      MultiUserService.FILE_TYPES = Some logoInfo
    ∧ calls (MultiUserService.mu_sys r.2)
        = calls (MultiUserService.mu_sys w) ++ [c1; c2]
    ∧ sent_tags c1 = tag "Content-Type" (MultiUserService.mime logoInfo) :: rest
    ∧ sent c2 = Document m
    ∧ ftype <$> md_files m = [MultiUserService.mime logoInfo]
    ∧ "image/png" = MultiUserService.mime logoInfo.
Proof.
  intros w r.
  apply (multi_user_document_type multi_user_defaults "session-1" "session-2"
           (sample_token "logo.png") "w1" "10.0.0.1" w
           {| MultiUserService.logoURL := "https://gateway.irys.xyz/tx-0";
              MultiUserService.metadataURL := "https://gateway.irys.xyz/tx-1";
              MultiUserService.logoTxId := "tx-0";
              MultiUserService.metadataTxId := "tx-1";
              MultiUserService.logoType := "image/png";
              MultiUserService.tr_userId := "w1";
              MultiUserService.tr_sessionId := "token_w1_1735732800000" |}
           r.2).
  apply pair_of_fst. by vm_compute.
Defined.

(** The plain token uploader on a [.jpg] logo. *)
Lemma uploadTokenAssets_document_witness :
  let w := plain (machine (one_file "logo.jpg" 1000) always_receipt) in
  let r := TokenUploader.uploadTokenAssets (λ _, 512) (sample_token "logo.jpg") w in
  ∃ c1 c2 m rest,
    calls (plain_sys r.2) = calls (plain_sys w) ++ [c1; c2]
    ∧ sent_tags c1
        = tag "Content-Type"
            (TokenUploader.getContentType
               (Path.toLowerCase (Path.extname "logo.jpg")))
          :: rest
    ∧ sent c2 = Document m
    ∧ ftype <$> md_files m = ["image/png"].
Proof.
  intros w r.
  apply (uploadTokenAssets_document (λ _, 512) (sample_token "logo.jpg") w
           {| TokenUploader.logoURL := "https://gateway.irys.xyz/tx-0";
              TokenUploader.metadataURL := "https://gateway.irys.xyz/tx-1";
              TokenUploader.logoTxId := "tx-0";
              TokenUploader.metadataTxId := "tx-1";
              TokenUploader.totalTime := 850 |} r.2).
  apply pair_of_fst. by vm_compute.
Defined.

End token_pipeline_samples.
